(** * Sonauto API example scripts: a shallow embedding and its properties

    The three scripts of the repository ([rock_song_generator.py],
    [singing_telegram.py], [transition_generator.py]) are sequential HTTP
    clients: submit a job, poll its status every five seconds, fetch the
    result and write it to disk.  They are embedded here as functions of a
    small state-and-exception monad over an explicit [world]:

    - the remote services are a script of [exchange]s, consumed one per HTTP
      request, in the order the requests are issued;
    - everything a run does that can be observed is appended to a [trace]
      (lines printed, requests issued, sleeps, YouTube downloads);
    - the file system is a finite map from paths to bytes.

    A request issued when the script is exhausted leaves the run [Starved]:
    [requests] is called without a timeout, so the process is still waiting.
    Python floats are IEEE binary64 numbers, which are Rocq's primitive
    floats; Python ints are [Z].

    The libraries the scripts call are modelled by what the scripts use of
    them: [requests] by its responses and exceptions, [pydub] by segments
    of one frame per millisecond, [yt_dlp] and [ffmpeg] by functions of the
    [host], [argparse] by the parsed arguments. *)

From Stdlib Require Import ZArith String Ascii List Floats Lia DecimalString.
From Stdlib.Strings Require Import Byte.
From stdpp Require Import gmap strings list.

Set Warnings "-inexact-float,-register-all".
Local Open Scope Z_scope.

(** ** Strings *)

Definition nl : string := String (ascii_of_nat 10) EmptyString.
Definition dquote : ascii := ascii_of_nat 34.

Fixpoint lstrip (c : ascii) (s : string) : string :=
  match s with
  | String a s' => if Ascii.eqb a c then lstrip c s' else s
  | EmptyString => EmptyString
  end.

Fixpoint rstrip (c : ascii) (s : string) : string :=
  match s with
  | EmptyString => EmptyString
  | String a s' =>
      match rstrip c s' with
      | EmptyString => if Ascii.eqb a c then EmptyString else String a EmptyString
      | t => String a t
      end
  end.

(** [s.strip(c)] for a one-character argument. *)
Definition strip (c : ascii) (s : string) : string := rstrip c (lstrip c s).

(** [sep.join(parts)] *)
Fixpoint join (sep : string) (parts : list string) : string :=
  match parts with
  | [] => EmptyString
  | [p] => p
  | p :: rest => p +:+ sep +:+ join sep rest
  end.

(** [s * n] *)
Fixpoint str_repeat (s : string) (n : nat) : string :=
  match n with
  | O => EmptyString
  | S n' => s +:+ str_repeat s n'
  end.

Definition string_of_Z (z : Z) : string := NilZero.string_of_int (Z.to_int z).

Definition chars (s : string) : list string :=
  map (fun a => String a EmptyString) (list_ascii_of_string s).

Definition starts_with (p s : string) : bool := String.prefix p s.

(** ** JSON values as Python sees them

    Numbers with a fraction do not occur in the documents the scripts read
    and are left out. *)

Inductive json :=
| JNull
| JBool (b : bool)
| JInt (z : Z)
| JStr (s : string)
| JArr (items : list json)
| JObj (members : list (string * json)).

(** ** Responses of the [requests] library *)

(** The three views [requests] gives of a response body are supplied
    independently: [.text], [.content] and [.json()] ([None] when the body
    is no JSON document and [.json()] raises). *)
Record Response := {
  status_code : Z;
  reason : string;
  text : string;
  content : list byte;
  json_body : option json
}.

(** ** Exceptions *)

Inductive exn_class :=
| RequestException   (* requests.exceptions.RequestException and its subclasses *)
| KeyError
| IndexError
| TypeError
| AttributeError
| ValueError
| OverflowError
| ZeroDivisionError
| OSError
| DownloadError      (* yt_dlp *)
| CouldntDecodeError (* pydub *)
| TooManyMissingFrames.

Inductive exn :=
| Exn (cls : exn_class) (msg : string)
| HTTPError (msg : string) (response : Response)  (* a RequestException that carries the response *)
| SystemExit (code : Z).

Definition str_exn (e : exn) : string :=
  match e with
  | Exn _ msg => msg
  | HTTPError msg _ => msg
  | SystemExit code => string_of_Z code
  end.

(** [except requests.exceptions.RequestException] *)
Definition is_RequestException (e : exn) : bool :=
  match e with
  | Exn RequestException _ => true
  | HTTPError _ _ => true
  | _ => false
  end.

(** [except Exception]: everything but [SystemExit]. *)
Definition is_Exception (e : exn) : bool :=
  match e with
  | Exn _ _ => true
  | HTTPError _ _ => true
  | SystemExit _ => false
  end.

Definition result (A : Type) : Type := exn + A.

Definition squote (s : string) : string := "'" +:+ s +:+ "'".

(** [repr(v)], without the escapes of string literals. *)
Fixpoint py_repr (v : json) : string :=
  match v with
  | JNull => "None"
  | JBool true => "True"
  | JBool false => "False"
  | JInt z => string_of_Z z
  | JStr s => squote s
  | JArr items => "[" +:+ join ", " (map py_repr items) +:+ "]"
  | JObj members =>
      "{" +:+ join ", " (map (fun kv => squote (fst kv) +:+ ": " +:+ py_repr (snd kv)) members) +:+ "}"
  end.

(** [str(v)], what an f-string prints for [{v}]. *)
Definition py_str (v : json) : string :=
  match v with
  | JStr s => s
  | _ => py_repr v
  end.

Fixpoint assoc (key : string) (members : list (string * json)) : option json :=
  match members with
  | [] => None
  | (k, v) :: rest => if String.eqb k key then Some v else assoc key rest
  end.

(** [d.get(key, default)] *)
Definition dict_get (d : json) (key : string) (default : json) : result json :=
  match d with
  | JObj members =>
      inr (match assoc key members with Some v => v | None => default end)
  | _ => inl (Exn AttributeError "object has no attribute 'get'")
  end.

(** [d[key]] for a string key *)
Definition getitem_key (d : json) (key : string) : result json :=
  match d with
  | JObj members =>
      match assoc key members with
      | Some v => inr v
      | None => inl (Exn KeyError (squote key))
      end
  | JArr _ => inl (Exn TypeError "list indices must be integers or slices, not str")
  | JStr _ => inl (Exn TypeError "string indices must be integers, not 'str'")
  | _ => inl (Exn TypeError "object is not subscriptable")
  end.

(** Python's index normalisation for a sequence of length [n]. *)
Definition norm_index (n i : Z) : option nat :=
  let j := if i <? 0 then i + n else i in
  if (0 <=? j) && (j <? n) then Some (Z.to_nat j) else None.

(** [v[i]] for an integer index *)
Definition getitem_index (v : json) (i : Z) : result json :=
  match v with
  | JArr items =>
      match norm_index (Z.of_nat (length items)) i with
      | Some k =>
          match items !! k with
          | Some x => inr x
          | None => inl (Exn IndexError "list index out of range")
          end
      | None => inl (Exn IndexError "list index out of range")
      end
  | JStr s =>
      match norm_index (Z.of_nat (String.length s)) i with
      | Some k =>
          match chars s !! k with
          | Some c => inr (JStr c)
          | None => inl (Exn IndexError "string index out of range")
          end
      | None => inl (Exn IndexError "string index out of range")
      end
  | JObj members => inl (Exn KeyError (string_of_Z i))
  | _ => inl (Exn TypeError "object is not subscriptable")
  end.

(** [sep.join(v)]: [v] must be an iterable of strings. *)
Fixpoint all_strings (items : list json) : option (list string) :=
  match items with
  | [] => Some []
  | JStr s :: rest =>
      match all_strings rest with
      | Some l => Some (s :: l)
      | None => None
      end
  | _ :: _ => None
  end.

Definition join_value (sep : string) (v : json) : result string :=
  match v with
  | JArr items =>
      match all_strings items with
      | Some l => inr (join sep l)
      | None => inl (Exn TypeError "sequence item: expected str instance")
      end
  | JStr s => inr (join sep (chars s))
  | JObj members => inr (join sep (map fst members))
  | _ => inl (Exn TypeError "can only join an iterable")
  end.

(** ** Python numbers: [int] and [float] *)

Inductive pynum :=
| PInt (z : Z)
| PFloat (f : float).

Definition sf_of_Z (z : Z) : spec_float :=
  match z with
  | Z0 => S754_zero false
  | Zpos p => S754_finite false p 0
  | Zneg p => S754_finite true p 0
  end.

Definition is_inf (f : float) : bool :=
  match Prim2SF f with
  | S754_infinity _ => true
  | _ => false
  end.

(** [float(z)]: the nearest binary64, [OverflowError] past the largest. *)
Definition float_of_Z (z : Z) : result float :=
  let f := SF2Prim (binary_normalize prec emax z 0 false) in
  if is_inf f then inl (Exn OverflowError "int too large to convert to float") else inr f.

Definition to_float (x : pynum) : result float :=
  match x with
  | PInt z => float_of_Z z
  | PFloat f => inr f
  end.

Definition float_op (op : float -> float -> float) (x y : pynum) : result pynum :=
  match to_float x with
  | inl e => inl e
  | inr a =>
      match to_float y with
      | inl e => inl e
      | inr b => inr (PFloat (op a b))
      end
  end.

Definition py_add (x y : pynum) : result pynum :=
  match x, y with
  | PInt a, PInt b => inr (PInt (a + b))
  | _, _ => float_op PrimFloat.add x y
  end.

Definition py_sub (x y : pynum) : result pynum :=
  match x, y with
  | PInt a, PInt b => inr (PInt (a - b))
  | _, _ => float_op PrimFloat.sub x y
  end.

Definition py_mul (x y : pynum) : result pynum :=
  match x, y with
  | PInt a, PInt b => inr (PInt (a * b))
  | _, _ => float_op PrimFloat.mul x y
  end.

(** [a / b] on two ints is the correctly rounded quotient. *)
Definition int_truediv (a b : Z) : result pynum :=
  if b =? 0 then inl (Exn ZeroDivisionError "division by zero") else
  let q := SF2Prim (SFdiv prec emax (sf_of_Z a) (sf_of_Z b)) in
  if is_inf q then inl (Exn OverflowError "integer division result too large for a float")
  else inr (PFloat q).

Definition is_zero (f : float) : bool :=
  match Prim2SF f with
  | S754_zero _ => true
  | _ => false
  end.

Definition py_truediv (x y : pynum) : result pynum :=
  match x, y with
  | PInt a, PInt b => int_truediv a b
  | _, _ =>
      match to_float y with
      | inl e => inl e
      | inr b =>
          if is_zero b then inl (Exn ZeroDivisionError "float division by zero")
          else float_op PrimFloat.div x (PFloat b)
      end
  end.

(** The exact comparison of an int with a float ([None]: unordered). *)
Definition compare_Z_sf (z : Z) (f : spec_float) : option comparison :=
  match f with
  | S754_nan => None
  | S754_infinity false => Some Lt
  | S754_infinity true => Some Gt
  | S754_zero _ => Some (z ?= 0)
  | S754_finite s m e =>
      let v := if s then Zneg m else Zpos m in
      Some (if 0 <=? e then z ?= v * 2 ^ e else z * 2 ^ (- e) ?= v)
  end.

(** [x < y] *)
Definition py_lt (x y : pynum) : bool :=
  match x, y with
  | PInt a, PInt b => a <? b
  | PInt a, PFloat b =>
      match compare_Z_sf a (Prim2SF b) with Some Lt => true | _ => false end
  | PFloat a, PInt b =>
      match compare_Z_sf b (Prim2SF a) with Some Gt => true | _ => false end
  | PFloat a, PFloat b => PrimFloat.ltb a b
  end.

(** [x == y] *)
Definition py_eq (x y : pynum) : bool :=
  match x, y with
  | PInt a, PInt b => a =? b
  | PInt a, PFloat b =>
      match compare_Z_sf a (Prim2SF b) with Some Eq => true | _ => false end
  | PFloat a, PInt b =>
      match compare_Z_sf b (Prim2SF a) with Some Eq => true | _ => false end
  | PFloat a, PFloat b => PrimFloat.eqb a b
  end.

(** [x > y] is [y < x]. *)
Definition py_gt (x y : pynum) : bool := py_lt y x.

(** [min(x, y)]: the first argument unless the second is smaller. *)
Definition py_min (x y : pynum) : pynum := if py_lt y x then y else x.

(** [int(x)]: truncation towards zero. *)
Definition py_int (x : pynum) : result Z :=
  match x with
  | PInt z => inr z
  | PFloat f =>
      match Prim2SF f with
      | S754_zero _ => inr 0
      | S754_finite s m e =>
          let a := if 0 <=? e then Zpos m * 2 ^ e else Zpos m / 2 ^ (- e) in
          inr (if s then - a else a)
      | S754_infinity _ => inl (Exn OverflowError "cannot convert float infinity to integer")
      | S754_nan => inl (Exn ValueError "cannot convert float NaN to integer")
      end
  end.

(** [abs(x)] *)
Definition py_abs (x : pynum) : pynum :=
  match x with
  | PInt z => PInt (Z.abs z)
  | PFloat f => PFloat (PrimFloat.abs f)
  end.

Definition pad2 (n : Z) : string :=
  if n <? 10 then "0" +:+ string_of_Z n else string_of_Z n.

(** [round-half-even] of [m * 2^e * 100] for [m > 0]. *)
Definition centi (m : positive) (e : Z) : Z :=
  if 0 <=? e then Zpos m * 2 ^ e * 100
  else
    let d := 2 ^ (- e) in
    let n := Zpos m * 100 in
    let q := n / d in
    let r := n mod d in
    if 2 * r <? d then q
    else if d <? 2 * r then q + 1
    else if Z.even q then q else q + 1.

(** [format(x, ".2f")] *)
Definition format_2f (x : pynum) : result string :=
  match to_float x with
  | inl e => inl e
  | inr f =>
      inr (match Prim2SF f with
           | S754_nan => "nan"
           | S754_infinity false => "inf"
           | S754_infinity true => "-inf"
           | S754_zero false => "0.00"
           | S754_zero true => "-0.00"
           | S754_finite s m e =>
               let c := centi m e in
               (if s then "-" else "") +:+ string_of_Z (c / 100) +:+ "." +:+ pad2 (c mod 100)
           end)
  end.

(** [base64.b64encode(bytes).decode("utf-8")] *)
Definition b64_alphabet : list ascii :=
  list_ascii_of_string "ABCDEFGHIJKLMNOPQRSTUVWXYZabcdefghijklmnopqrstuvwxyz0123456789+/".

Definition b64_char (n : N) : ascii :=
  nth (N.to_nat n) b64_alphabet "="%char.

Fixpoint b64encode (bs : list byte) : string :=
  match bs with
  | [] => EmptyString
  | [a] =>
      let n := (Byte.to_N a * 65536)%N in
      String (b64_char (n / 262144)) (String (b64_char ((n / 4096) mod 64)) "==")
  | [a; b] =>
      let n := (Byte.to_N a * 65536 + Byte.to_N b * 256)%N in
      String (b64_char (n / 262144)) (String (b64_char ((n / 4096) mod 64))
        (String (b64_char ((n / 64) mod 64)) "="))
  | a :: b :: c :: rest =>
      let n := (Byte.to_N a * 65536 + Byte.to_N b * 256 + Byte.to_N c)%N in
      String (b64_char (n / 262144)) (String (b64_char ((n / 4096) mod 64))
        (String (b64_char ((n / 64) mod 64)) (String (b64_char (n mod 64)) (b64encode rest))))
  end.

(** ** Audio segments (pydub)

    A segment is its frames on the millisecond axis, one frame per
    millisecond: [len(seg)] is the number of frames. *)

Record AudioSegment := { channels : Z; frames : list Z }.

Definition len (seg : AudioSegment) : Z := Z.of_nat (length (frames seg)).

(** Python's [data[start:stop]] on a sequence, for integer bounds. *)
Definition clamp_index (n i : Z) : Z :=
  if i <? 0 then Z.max 0 (i + n) else Z.min i n.

Definition py_slice {A : Type} (l : list A) (start stop : Z) : list A :=
  let n := Z.of_nat (length l) in
  let s := clamp_index n start in
  let e := clamp_index n stop in
  take (Z.to_nat (e - s)) (drop (Z.to_nat s) l).

(** [AudioSegment._parse_position]: a negative position counts from the
    end; the position is then truncated to a frame number. *)
Definition parse_position (seg : AudioSegment) (val : pynum) : result Z :=
  match (if py_lt val (PInt 0) then py_sub (PInt (len seg)) (py_abs val) else inr val) with
  | inl e => inl e
  | inr v => py_int v
  end.

(** [seg[start:stop]] ([AudioSegment.__getitem__] on a slice without step):
    both bounds are capped by [len(seg)], parsed, and the data sliced; up to
    two missing milliseconds are filled with silence, more is an error. *)
Definition slice (seg : AudioSegment) (start stop : option pynum) : result AudioSegment :=
  let n := PInt (len seg) in
  let start := py_min (match start with Some a => a | None => PInt 0 end) n in
  let stop := py_min (match stop with Some b => b | None => n end) n in
  match parse_position seg start with
  | inl e => inl e
  | inr s =>
      match parse_position seg stop with
      | inl e => inl e
      | inr e =>
          let data := py_slice (frames seg) s e in
          let missing_frames := (e - s) - Z.of_nat (length data) in
          if missing_frames =? 0 then inr {| channels := channels seg; frames := data |}
          else if 2 <? missing_frames then
            inl (Exn TooManyMissingFrames "You should never be filling in more than 2 ms with silence here")
          else
            let silence := match data with [] => [] | _ :: _ => [0] end in
            inr {| channels := channels seg;
                   frames := data ++ concat (repeat silence (Z.to_nat missing_frames)) |}
      end
  end.

(** [AudioSegment.silent(duration=d)]: [d] milliseconds of zero frames, none
    when [d] is negative. *)
Definition silent (duration : Z) : AudioSegment :=
  {| channels := 1; frames := repeat 0 (Z.to_nat duration) |}.

(** [a + b]: concatenation, after bringing both to the same channel count. *)
Definition append (a b : AudioSegment) : AudioSegment :=
  {| channels := Z.max (channels a) (channels b); frames := frames a ++ frames b |}.

Definition set_channels (seg : AudioSegment) (n : Z) : AudioSegment :=
  {| channels := n; frames := frames seg |}.

(** ** The world a script runs in *)

(** What a run reads and never changes. *)
Record host := {
  environ : gmap string string;   (* os.environ once load_dotenv() has run *)
  cwd : string;                   (* os.getcwd() *)
  tmpdir : string;                (* the directory tempfile.TemporaryDirectory() makes *)
  now : Z;                        (* int(time.time()) *)
  youtube : string -> option (json * list byte);
                                  (* yt_dlp: the info dict and the extracted mp3, or a failure *)
  decode_audio : list byte -> option AudioSegment;
  encode_audio : string -> option string -> AudioSegment -> list byte
                                  (* ffmpeg: format, bitrate, segment *)
}.

(** The dict literals the scripts send as [json=...]. *)
Inductive payload :=
| NoBody
| GenerationBody (prompt : string) (num_songs : Z)
| InpaintBody (audio_base64 : string) (sections : list (pynum * pynum))
    (lyrics : string) (tags : list string) (selection_crop : bool)
| VideoBody (resolution : string) (crop_head : bool) (expressiveness : Z)
    (img_url : string) (audio_url : json) (whole_body_mode : bool).

Record request := {
  method : string;
  url : string;
  headers : list (string * string);
  body : payload
}.

(** One scripted HTTP exchange: [requests] raises before any response
    arrives, or a response arrives. *)
Inductive exchange :=
| Refused (msg : string)
| Answered (r : Response).

Inductive event :=
| Print (line : string)
| Sleep (seconds : Z)
| Http (rq : request) (reply : exchange)   (* a request and what came back *)
| Download (video : string).

Record world := {
  network : list exchange;
  files : gmap string (list byte);
  trace : list event
}.

Definition log (e : event) (w : world) : world :=
  {| network := network w; files := files w; trace := trace w ++ [e] |}.

Definition set_network (net : list exchange) (w : world) : world :=
  {| network := net; files := files w; trace := trace w |}.

Definition set_files (fs : gmap string (list byte)) (w : world) : world :=
  {| network := network w; files := fs; trace := trace w |}.

(** ** The monad *)

Inductive outcome (A : Type) :=
| Ret (a : A)        (* returned a *)
| Raise (e : exn)    (* an exception escaped *)
| Starved.           (* still waiting for the network *)

Arguments Ret {A} a.
Arguments Raise {A} e.
Arguments Starved {A}.

Definition M (A : Type) : Type := world -> outcome A * world.

Definition ret {A : Type} (a : A) : M A := fun w => (Ret a, w).

Definition raise {A : Type} (e : exn) : M A := fun w => (Raise e, w).

Definition starve {A : Type} : M A := fun w => (Starved, w).

Definition bind {A B : Type} (m : M A) (k : A -> M B) : M B :=
  fun w =>
    match m w with
    | (Ret a, w') => k a w'
    | (Raise e, w') => (Raise e, w')
    | (Starved, w') => (Starved, w')
    end.

Declare Scope py_scope.
Delimit Scope py_scope with py.
Notation "x <- m ;; k" := (bind m (fun x => k))
  (at level 100, m at next level, right associativity) : py_scope.
Notation "m ;;; k" := (bind m (fun _ => k))
  (at level 100, right associativity) : py_scope.
Local Open Scope py_scope.

(** [try: m except <catches> as e: handler e] *)
Definition try_except {A : Type} (m : M A) (catches : exn -> bool) (handler : exn -> M A) : M A :=
  fun w =>
    match m w with
    | (Raise e, w') => if catches e then handler e w' else (Raise e, w')
    | r => r
    end.

Definition lift {A : Type} (r : result A) : M A :=
  match r with
  | inl e => raise e
  | inr a => ret a
  end.

(** ** Primitives *)

Definition print (line : string) : M unit := fun w => (Ret tt, log (Print line) w).

(** [time.sleep(seconds)] *)
Definition sleep (seconds : Z) : M unit := fun w => (Ret tt, log (Sleep seconds) w).

(** [requests.request(method, url, headers=..., json=...)] *)
Definition requests_request (rq : request) : M Response :=
  fun w =>
    match network w with
    | [] => (Starved, w)
    | Refused msg :: net =>
        (Raise (Exn RequestException msg), log (Http rq (Refused msg)) (set_network net w))
    | Answered r :: net => (Ret r, log (Http rq (Answered r)) (set_network net w))
    end.

(** [requests.get(v)] for a URL taken from a JSON document: a value that is
    no string is refused by [requests] before anything is sent. *)
Definition requests_get_value (v : json) (hdrs : list (string * string)) : M Response :=
  match v with
  | JStr u => requests_request {| method := "GET"; url := u; headers := hdrs; body := NoBody |}
  | _ => raise (Exn RequestException ("Invalid URL " +:+ squote (py_str v) +:+ ": No scheme supplied."))
  end.

(** [Response.ok], which is also the truth value of a response. *)
Definition ok (r : Response) : bool :=
  negb ((400 <=? status_code r) && (status_code r <? 600)).

(** The message of the [HTTPError] that [raise_for_status] raises, if any. *)
Definition http_error_msg (u : string) (r : Response) : option string :=
  if (400 <=? status_code r) && (status_code r <? 500) then
    Some (string_of_Z (status_code r) +:+ " Client Error: " +:+ reason r +:+ " for url: " +:+ u)
  else if (500 <=? status_code r) && (status_code r <? 600) then
    Some (string_of_Z (status_code r) +:+ " Server Error: " +:+ reason r +:+ " for url: " +:+ u)
  else None.

(** [response.raise_for_status()] *)
Definition raise_for_status (u : string) (r : Response) : M unit :=
  match http_error_msg u r with
  | Some msg => raise (HTTPError msg r)
  | None => ret tt
  end.

(** [response.json()] *)
Definition response_json (r : Response) : M json :=
  match json_body r with
  | Some v => ret v
  | None => raise (Exn RequestException "Expecting value: line 1 column 1 (char 0)")
  end.

(** [with open(path, "wb") as f: f.write(data)] *)
Definition write_file (path : string) (data : list byte) : M unit :=
  fun w => (Ret tt, set_files (<[path := data]> (files w)) w).

(** [open(path, "rb").read()] *)
Definition read_file (path : string) : M (list byte) :=
  fun w =>
    match files w !! path with
    | Some data => (Ret data, w)
    | None => (Raise (Exn OSError ("No such file or directory: " +:+ squote path)), w)
    end.

(** [os.path.abspath(path)], without normalisation of the path. *)
Definition abspath (h : host) (path : string) : string :=
  if starts_with "/" path then path else cwd h +:+ "/" +:+ path.

Definition bearer (key : string) : list (string * string) :=
  [("Authorization", "Bearer " +:+ key); ("Content-Type", "application/json")].

(** [status != prev_status], where [prev_status] starts as [None]. *)
Definition differs (status : string) (prev_status : option string) : bool :=
  match prev_status with
  | Some p => negb (String.eqb status p)
  | None => true
  end.

(** How a process ends: the exit status of the interpreter, or [None] while
    it is still running. *)
Definition exit_status {A : Type} (r : outcome A) : option Z :=
  match r with
  | Ret _ => Some 0
  | Raise (SystemExit code) => Some code
  | Raise (Exn _ _) => Some 1
  | Raise (HTTPError _ _) => Some 1
  | Starved => None
  end.

(** [if not response]: [None], or a response whose truth value is false. *)
Definition truthy (response : option Response) : option Response :=
  match response with
  | Some r => if ok r then Some r else None
  | None => None
  end.

(** [status in ["SUCCESS", "FAILURE"]] *)
Definition terminal (status : string) : bool :=
  String.eqb status "SUCCESS" || String.eqb status "FAILURE".

(** ** rock_song_generator.py *)

Module Rock.
Section Script.
Context (h : host).

Definition API_KEY : string :=
  default "your_sonauto_api_key" (environ h !! "SONAUTO_API_KEY").

(** The callers never pass [headers], so the default ones are always used. *)
Definition api_request (meth endpoint : string) (json_arg : payload) : M (option Response) :=
  let base_url := "https://api.sonauto.ai/v1" in
  let hdrs := bearer API_KEY in
  let u := base_url +:+ "/" +:+ endpoint in
  try_except
    (response <- requests_request {| method := meth; url := u; headers := hdrs; body := json_arg |} ;;
     raise_for_status u response ;;;
     ret (Some response))
    is_RequestException
    (fun e => print (nl +:+ "❌ API Error: " +:+ str_exn e) ;;; ret None).

(** The [while True] loop of [poll_status]; every iteration issues one
    request, so [fuel] bounds the iterations by the exchanges left. *)
Fixpoint poll_loop (fuel : nat) (task_id : json) (prev_status : option string) : M string :=
  match fuel with
  | O => starve
  | S fuel' =>
      response <- api_request "GET" ("generations/status/" +:+ py_str task_id) NoBody ;;
      match truthy response with
      | None => ret "FAILURE"
      | Some r =>
          let status := strip dquote (text r) in
          prev <- (if differs status prev_status
                   then print ("Status: " +:+ status) ;;; ret (Some status)
                   else ret prev_status) ;;
          if terminal status then ret status
          else sleep 5 ;;; poll_loop fuel' task_id prev
      end
  end.

Definition poll_status (task_id : json) : M string :=
  fun w => poll_loop (S (length (network w))) task_id None w.

Definition display_results (result : json) : M unit :=
  lyrics <- lift (dict_get result "lyrics" (JStr "No lyrics found")) ;;
  seed <- lift (dict_get result "seed" (JStr "Unknown")) ;;
  tags <- lift (dict_get result "tags" (JArr [])) ;;
  print (nl +:+ str_repeat "=" 40) ;;;
  print ("🎲 SEED: " +:+ py_str seed) ;;;
  joined <- lift (join_value ", " tags) ;;
  print ("🏷️ TAGS: " +:+ joined) ;;;
  print (nl +:+ "📝 LYRICS:" +:+ nl +:+ py_str lyrics) ;;;
  print (str_repeat "=" 40).

Definition generate_rock_song : M (option string) :=
  if String.eqb API_KEY "your_sonauto_api_key" then
    print "⚠️  Please set your Sonauto API key in the .env file or environment variables" ;;;
    ret None
  else
    let payload := GenerationBody "An upbeat rock song about how awesome programming is" 1 in
    response <- api_request "POST" "generations" payload ;;
    match truthy response with
    | None => ret None
    | Some r =>
        data <- response_json r ;;
        task_id <- lift (dict_get data "task_id" JNull) ;;
        print ("Generation started with task ID: " +:+ py_str task_id) ;;;
        status <- poll_status task_id ;;
        if String.eqb status "FAILURE" then
          error_response <- api_request "GET" ("generations/" +:+ py_str task_id) NoBody ;;
          match truthy error_response with
          | Some er =>
              error_data <- response_json er ;;
              error_message <- lift (dict_get error_data "error_message"
                                       (JStr "No detailed error message available")) ;;
              print ("❌ Generation failed: " +:+ py_str error_message)
          | None => print "❌ Generation failed and couldn't retrieve error details"
          end ;;;
          ret None
        else
          result <- api_request "GET" ("generations/" +:+ py_str task_id) NoBody ;;
          match truthy result with
          | None => ret None
          | Some res =>
              result_data <- response_json res ;;
              song_paths <- lift (getitem_key result_data "song_paths") ;;
              song_url <- lift (getitem_index song_paths 0) ;;
              display_results result_data ;;;
              let song_filename := "rock_song_" +:+ py_str task_id +:+ ".ogg" in
              try_except
                (download_response <- requests_get_value song_url [] ;;
                 raise_for_status (py_str song_url) download_response ;;;
                 write_file song_filename (content download_response) ;;;
                 print (nl +:+ "✅ Song saved to " +:+ abspath h song_filename) ;;;
                 ret (Some song_filename))
                is_RequestException
                (fun e => print (nl +:+ "❌ Download Error: " +:+ str_exn e) ;;; ret None)
          end
    end.

(** [if __name__ == "__main__"]: exit status 1 when no song file came back. *)
Definition main : M unit :=
  song_file <- generate_rock_song ;;
  match song_file with
  | Some (String _ _) => ret tt
  | _ => raise (SystemExit 1)
  end.

End Script.
End Rock.

(** ** singing_telegram.py *)

(** [s.lower()] on the ASCII letters. *)
Definition lower_ascii (a : ascii) : ascii :=
  let n := nat_of_ascii a in
  if ((65 <=? n) && (n <=? 90))%nat then ascii_of_nat (n + 32) else a.

Fixpoint lower (s : string) : string :=
  match s with
  | EmptyString => EmptyString
  | String a s' => String (lower_ascii a) (lower s')
  end.

Fixpoint lookup_image (key : string) (table : list (string * string)) : option string :=
  match table with
  | [] => None
  | (k, v) :: rest => if String.eqb k key then Some v else lookup_image key rest
  end.

(** [status == "pending"] and the like, on a value read from JSON. *)
Definition json_is (v : json) (s : string) : bool :=
  match v with
  | JStr t => String.eqb t s
  | _ => false
  end.

Module Telegram.

(** The dicts the two steps return; both have a key [local_path]. *)
Record song_data := {
  song_url : json;
  song_local_path : string;
  lyrics : json;
  task_id : json
}.

Record video_data := {
  video_url : json;
  video_local_path : string
}.

Record args := {
  recipient : string;
  occasion : string;
  message : string;
  style : string
}.

Section Script.
Context (h : host).

Definition SONAUTO_API_KEY : string :=
  default "your_sonauto_api_key" (environ h !! "SONAUTO_API_KEY").

Definition LEMON_SLICE_API_KEY : string :=
  default "your_lemonslice_api_key" (environ h !! "LEMON_SLICE_API_KEY").

Definition SONAUTO_BASE_URL : string := "https://api.sonauto.ai/v1".
Definition LEMON_SLICE_BASE_URL : string := "https://lemonslice.com/api/v2".

Definition sophia : string :=
  "https://6ammc3n5zzf5ljnz.public.blob.vercel-storage.com/actor_previews/actor_preview_sophia-eBMR0dI7joEpZ542diXv7kib5AEJwz".

Definition CHARACTER_IMAGES : list (string * string) :=
  [("birthday", sophia); ("default", sophia)].

Definition check_api_keys : M bool :=
  if String.eqb SONAUTO_API_KEY "your_sonauto_api_key" then
    print "⚠️  Please set your Sonauto API key in the .env file or environment variables" ;;;
    ret false
  else if String.eqb LEMON_SLICE_API_KEY "your_lemonslice_api_key" then
    print "⚠️  Please set your Lemon Slice API key in the .env file or environment variables" ;;;
    ret false
  else ret true.

(** The [while True] loop of [generate_custom_song]: [true] when it is left
    by [break], [false] when the function returns [None] from inside it. *)
Fixpoint song_poll_loop (fuel : nat) (hdrs : list (string * string)) (task_id : json)
    (prev_status : option string) : M bool :=
  match fuel with
  | O => starve
  | S fuel' =>
      status_resp <- requests_request
        {| method := "GET";
           url := SONAUTO_BASE_URL +:+ "/generations/status/" +:+ py_str task_id;
           headers := hdrs; body := NoBody |} ;;
      let status := strip dquote (text status_resp) in
      prev <- (if differs status prev_status
               then print ("Song status: " +:+ status) ;;; ret (Some status)
               else ret prev_status) ;;
      if String.eqb status "SUCCESS" then ret true
      else if String.eqb status "FAILURE" then
        error_resp <- requests_request
          {| method := "GET";
             url := SONAUTO_BASE_URL +:+ "/generations/" +:+ py_str task_id;
             headers := hdrs; body := NoBody |} ;;
        error_data <- response_json error_resp ;;
        error_message <- lift (dict_get error_data "error_message" (JStr "Unknown error")) ;;
        print ("❌ Song generation failed: " +:+ py_str error_message) ;;;
        ret false
      else sleep 5 ;;; song_poll_loop fuel' hdrs task_id prev
  end.

Definition song_poll (hdrs : list (string * string)) (task_id : json) : M bool :=
  fun w => song_poll_loop (S (length (network w))) hdrs task_id None w.

Definition generate_custom_song (recipient occasion message style : string)
    : M (option song_data) :=
  print "🎵 Generating custom song..." ;;;
  let prompt := "A " +:+ style +:+ " song for " +:+ recipient +:+ "'s " +:+ occasion
                +:+ ". The song should mention that " +:+ message in
  let hdrs := bearer SONAUTO_API_KEY in
  let payload := GenerationBody prompt 1 in
  try_except
    (let u := SONAUTO_BASE_URL +:+ "/generations" in
     response <- requests_request {| method := "POST"; url := u; headers := hdrs; body := payload |} ;;
     raise_for_status u response ;;;
     data <- response_json response ;;
     task_id <- lift (dict_get data "task_id" JNull) ;;
     print ("Song generation started with task ID: " +:+ py_str task_id) ;;;
     succeeded <- song_poll hdrs task_id ;;
     if succeeded then
       result_resp <- requests_request
         {| method := "GET";
            url := SONAUTO_BASE_URL +:+ "/generations/" +:+ py_str task_id;
            headers := hdrs; body := NoBody |} ;;
       result <- response_json result_resp ;;
       song_paths <- lift (getitem_key result "song_paths") ;;
       song_url <- lift (getitem_index song_paths 0) ;;
       lyrics <- lift (dict_get result "lyrics" (JStr "No lyrics found")) ;;
       print (nl +:+ str_repeat "=" 40) ;;;
       print ("📝 GENERATED LYRICS:" +:+ nl +:+ py_str lyrics) ;;;
       print (str_repeat "=" 40 +:+ nl) ;;;
       let song_filename := "telegram_song_" +:+ py_str task_id +:+ ".ogg" in
       (* [open(song_filename, "wb")] creates the file before the download *)
       write_file song_filename [] ;;;
       song_response <- requests_get_value song_url [] ;;
       write_file song_filename (content song_response) ;;;
       print ("✅ Song saved to " +:+ abspath h song_filename) ;;;
       ret (Some {| song_url := song_url; song_local_path := song_filename;
                    lyrics := lyrics; task_id := task_id |})
     else ret None)
    is_Exception
    (fun e => print ("❌ Error during song generation: " +:+ str_exn e) ;;; ret None).

(** The [while status == "pending"] loop of [create_singing_video].  The
    variable starts as ["pending"], so the body runs before the first real
    test; the loop is left with the last [status] and [data] read. *)
Fixpoint video_poll_loop (fuel : nat) (job_id : json) : M (json * json) :=
  match fuel with
  | O => starve
  | S fuel' =>
      status_resp <- requests_request
        {| method := "GET";
           url := LEMON_SLICE_BASE_URL +:+ "/generations/" +:+ py_str job_id;
           headers := [("authorization", "Bearer " +:+ LEMON_SLICE_API_KEY)];
           body := NoBody |} ;;
      data <- response_json status_resp ;;
      status <- lift (dict_get data "status" JNull) ;;
      if json_is status "pending" then
        print "Waiting for video to complete..." ;;;
        sleep 5 ;;;
        video_poll_loop fuel' job_id
      else ret (status, data)
  end.

Definition video_poll (job_id : json) : M (json * json) :=
  fun w => video_poll_loop (S (length (network w))) job_id w.

Definition create_singing_video (song : song_data) (recipient occasion : string)
    : M (option video_data) :=
  print (nl +:+ "🎬 Creating singing telegram video...") ;;;
  let img_url := match lookup_image (lower occasion) CHARACTER_IMAGES with
                 | Some u => u
                 | None => sophia
                 end in
  let hdrs := [("accept", "application/json");
               ("authorization", "Bearer " +:+ LEMON_SLICE_API_KEY);
               ("content-type", "application/json")] in
  let data := VideoBody "320" false 1 img_url (song_url song) true in
  try_except
    (let u := LEMON_SLICE_BASE_URL +:+ "/generate" in
     response <- requests_request {| method := "POST"; url := u; headers := hdrs; body := data |} ;;
     raise_for_status u response ;;;
     submitted <- response_json response ;;
     job_id <- lift (dict_get submitted "job_id" JNull) ;;
     print ("Video generation started with job ID: " +:+ py_str job_id) ;;;
     polled <- video_poll job_id ;;
     let status := fst polled in
     let data := snd polled in
     if json_is status "completed" then
       video_url <- lift (dict_get data "video_url" JNull) ;;
       let video_filename := "telegram_video_" +:+ py_str (task_id song) +:+ ".mp4" in
       write_file video_filename [] ;;;
       video_response <- requests_get_value video_url [] ;;
       write_file video_filename (content video_response) ;;;
       print ("✅ Video saved to " +:+ abspath h video_filename) ;;;
       ret (Some {| video_url := video_url; video_local_path := video_filename |})
     else
       print ("❌ Video generation failed with status: " +:+ py_str status) ;;;
       ret None)
    is_Exception
    (fun e => print ("❌ Error during video generation: " +:+ str_exn e) ;;; ret None).

Definition create_singing_telegram (recipient occasion message style : string) : M bool :=
  keys_ok <- check_api_keys ;;
  if negb keys_ok then ret false
  else
    print ("🎁 Creating a " +:+ style +:+ " singing telegram for " +:+ recipient
           +:+ "'s " +:+ occasion +:+ "...") ;;;
    song <- generate_custom_song recipient occasion message style ;;
    match song with
    | None => ret false
    | Some song =>
        video <- create_singing_video song recipient occasion ;;
        match video with
        | None => ret false
        | Some video =>
            print (nl +:+ str_repeat "=" 60) ;;;
            print "✨ SINGING TELEGRAM CREATED SUCCESSFULLY! ✨" ;;;
            print ("🎵 Song: " +:+ abspath h (song_local_path song)) ;;;
            print ("🎬 Video: " +:+ abspath h (video_local_path video)) ;;;
            print (str_repeat "=" 60) ;;;
            ret true
        end
    end.

(** [if __name__ == "__main__"]: [cmdline] is what [parser.parse_args()]
    returns, [None] when argparse rejects the command line and exits with
    status 2. *)
Definition main (cmdline : option args) : M unit :=
  match cmdline with
  | None => raise (SystemExit 2)
  | Some a =>
      success <- create_singing_telegram (recipient a) (occasion a) (message a) (style a) ;;
      if negb success then raise (SystemExit 1) else ret tt
  end.

End Script.
End Telegram.

(** ** transition_generator.py *)

(** A string that is neither [None] nor empty, as [if x] and [x or y] test it. *)
Definition nonempty (s : option string) : option string :=
  match s with
  | Some (String a t) => Some (String a t)
  | _ => None
  end.

Module Transition.

Record args := {
  url1 : string;
  url2 : string;
  song_duration : Z;               (* --song-duration, type=int, default 45 *)
  silence : Z;                     (* --silence, type=int, default 5 *)
  trim_from_end : pynum;           (* --trim-from-end, type=float, default 0 *)
  trim_to_start : pynum;           (* --trim-to-start, type=float, default 0 *)
  output : option string;
  pre_inpaint_output : option string
}.

Section Script.
Context (h : host).

(** [API_KEY = os.getenv("SONAUTO_API_KEY")]: [None] when the variable is unset. *)
Definition API_KEY : option string := environ h !! "SONAUTO_API_KEY".

Definition api_request (meth endpoint : string) (json_arg : payload) : M (option Response) :=
  let base_url := "https://api.sonauto.ai/v1" in
  let hdrs := bearer (match API_KEY with Some k => k | None => "None" end) in
  let u := base_url +:+ "/" +:+ endpoint in
  try_except
    (response <- requests_request {| method := meth; url := u; headers := hdrs; body := json_arg |} ;;
     raise_for_status u response ;;;
     ret (Some response))
    is_RequestException
    (fun e =>
       print (nl +:+ "❌ API Error: " +:+ str_exn e) ;;;
       match e with
       | HTTPError _ r =>
           print ("Response status: " +:+ string_of_Z (status_code r)) ;;;
           match json_body r with
           | Some v => print ("Response content: " +:+ py_str v)
           | None => print ("Response content: " +:+ text r)
           end
       | _ => ret tt
       end ;;;
       ret None).

Fixpoint poll_loop (fuel : nat) (task_id : json) (prev_status : option string) : M string :=
  match fuel with
  | O => starve
  | S fuel' =>
      response <- api_request "GET" ("generations/status/" +:+ py_str task_id) NoBody ;;
      match truthy response with
      | None => ret "FAILURE"
      | Some r =>
          let status := strip dquote (text r) in
          prev <- (if differs status prev_status
                   then print ("Status: " +:+ status) ;;; ret (Some status)
                   else ret prev_status) ;;
          if terminal status then ret status
          else sleep 5 ;;; poll_loop fuel' task_id prev
      end
  end.

Definition poll_status (task_id : json) : M string :=
  fun w => poll_loop (S (length (network w))) task_id None w.

(** [YoutubeDL(ydl_opts).extract_info(url, download=True)]: the audio is
    extracted to [outtmpl + ".mp3"]. *)
Definition extract_info (video outtmpl : string) : M json :=
  fun w =>
    match youtube h video with
    | Some (info, mp3) =>
        (Ret info, set_files (<[outtmpl +:+ ".mp3" := mp3]> (files w)) (log (Download video) w))
    | None => (Raise (Exn DownloadError ("ERROR: unable to download " +:+ video)), log (Download video) w)
    end.

Definition download_youtube_audio (video output_path : string) : M (string * json) :=
  print ("Downloading audio from " +:+ video +:+ "...") ;;;
  info <- extract_info video output_path ;;
  title <- lift (dict_get info "title" (JStr "Unknown")) ;;
  ret (output_path +:+ ".mp3", title).

(** [AudioSegment.from_file(path)] *)
Definition from_file (path : string) : M AudioSegment :=
  data <- read_file path ;;
  match decode_audio h data with
  | Some seg => ret seg
  | None => raise (Exn CouldntDecodeError "Decoding failed. ffmpeg returned error code: 1")
  end.

(** [seg.export(path, format=..., bitrate=...)] *)
Definition export (seg : AudioSegment) (path format : string) (bitrate : option string) : M unit :=
  write_file path (encode_audio h format bitrate seg).

(** [os.path.getsize(path)] *)
Definition getsize (path : string) : M Z :=
  data <- read_file path ;;
  ret (Z.of_nat (length data)).

Definition create_concatenated_audio (song1_path song2_path output_path combined_output_path : string)
    (song_duration silence_duration : Z) (trim_from_end trim_to_start : pynum)
    : M (string * pynum * pynum) :=
  print "Creating concatenated audio file..." ;;;
  song1 <- from_file song1_path ;;
  song2 <- from_file song2_path ;;
  let song1_duration := Z.min (song_duration * 1000) (len song1) in
  let song2_duration := Z.min (song_duration * 1000) (len song2) in
  trim_from_end_ms <- lift (py_mul trim_from_end (PInt 1000)) ;;
  trim_to_start_ms <- lift (py_mul trim_to_start (PInt 1000)) ;;
  stop1 <- lift (py_sub (PInt song1_duration) trim_from_end_ms) ;;
  song1 <- lift (slice song1 None (Some stop1)) ;;
  song2 <- lift (slice song2 (Some trim_to_start_ms) (Some (PInt song2_duration))) ;;
  let silence := silent (silence_duration * 1000) in
  let combined := append (append song1 silence) song2 in
  export combined output_path "mp3" None ;;;
  export combined combined_output_path "mp3" None ;;;
  print ("Saved pre-inpainting version to: " +:+ abspath h combined_output_path) ;;;
  start_seconds <- lift (py_truediv (PInt (len song1)) (PInt 1000)) ;;
  silence_start <- lift (py_sub start_seconds (PFloat 0.1)) ;;
  end_seconds <- lift (py_truediv (PInt (len song1 + len silence)) (PInt 1000)) ;;
  silence_end <- lift (py_add end_seconds (PFloat 0.1)) ;;
  ret (output_path, silence_start, silence_end).

Definition encode_audio_base64 (file_path : string) : M string :=
  data <- read_file file_path ;;
  ret (b64encode data).

(** [os.path.getsize(path) / (1024 * 1024)] *)
Definition megabytes (path : string) : M pynum :=
  size <- getsize path ;;
  lift (py_truediv (PInt size) (PInt (1024 * 1024))).

(** The file-size check of [create_transition]: the path to upload, or
    [None] when the function gives up. *)
Definition reduce_if_large (audio_path : string) : M (option string) :=
  file_size_mb <- megabytes audio_path ;;
  if py_gt file_size_mb (PInt 35) then
    shown <- lift (format_2f file_size_mb) ;;
    print ("⚠️ File size (" +:+ shown +:+ " MB) may be too large. Attempting to reduce...") ;;;
    audio <- from_file audio_path ;;
    let audio := set_channels audio 1 in
    let temp_file := audio_path +:+ "_reduced.mp3" in
    export audio temp_file "mp3" (Some "128k") ;;;
    reduced_size_mb <- megabytes temp_file ;;
    shown_reduced <- lift (format_2f reduced_size_mb) ;;
    print ("Reduced file size to " +:+ shown_reduced +:+ " MB") ;;;
    if py_gt reduced_size_mb (PInt 35) then
      print "❌ Even after reduction, file size is too large" ;;;
      ret None
    else ret (Some temp_file)
  else ret (Some audio_path).

Definition create_transition (audio_path : string) (section_start section_end : pynum)
    : M (option string) :=
  shown_start <- lift (format_2f section_start) ;;
  shown_end <- lift (format_2f section_end) ;;
  print ("Creating transition between " +:+ shown_start +:+ "s and " +:+ shown_end +:+ "s...") ;;;
  upload <- reduce_if_large audio_path ;;
  match upload with
  | None => ret None
  | Some audio_path =>
      audio_base64 <- encode_audio_base64 audio_path ;;
      let payload := InpaintBody audio_base64 [(section_start, section_end)] EmptyString [] false in
      response <- api_request "POST" "generations/inpaint" payload ;;
      match truthy response with
      | None => ret None
      | Some r =>
          data <- response_json r ;;
          task_id <- lift (dict_get data "task_id" JNull) ;;
          print ("Inpainting started with task ID: " +:+ py_str task_id) ;;;
          status <- poll_status task_id ;;
          if String.eqb status "FAILURE" then
            error_response <- api_request "GET" ("generations/" +:+ py_str task_id) NoBody ;;
            match truthy error_response with
            | Some er =>
                error_data <- response_json er ;;
                error_message <- lift (dict_get error_data "error_message"
                                         (JStr "No detailed error message available")) ;;
                print ("❌ Inpainting failed: " +:+ py_str error_message)
            | None => print "❌ Inpainting failed and couldn't retrieve error details"
            end ;;;
            ret None
          else
            result <- api_request "GET" ("generations/" +:+ py_str task_id) NoBody ;;
            match truthy result with
            | None => ret None
            | Some res =>
                result_data <- response_json res ;;
                song_paths <- lift (getitem_key result_data "song_paths") ;;
                song_url <- lift (getitem_index song_paths 0) ;;
                let output_path := "transition_" +:+ py_str task_id +:+ ".ogg" in
                try_except
                  (download_response <- requests_get_value song_url [] ;;
                   raise_for_status (py_str song_url) download_response ;;;
                   write_file output_path (content download_response) ;;;
                   print (nl +:+ "✅ Transition saved to " +:+ abspath h output_path) ;;;
                   ret (Some output_path))
                  is_RequestException
                  (fun e => print (nl +:+ "❌ Download Error: " +:+ str_exn e) ;;; ret None)
            end
      end
  end.

(** [os.rename(src, dst)] *)
Definition rename (src dst : string) : M unit :=
  fun w =>
    match files w !! src with
    | Some data => (Ret tt, set_files (<[dst := data]> (delete src (files w))) w)
    | None => (Raise (Exn OSError ("No such file or directory: " +:+ squote src)), w)
    end.

Definition outside_tmpdir (entry : string * list byte) : Prop :=
  starts_with (tmpdir h +:+ "/") (fst entry) = false.

(** [with tempfile.TemporaryDirectory() as temp_dir]: the directory and what
    is in it are removed when the block is left, normally or not. *)
Definition with_TemporaryDirectory {A : Type} (block : string -> M A) : M A :=
  fun w =>
    match block (tmpdir h) w with
    | (Starved, w') => (Starved, w')
    | (r, w') => (r, set_files (filter outside_tmpdir (files w')) w')
    end.

Definition main (cmdline : option args) : M unit :=
  match cmdline with
  | None => raise (SystemExit 2)
  | Some a =>
      match nonempty API_KEY with
      | None =>
          print "⚠️  Please set your Sonauto API key in the .env file or environment variables"
      | Some _ =>
          with_TemporaryDirectory (fun temp_dir =>
            first <- download_youtube_audio (url1 a) (temp_dir +:+ "/" +:+ "song1") ;;
            second <- download_youtube_audio (url2 a) (temp_dir +:+ "/" +:+ "song2") ;;
            let song1_path := fst first in
            let song1_title := snd first in
            let song2_path := fst second in
            let song2_title := snd second in
            print ("Downloaded: " +:+ py_str song1_title +:+ " and " +:+ py_str song2_title) ;;;
            let timestamp := now h in
            let pre_inpaint := match nonempty (pre_inpaint_output a) with
                               | Some p => p
                               | None => "pre_inpaint_" +:+ string_of_Z timestamp +:+ ".mp3"
                               end in
            let concat_path := temp_dir +:+ "/" +:+ "concatenated.mp3" in
            made <- create_concatenated_audio song1_path song2_path concat_path pre_inpaint
                      (song_duration a) (silence a) (trim_from_end a) (trim_to_start a) ;;
            let concat_path := fst (fst made) in
            let silence_start := snd (fst made) in
            let silence_end := snd made in
            transition_path <- create_transition concat_path silence_start silence_end ;;
            transition_path <-
              match nonempty transition_path, nonempty (output a) with
              | Some tp, Some out =>
                  try_except
                    (rename tp out ;;;
                     print ("Renamed output file to: " +:+ out) ;;;
                     ret (Some out))
                    is_Exception
                    (fun e => print ("Failed to rename output file: " +:+ str_exn e) ;;;
                              ret (Some tp))
              | _, _ => ret transition_path
              end ;;
            match nonempty transition_path with
            | Some tp =>
                print (nl +:+ "🎵 Transition Summary:") ;;;
                print ("- From: '" +:+ py_str song1_title +:+ "'") ;;;
                print ("- To: '" +:+ py_str song2_title +:+ "'") ;;;
                print ("- Pre-inpainting version: " +:+ abspath h pre_inpaint) ;;;
                print ("- Final result: " +:+ abspath h tp)
            | None => ret tt
            end)
      end
  end.

End Script.
End Transition.

(** ** Vocabulary of the properties *)

(** *** Worlds and traces *)

(** A world that starts with the given script. *)
Definition world_of (net : list exchange) (fs : gmap string (list byte)) : world :=
  {| network := net; files := fs; trace := [] |}.

(** The world after a step that consumed the script down to [net] and added
    the events [es]; the files are as they were. *)
Definition extend (es : list event) (net : list exchange) (w : world) : world :=
  {| network := net; files := files w; trace := trace w ++ es |}.

(** The lines a trace prints, the requests it issues and its sleeps. *)
Definition printed (tr : list event) : list string :=
  flat_map (fun e => match e with Print l => [l] | _ => [] end) tr.

Definition requested (tr : list event) : list request :=
  flat_map (fun e => match e with Http rq _ => [rq] | _ => [] end) tr.

Definition slept (tr : list event) : list Z :=
  flat_map (fun e => match e with Sleep n => [n] | _ => [] end) tr.

(** The printed lines that start with [label]. *)
Definition status_lines (label : string) (tr : list event) : list string :=
  List.filter (starts_with label) (printed tr).

(** *** Requests and what a failed exchange prints *)

(** The request [api_request] sends. *)
Definition sonauto_request (key meth endpoint : string) (b : payload) : request :=
  {| method := meth; url := "https://api.sonauto.ai/v1" +:+ "/" +:+ endpoint;
     headers := bearer key; body := b |}.

(** The key the transition script puts in its [Authorization] header:
    [f"Bearer {API_KEY}"]. *)
Definition transition_key (h : host) : string :=
  match Transition.API_KEY h with Some k => k | None => "None" end.

(** The request [poll_status] sends. *)
Definition status_request (key : string) (task_id : json) : request :=
  sonauto_request key "GET" ("generations/status/" +:+ py_str task_id) NoBody.

(** The direct download of an artifact: [requests.get(url)]. *)
Definition download_request (u : string) : request :=
  {| method := "GET"; url := u; headers := []; body := NoBody |}.

(** The status request of [generate_custom_song], what one poll of its loop
    adds to the trace, and the branch it takes on ["FAILURE"]. *)
Definition song_status_request (hdrs : list (string * string)) (task_id : json) : request :=
  {| method := "GET";
     url := Telegram.SONAUTO_BASE_URL +:+ "/generations/status/" +:+ py_str task_id;
     headers := hdrs; body := NoBody |}.

Definition song_error_request (hdrs : list (string * string)) (task_id : json) : request :=
  {| method := "GET";
     url := Telegram.SONAUTO_BASE_URL +:+ "/generations/" +:+ py_str task_id;
     headers := hdrs; body := NoBody |}.

Definition video_status_request (h : host) (job_id : json) : request :=
  {| method := "GET";
     url := Telegram.LEMON_SLICE_BASE_URL +:+ "/generations/" +:+ py_str job_id;
     headers := [("authorization", "Bearer " +:+ Telegram.LEMON_SLICE_API_KEY h)];
     body := NoBody |}.

(** A poll that yields no response to look at: the request is refused, or
    the answer is an HTTP error. *)
Definition transport_failure (x : exchange) : Prop :=
  match x with
  | Refused _ => True
  | Answered r => ok r = false
  end.

(** [str(e)] for the exception a failed exchange raises in [api_request]. *)
Definition failure_message (u : string) (x : exchange) : string :=
  match x with
  | Refused msg => msg
  | Answered r => match http_error_msg u r with Some msg => msg | None => EmptyString end
  end.

(** What [api_request] prints for a failed exchange, in the rock script and
    in the transition script. *)
Definition rock_report (u : string) (x : exchange) : list event :=
  [Print (nl +:+ "❌ API Error: " +:+ failure_message u x)].

Definition transition_report (u : string) (x : exchange) : list event :=
  Print (nl +:+ "❌ API Error: " +:+ failure_message u x) ::
  match x with
  | Refused _ => []
  | Answered r =>
      [Print ("Response status: " +:+ string_of_Z (status_code r));
       Print ("Response content: " +:+
              match json_body r with Some v => py_str v | None => text r end)]
  end.

(** *** Polling *)

(** The status a poll reads from a response. *)
Definition status_of (r : Response) : string := strip dquote (text r).

(** What one poll adds to the trace when the answer is usable. *)
Definition poll_events (rq : request) (r : Response) (prev : option string) : list event :=
  Http rq (Answered r) ::
  (if differs (status_of r) prev then [Print ("Status: " +:+ status_of r)] else []).

Definition song_poll_events (rq : request) (r : Response) (prev : option string) : list event :=
  Http rq (Answered r) ::
  (if differs (status_of r) prev then [Print ("Song status: " +:+ status_of r)] else []).

Definition song_failure (hdrs : list (string * string)) (task_id : json) : M bool :=
  bind (requests_request
          {| method := "GET";
             url := Telegram.SONAUTO_BASE_URL +:+ "/generations/" +:+ py_str task_id;
             headers := hdrs; body := NoBody |})
    (fun error_resp =>
       bind (response_json error_resp)
         (fun error_data =>
            bind (lift (dict_get error_data "error_message" (JStr "Unknown error")))
              (fun error_message =>
                 bind (print ("❌ Song generation failed: " +:+ py_str error_message))
                   (fun _ => ret false)))).

(** The status the loop of [create_singing_video] reads from an answer:
    [data.get("status")], when the body is a JSON object. *)
Definition video_status (r : Response) : option json :=
  match json_body r with
  | Some d =>
      match dict_get d "status" JNull with
      | inr st => Some st
      | inl _ => None
      end
  | None => None
  end.

(** The statuses [poll_status] reads from a script before it returns: those
    of the leading usable answers, up to the first terminal one. *)
Fixpoint observed (net : list exchange) : list string :=
  match net with
  | Answered r :: net' =>
      if ok r then
        if terminal (status_of r) then [status_of r] else status_of r :: observed net'
      else []
  | _ => []
  end.

(** The statuses the loop of [generate_custom_song] reads: it looks at every
    answer, whatever its HTTP status. *)
Fixpoint song_observed (net : list exchange) : list string :=
  match net with
  | Answered r :: net' =>
      if terminal (status_of r) then [status_of r] else status_of r :: song_observed net'
  | _ => []
  end.

(** Run-length encoding: the maximal runs of equal consecutive values. *)
Fixpoint runs (l : list string) : list (string * nat) :=
  match l with
  | [] => []
  | x :: l' =>
      match runs l' with
      | (y, n) :: rs => if String.eqb x y then (x, S n) :: rs else (x, 1%nat) :: (y, n) :: rs
      | [] => [(x, 1%nat)]
      end
  end.

(** The values of a sequence that differ from their predecessor, [prev]
    being what came before the first. *)
Fixpoint changes (prev : option string) (l : list string) : list string :=
  match l with
  | [] => []
  | s :: l' => (if differs s prev then [s] else []) ++ changes (Some s) l'
  end.

(** [poll] goes on polling through the answers [rs]: with these alone it
    has read every one of them, slept after each, and is still waiting. *)
Definition keeps_polling {A : Type} (poll : M A) (rs : list Response) : Prop :=
  forall w, network w = map Answered rs ->
    exists w', poll w = (Starved, w') /\ network w' = []
               /\ slept (trace w') = slept (trace w) ++ repeat 5 (length rs).

(** After the answers [rs], [poll] returns [a] on reading [r], and leaves
    the rest of the script untouched. *)
Definition exits_with {A : Type} (poll : M A) (rs : list Response) (r : Response) (a : A) : Prop :=
  forall w rest, network w = map Answered rs ++ Answered r :: rest ->
    exists w', poll w = (Ret a, w') /\ network w' = rest.

(** After the answers [rs], on reading [r], [poll] makes one more exchange
    and is done: it does not poll again. *)
Definition exits_after {A : Type} (poll : M A) (rs : list Response) (r : Response) : Prop :=
  forall w x rest, network w = map Answered rs ++ Answered r :: x :: rest ->
    exists o w', poll w = (o, w') /\ o <> Starved /\ network w' = rest
                 /\ slept (trace w') = slept (trace w) ++ repeat 5 (length rs).

(** An answer of the Lemon Slice status endpoint. *)
Definition video_reply (status : string) : Response :=
  {| status_code := 200; reason := "OK"; text := EmptyString; content := [];
     json_body := Some (JObj [("status", JStr status)]) |}.

(** The reading of a polling loop that waits for the strings [terminals]
    only: on statuses none of which is one of them, it is still polling. *)
Definition video_loop_waits_for (terminals : list string) : Prop :=
  forall (h : host) (job_id : json) (statuses : list string),
    Forall (fun s => ~ In s terminals) statuses ->
    fst (Telegram.video_poll h job_id
           (world_of (map (fun s => Answered (video_reply s)) statuses) ∅)) = Starved.

(** *** Artifacts and diagnostics *)

(** In the world [w'] the file [path] holds what was fetched from the first
    URL of the result's [song_paths]: the last two exchanges of the trace
    are the fetch of a result document [res] and the download [d] from
    [res.json()["song_paths"][0]], and [path] holds the bytes of [d]. *)
Definition saved_from_first_url (w' : world) (path : string) : Prop :=
  exists (res d : Response) (rd song_paths : json) (u : string) (rq : request)
         (pre mid post : list event),
    trace w' = pre ++ Http rq (Answered res) :: mid ++ Http (download_request u) (Answered d) :: post
    /\ requested mid = [] /\ requested post = []
    /\ json_body res = Some rd
    /\ getitem_key rd "song_paths" = inr song_paths
    /\ getitem_index song_paths 0 = inr (JStr u)
    /\ files w' !! path = Some (content d).

(** The placeholders the scripts print for a missing [error_message]. *)
Definition rock_placeholder : string := "No detailed error message available".
Definition telegram_placeholder : string := "Unknown error".

(** The world of the rock script once the job is submitted and announced. *)
Definition rock_submitted (h : host) (submit : Response) (task_id : json)
    (net : list exchange) (w : world) : world :=
  extend [Http (sonauto_request (Rock.API_KEY h) "POST" "generations"
                  (GenerationBody "An upbeat rock song about how awesome programming is" 1))
               (Answered submit);
          Print ("Generation started with task ID: " +:+ py_str task_id)] net w.

Definition sonauto_key_diagnostic : string :=
  "⚠️  Please set your Sonauto API key in the .env file or environment variables".

Definition lemon_slice_key_diagnostic : string :=
  "⚠️  Please set your Lemon Slice API key in the .env file or environment variables".

(** A key the check of a script takes for missing: unset, or equal to the
    placeholder the script falls back on. *)
Definition unset_or (placeholder : string) (value : option string) : Prop :=
  value = None \/ value = Some placeholder.

(** *** The inpainting window *)

(** [ms / 1000] as Python computes it: the binary64 nearest to the quotient. *)
Definition seconds (ms : Z) : float :=
  SF2Prim (SFdiv prec emax (sf_of_Z ms) (sf_of_Z 1000)).

(** The equation of C10 as a test on the returned boundaries:
    [silence_end - silence_start == silence_duration + 0.2]. *)
Definition window_matches (silence_duration : Z) (silence_start silence_end : pynum) : bool :=
  match py_sub silence_end silence_start, py_add (PInt silence_duration) (PFloat 0.2) with
  | inr width, inr expected => py_eq width expected
  | _, _ => false
  end.

(** ** Sample data for concrete runs *)

Definition reply (code : Z) (txt : string) (doc : option json) (bytes : list byte) : Response :=
  {| status_code := code; reason := "OK"; text := txt; content := bytes; json_body := doc |}.

(** The status endpoint answers with a bare JSON string, quotes included. *)
Definition status_reply (status : string) : Response :=
  reply 200 (String dquote (status +:+ String dquote EmptyString)) None [].

(** A codec with one byte per second of audio when decoding. *)
Definition sample_host : host :=
  {| environ := {[ "SONAUTO_API_KEY" := "sk-test"; "LEMON_SLICE_API_KEY" := "ls-test" ]};
     cwd := "/home/user";
     tmpdir := "/tmp/tmpab12";
     now := 1700000000;
     youtube := fun video =>
       Some (JObj [("title", JStr video)], repeat "001"%byte 3);
     decode_audio := fun bytes =>
       Some {| channels := 2;
               frames := flat_map (fun b => repeat (Z.of_N (Byte.to_N b)) 1000) bytes |};
     encode_audio := fun _ _ seg => map (fun _ => "000"%byte) (frames seg) |}.

(** The same machine with no API key in the environment. *)
Definition keyless_host : host :=
  {| environ := ∅;
     cwd := cwd sample_host; tmpdir := tmpdir sample_host; now := now sample_host;
     youtube := youtube sample_host;
     decode_audio := decode_audio sample_host;
     encode_audio := encode_audio sample_host |}.

(** The same machine with the Sonauto key set to the other scripts'
    placeholder text. *)
Definition placeholder_host : host :=
  {| environ := {[ "SONAUTO_API_KEY" := "your_sonauto_api_key" ]};
     cwd := cwd sample_host; tmpdir := tmpdir sample_host; now := now sample_host;
     youtube := youtube sample_host;
     decode_audio := decode_audio sample_host;
     encode_audio := encode_audio sample_host |}.

Definition sample_songs : Transition.args :=
  {| Transition.url1 := "ec1LhrCmzwI"; Transition.url2 := "dQw4w9WgXcQ";
     Transition.song_duration := 45; Transition.silence := 5;
     Transition.trim_from_end := PInt 0; Transition.trim_to_start := PInt 0;
     Transition.output := None; Transition.pre_inpaint_output := None |}.

Definition sample_telegram : Telegram.args :=
  {| Telegram.recipient := "Sarah"; Telegram.occasion := "birthday";
     Telegram.message := "she is turning 30 and loves hiking"; Telegram.style := "pop" |}.

(** Two songs of 60 s and 50 s on disk, for [sample_host]'s codec. *)
Definition two_songs : world :=
  {| network := [];
     files := {[ "song1.mp3" := repeat "001"%byte 60;
                 "song2.mp3" := repeat "002"%byte 50 ]};
     trace := [] |}.

(** The scenarios of the spec: a job that succeeds after two polls, and one
    that fails with no error message in the result. *)
Definition success_run : world :=
  world_of
    [Answered (reply 200 EmptyString (Some (JObj [("task_id", JStr "T1")])) []);
     Answered (status_reply "PENDING");
     Answered (status_reply "PENDING");
     Answered (status_reply "SUCCESS");
     Answered (reply 200 EmptyString
                 (Some (JObj [("song_paths", JArr [JStr "http://x/a.ogg"]);
                              ("lyrics", JStr "la la"); ("seed", JInt 42);
                              ("tags", JArr [JStr "rock"])])) []);
     Answered (reply 200 EmptyString None ["079"%byte; "103"%byte; "103"%byte; "083"%byte])]
    ∅.

Definition submitted_T1 : Response :=
  reply 200 EmptyString (Some (JObj [("task_id", JStr "T1")])) [].

Definition detail_without_message : Response :=
  reply 200 EmptyString (Some (JObj [("id", JStr "T1")])) [].

Definition failure_run : world :=
  world_of
    [Answered submitted_T1;
     Answered (status_reply "PENDING");
     Answered (status_reply "FAILURE");
     Answered detail_without_message]
    ∅.

(** ** Vocabulary of whole runs *)

(** Whatever the outcome, the computation only adds events to the trace,
    and each event it adds satisfies [E]. *)
Definition emits {A : Type} (E : event -> Prop) (m : M A) : Prop :=
  forall w, exists new, trace (snd (m w)) = trace w ++ new /\ Forall E new.

(** An exception that escapes the computation satisfies [X]. *)
Definition raises_only {A : Type} (X : exn -> Prop) (m : M A) : Prop :=
  forall w e, fst (m w) = Raise e -> X e.

(** What [except Exception] catches. *)
Definition ordinary (e : exn) : Prop := is_Exception e = true.

(** No exception leaves the computation. *)
Definition never_raises {A : Type} (m : M A) : Prop := raises_only (fun _ => False) m.

(** The computation leaves the files as they were, whatever its outcome. *)
Definition keeps_files {A : Type} (m : M A) : Prop :=
  forall w, files (snd (m w)) = files w.

(** The computation leaves the files as they were, unless it returns the
    name of a file, which is then the one file it wrote. *)
Definition saves_on_success (m : M (option string)) : Prop :=
  forall w,
    files (snd (m w)) = files w
    \/ exists f data,
         f <> EmptyString /\ fst (m w) = Ret (Some f)
         /\ files (snd (m w)) = <[f := data]> (files w).

(** What [api_request] does with the one exchange it makes for the request
    [rq]: it returns the response when its status is no error; it returns
    [None] after reporting a refused exchange or an error status; it lets
    no exception out; and with no exchange left it is still waiting. *)
Definition answers_or_reports (rq : request) (w : world)
    (run : outcome (option Response) * world) : Prop :=
  files (snd run) = files w /\
  match fst run with
  | Ret (Some r) =>
      ok r = true /\ network w = Answered r :: network (snd run)
      /\ trace (snd run) = trace w ++ [Http rq (Answered r)]
  | Ret None =>
      exists x more,
        transport_failure x /\ network w = x :: network (snd run)
        /\ trace (snd run)
           = trace w ++ Http rq x
               :: Print (nl +:+ "❌ API Error: " +:+ failure_message (url rq) x) :: map Print more
  | Raise _ => False
  | Starved => network w = [] /\ snd run = w
  end.

(** The computation changes no file but those whose name satisfies [P]. *)
Definition touches_only {A : Type} (P : string -> Prop) (m : M A) : Prop :=
  forall w path, ~ P path -> files (snd (m w)) !! path = files w !! path.

(** What the computation returns, when it returns, satisfies [Q]. *)
Definition returns_only {A : Type} (Q : A -> Prop) (m : M A) : Prop :=
  forall w a w', m w = (Ret a, w') -> Q a.

(** The names of the files each script may write. *)
Definition rock_file (path : string) : Prop :=
  exists task, path = "rock_song_" +:+ task +:+ ".ogg".

Definition telegram_file (path : string) : Prop :=
  exists task, path = "telegram_song_" +:+ task +:+ ".ogg"
               \/ path = "telegram_video_" +:+ task +:+ ".mp4".

Definition transition_file (path : string) : Prop :=
  exists task, path = "transition_" +:+ task +:+ ".ogg".

(** What [create_transition] returns: nothing, or the name of a transition. *)
Definition named_transition (o : option string) : Prop :=
  match o with
  | Some path => transition_file path
  | None => True
  end.

(** The pre-inpainting copy of the transition script: [--pre-inpaint-output],
    or a name made from the time. *)
Definition pre_inpaint_path (h : host) (a : Transition.args) : string :=
  match nonempty (Transition.pre_inpaint_output a) with
  | Some p => p
  | None => "pre_inpaint_" +:+ string_of_Z (now h) +:+ ".mp3"
  end.

Definition transition_files (h : host) (a : Transition.args) (path : string) : Prop :=
  starts_with (tmpdir h +:+ "/") path = true
  \/ path = pre_inpaint_path h a
  \/ transition_file path
  \/ nonempty (Transition.output a) = Some path.

(** An exception that is no transport failure: no [HTTPError], and of the
    other exceptions of [requests] only the one for a body that is no JSON. *)
Definition no_transport_error (e : exn) : Prop :=
  match e with
  | HTTPError _ _ => False
  | Exn RequestException msg => msg = "Expecting value: line 1 column 1 (char 0)"
  | _ => True
  end.

(** What [except requests.exceptions.RequestException] catches. *)
Definition transport (e : exn) : Prop := is_RequestException e = true.

(** *** The upload limit of [create_transition] *)

(** A file of at most 35 MB, as [create_transition] measures it:
    [os.path.getsize(path) / (1024 * 1024) > 35] is false. *)
Definition within_upload_limit (data : list byte) : Prop :=
  exists mb, py_truediv (PInt (Z.of_nat (length data))) (PInt (1024 * 1024)) = inr mb
             /\ py_gt mb (PInt 35) = false.

(** The order [create_transition] places: the audio of a file within the
    limit, one section to inpaint, no lyrics, no tags, no crop. *)
Definition inpaint_order (key : string) (section_start section_end : pynum) (rq : request) : Prop :=
  exists data,
    within_upload_limit data
    /\ rq = sonauto_request key "POST" "generations/inpaint"
              (InpaintBody (b64encode data) [(section_start, section_end)] EmptyString [] false).

(** Every request is that order or has no body. *)
Definition orders_within_limit (key : string) (section_start section_end : pynum)
    (e : event) : Prop :=
  match e with
  | Http rq _ => body rq = NoBody \/ inpaint_order key section_start section_end rq
  | _ => True
  end.

(** *** The order for the video *)

(** The one request with a body that [create_singing_video] sends: the
    video order, with the audio at the URL of the song. *)
Definition orders_video_of (song : Telegram.song_data) (e : event) : Prop :=
  match e with
  | Http rq _ =>
      body rq = NoBody
      \/ (method rq = "POST"
          /\ url rq = "https://lemonslice.com/api/v2/generate"
          /\ body rq = VideoBody "320" false 1 Telegram.sophia (Telegram.song_url song) true)
  | _ => True
  end.

(** Every request is without a body or orders the inpainting of a silence
    of [silence_duration] seconds that starts [L] milliseconds into the
    audio, with 0.1 s of padding on each side. *)
Definition orders_padded_silence (key : string) (silence_duration : Z) (e : event) : Prop :=
  match e with
  | Http rq _ =>
      body rq = NoBody
      \/ exists L, 0 <= L
                   /\ inpaint_order key
                        (PFloat (seconds L - 0.1))
                        (PFloat (seconds (L + Z.max 0 (silence_duration * 1000)) + 0.1)) rq
  | _ => True
  end.

(** *** Where the keys travel *)

(** A request with the Sonauto key in its headers, to the Sonauto API. *)
Definition to_sonauto (key : string) (rq : request) : Prop :=
  headers rq = bearer key /\ starts_with "https://api.sonauto.ai/v1/" (url rq) = true.

(** A request to the Lemon Slice API whose headers hold nothing but that
    service's key and content types. *)
Definition to_lemon_slice (key : string) (rq : request) : Prop :=
  starts_with "https://lemonslice.com/api/v2/" (url rq) = true
  /\ Forall (fun kv => snd kv = "Bearer " +:+ key \/ snd kv = "application/json") (headers rq).

(** A request with no header at all, as the downloads from the CDN are. *)
Definition anonymous (rq : request) : Prop := headers rq = [].

(** Every request is anonymous or goes, with its key, to one of [services]. *)
Definition keys_confined (services : list (request -> Prop)) (e : event) : Prop :=
  match e with
  | Http rq _ => anonymous rq \/ Exists (fun service => service rq) services
  | _ => True
  end.

(** The two services of the telegram script, each with its own key. *)
Definition telegram_services (h : host) : list (request -> Prop) :=
  [to_sonauto (Telegram.SONAUTO_API_KEY h); to_lemon_slice (Telegram.LEMON_SLICE_API_KEY h)].

(** Events that are no request. *)
Definition offline (e : event) : Prop :=
  match e with
  | Http _ _ => False
  | _ => True
  end.

(** ** Sample data for the runs of the whole-run properties *)

Definition song_document : Response :=
  reply 200 EmptyString
    (Some (JObj [("song_paths", JArr [JStr "http://x/a.ogg"]); ("lyrics", JStr "la la")])) [].

(** A telegram song whose download is refused once the job has succeeded. *)
Definition refused_download_run : world :=
  world_of
    [Answered submitted_T1;
     Answered (status_reply "PENDING");
     Answered (status_reply "SUCCESS");
     Answered song_document;
     Refused "Connection aborted."]
    ∅.

Definition sample_song : Telegram.song_data :=
  {| Telegram.song_url := JStr "http://x/a.ogg";
     Telegram.song_local_path := "telegram_song_T1.ogg";
     Telegram.lyrics := JStr "la la";
     Telegram.task_id := JStr "T1" |}.

(** A video job that completes after one pending answer. *)
Definition video_run : world :=
  world_of
    [Answered (reply 200 EmptyString (Some (JObj [("job_id", JStr "J1")])) []);
     Answered (video_reply "pending");
     Answered (reply 200 EmptyString
                 (Some (JObj [("status", JStr "completed");
                              ("video_url", JStr "http://x/v.mp4")])) []);
     Answered (reply 200 EmptyString None ["000"%byte; "000"%byte; "001"%byte])]
    {[ "telegram_song_T1.ogg" := ["079"%byte] ]}.

(** * Properties *)

(** ** The monad *)

Lemma bind_Ret {A B : Type} (m : M A) (k : A -> M B) (w w1 : world) (a : A) :
  m w = (Ret a, w1) -> bind m k w = k a w1.
Proof. intros H. unfold bind. rewrite H. reflexivity. Qed.

Lemma bind_Raise {A B : Type} (m : M A) (k : A -> M B) (w w1 : world) (e : exn) :
  m w = (Raise e, w1) -> bind m k w = (Raise e, w1).
Proof. intros H. unfold bind. rewrite H. reflexivity. Qed.

Lemma bind_Starved {A B : Type} (m : M A) (k : A -> M B) (w w1 : world) :
  m w = (Starved, w1) -> bind m k w = (Starved, w1).
Proof. intros H. unfold bind. rewrite H. reflexivity. Qed.

Lemma bind_Ret_inv {A B : Type} (m : M A) (k : A -> M B) (w w' : world) (b : B) :
  bind m k w = (Ret b, w') -> exists a w1, m w = (Ret a, w1) /\ k a w1 = (Ret b, w').
Proof.
  unfold bind. destruct (m w) as [[a | e |] w1]; intros H; try discriminate.
  exists a, w1. split; [reflexivity | exact H].
Qed.

Lemma try_except_Ret {A : Type} (m : M A) c (hd : exn -> M A) (w w1 : world) (a : A) :
  m w = (Ret a, w1) -> try_except m c hd w = (Ret a, w1).
Proof. intros H. unfold try_except. rewrite H. reflexivity. Qed.

Lemma try_except_Starved {A : Type} (m : M A) c (hd : exn -> M A) (w w1 : world) :
  m w = (Starved, w1) -> try_except m c hd w = (Starved, w1).
Proof. intros H. unfold try_except. rewrite H. reflexivity. Qed.

Lemma try_except_caught {A : Type} (m : M A) c (hd : exn -> M A) (w w1 : world) (e : exn) :
  m w = (Raise e, w1) -> c e = true -> try_except m c hd w = hd e w1.
Proof. intros H Hc. unfold try_except. rewrite H, Hc. reflexivity. Qed.

(** ** HTTP primitives *)

Lemma ok_http_error_msg (u : string) (r : Response) :
  ok r = true -> http_error_msg u r = None.
Proof.
  unfold ok, http_error_msg. intros H.
  destruct (400 <=? status_code r) eqn:E1; destruct (status_code r <? 600) eqn:E2;
    destruct (status_code r <? 500) eqn:E3; destruct (500 <=? status_code r) eqn:E4;
    simpl in *; try discriminate; try reflexivity; lia.
Qed.

Lemma not_ok_http_error_msg (u : string) (r : Response) :
  ok r = false -> exists msg, http_error_msg u r = Some msg.
Proof.
  unfold ok, http_error_msg. intros H.
  destruct (400 <=? status_code r) eqn:E1; destruct (status_code r <? 600) eqn:E2;
    destruct (status_code r <? 500) eqn:E3; destruct (500 <=? status_code r) eqn:E4;
    simpl in *; try discriminate; try (eexists; reflexivity); lia.
Qed.

Lemma ok_raise_for_status (u : string) (r : Response) (w : world) :
  ok r = true -> raise_for_status u r w = (Ret tt, w).
Proof. intros H. unfold raise_for_status. rewrite ok_http_error_msg by exact H. reflexivity. Qed.

Lemma truthy_ok (r : Response) : ok r = true -> truthy (Some r) = Some r.
Proof. intros H. unfold truthy. rewrite H. reflexivity. Qed.

Lemma truthy_Some (o : option Response) (r : Response) :
  truthy o = Some r -> o = Some r /\ ok r = true.
Proof.
  destruct o as [r' |]; simpl; [| discriminate].
  destruct (ok r') eqn:E; [| discriminate]. intros [= ->]. auto.
Qed.

Lemma terminal_cases (s : string) :
  terminal s = true -> s = "SUCCESS" \/ s = "FAILURE".
Proof.
  unfold terminal. intros H. apply orb_true_iff in H.
  destruct H as [H | H]; apply String.eqb_eq in H; auto.
Qed.

Lemma extend_extend es1 es2 net1 net2 w :
  extend es2 net2 (extend es1 net1 w) = extend (es1 ++ es2) net2 w.
Proof. unfold extend. cbn. rewrite <- app_assoc. reflexivity. Qed.

Lemma rock_api_request_eq h m e b w :
  Rock.api_request h m e b w =
  match network w with
  | [] => (Starved, w)
  | x :: net =>
      let rq := sonauto_request (Rock.API_KEY h) m e b in
      match x with
      | Answered r =>
          if ok r then (Ret (Some r), extend [Http rq x] net w)
          else (Ret None, extend (Http rq x :: rock_report (url rq) x) net w)
      | Refused _ => (Ret None, extend (Http rq x :: rock_report (url rq) x) net w)
      end
  end.
Proof.
  unfold Rock.api_request, try_except, bind, requests_request.
  destruct (network w) as [| [msg | r] net]; [reflexivity | |].
  - cbn. unfold extend, log, set_network. cbn. rewrite <- app_assoc. reflexivity.
  - destruct (ok r) eqn:Hok.
    + rewrite ok_raise_for_status by exact Hok. reflexivity.
    + destruct (not_ok_http_error_msg ("https://api.sonauto.ai/v1" +:+ "/" +:+ e) r Hok) as [msg Hm].
      unfold raise_for_status, rock_report, failure_message. cbn [url sonauto_request].
      rewrite Hm. cbn. unfold extend, log, set_network. cbn. rewrite <- app_assoc. reflexivity.
Qed.

Lemma transition_api_request_eq h m e b w :
  Transition.api_request h m e b w =
  match network w with
  | [] => (Starved, w)
  | x :: net =>
      let rq := sonauto_request (transition_key h) m e b in
      match x with
      | Answered r =>
          if ok r then (Ret (Some r), extend [Http rq x] net w)
          else (Ret None, extend (Http rq x :: transition_report (url rq) x) net w)
      | Refused _ => (Ret None, extend (Http rq x :: transition_report (url rq) x) net w)
      end
  end.
Proof.
  unfold Transition.api_request, try_except, bind, requests_request.
  destruct (network w) as [| [msg | r] net]; [reflexivity | |].
  - cbn. unfold extend, log, set_network. cbn. rewrite <- app_assoc. reflexivity.
  - destruct (ok r) eqn:Hok.
    + rewrite ok_raise_for_status by exact Hok. reflexivity.
    + destruct (not_ok_http_error_msg ("https://api.sonauto.ai/v1" +:+ "/" +:+ e) r Hok) as [msg Hm].
      unfold raise_for_status, transition_report, failure_message. cbn [url sonauto_request].
      rewrite Hm. cbn. unfold extend, print, ret, log, set_network.
      destruct (json_body r); cbn; rewrite <- !app_assoc; reflexivity.
Qed.

Lemma differs_prev s prev :
  (if differs s prev then Some s else prev) = Some s.
Proof.
  destruct prev as [p |]; simpl; [| reflexivity].
  destruct (String.eqb s p) eqn:E; simpl; [| reflexivity].
  apply String.eqb_eq in E. subst. reflexivity.
Qed.

Lemma rock_poll_loop_eq h fuel t prev w :
  Rock.poll_loop h (S fuel) t prev w =
  let rq := status_request (Rock.API_KEY h) t in
  match network w with
  | [] => (Starved, w)
  | Answered r :: net =>
      if ok r then
        if terminal (status_of r) then (Ret (status_of r), extend (poll_events rq r prev) net w)
        else Rock.poll_loop h fuel t (Some (status_of r))
               (extend (poll_events rq r prev ++ [Sleep 5]) net w)
      else (Ret "FAILURE", extend (Http rq (Answered r) :: rock_report (url rq) (Answered r)) net w)
  | Refused msg :: net =>
      (Ret "FAILURE", extend (Http rq (Refused msg) :: rock_report (url rq) (Refused msg)) net w)
  end.
Proof.
  cbn [Rock.poll_loop]. unfold bind at 1. rewrite rock_api_request_eq.
  destruct (network w) as [| [msg | r] net]; [reflexivity | reflexivity |].
  cbn zeta. destruct (ok r) eqn:Hok; [| reflexivity].
  rewrite truthy_ok by exact Hok. fold (status_of r).
  unfold poll_events, status_request.
  destruct (differs (status_of r) prev) eqn:Hd.
  - unfold bind, print, sleep, ret. cbn.
    destruct (terminal (status_of r)).
    + unfold extend, log. cbn. rewrite <- !app_assoc. reflexivity.
    + unfold extend, log. cbn. rewrite <- !app_assoc. reflexivity.
  - assert (prev = Some (status_of r)) as ->.
    { pose proof (differs_prev (status_of r) prev) as H. rewrite Hd in H. exact H. }
    unfold bind, print, sleep, ret. cbn.
    destruct (terminal (status_of r)).
    + unfold extend, log. cbn. rewrite <- ?app_assoc. reflexivity.
    + unfold extend, log. cbn. rewrite <- ?app_assoc. reflexivity.
Qed.

Lemma transition_poll_loop_eq h fuel t prev w :
  Transition.poll_loop h (S fuel) t prev w =
  let rq := status_request (transition_key h) t in
  match network w with
  | [] => (Starved, w)
  | Answered r :: net =>
      if ok r then
        if terminal (status_of r) then (Ret (status_of r), extend (poll_events rq r prev) net w)
        else Transition.poll_loop h fuel t (Some (status_of r))
               (extend (poll_events rq r prev ++ [Sleep 5]) net w)
      else (Ret "FAILURE", extend (Http rq (Answered r) :: transition_report (url rq) (Answered r)) net w)
  | Refused msg :: net =>
      (Ret "FAILURE", extend (Http rq (Refused msg) :: transition_report (url rq) (Refused msg)) net w)
  end.
Proof.
  cbn [Transition.poll_loop]. unfold bind at 1. rewrite transition_api_request_eq.
  destruct (network w) as [| [msg | r] net]; [reflexivity | reflexivity |].
  cbn zeta. destruct (ok r) eqn:Hok; [| reflexivity].
  rewrite truthy_ok by exact Hok. fold (status_of r).
  unfold poll_events, status_request.
  destruct (differs (status_of r) prev) eqn:Hd.
  - unfold bind, print, sleep, ret. cbn.
    destruct (terminal (status_of r)); unfold extend, log; cbn; rewrite <- !app_assoc; reflexivity.
  - assert (prev = Some (status_of r)) as ->.
    { pose proof (differs_prev (status_of r) prev) as H. rewrite Hd in H. exact H. }
    unfold bind, print, sleep, ret. cbn.
    destruct (terminal (status_of r)); unfold extend, log; cbn; rewrite <- ?app_assoc; reflexivity.
Qed.

Lemma runs_cons (s : string) (l : list string) :
  exists n rs, runs (s :: l) = (s, n) :: rs.
Proof.
  cbn [runs]. destruct (runs l) as [| [y n] rs]; [eauto |].
  destruct (String.eqb s y); eauto.
Qed.

Lemma changes_tail (l : list string) :
  forall s, changes (Some s) l = tail (map fst (runs (s :: l))).
Proof.
  induction l as [| s' l' IH]; intros s; [reflexivity |].
  cbn [changes differs]. rewrite IH.
  destruct (runs_cons s' l') as (n & rs & E).
  change (runs (s :: s' :: l')) with
    (match runs (s' :: l') with
     | (y, n) :: rs => if String.eqb s y then (s, S n) :: rs else (s, 1%nat) :: (y, n) :: rs
     | [] => [(s, 1%nat)]
     end).
  rewrite E. rewrite (String.eqb_sym s' s).
  destruct (String.eqb s s'); reflexivity.
Qed.

Lemma changes_runs (l : list string) : changes None l = map fst (runs l).
Proof.
  destruct l as [| s l]; [reflexivity |].
  cbn [changes differs app]. rewrite changes_tail.
  destruct (runs_cons s l) as (n & rs & E). rewrite E. reflexivity.
Qed.

Lemma status_lines_app label (a b : list event) :
  status_lines label (a ++ b) = status_lines label a ++ status_lines label b.
Proof.
  unfold status_lines, printed. rewrite flat_map_app. apply List.filter_app.
Qed.

Section PollLoop.

Variable loop : nat -> option string -> M string.
Variable rq : request.
Variable report : exchange -> list event.

Hypothesis loop_O : forall prev w, loop O prev w = (Starved, w).
Hypothesis loop_S : forall fuel prev w,
  loop (S fuel) prev w =
  match network w with
  | [] => (Starved, w)
  | Answered r :: net =>
      if ok r then
        if terminal (status_of r) then (Ret (status_of r), extend (poll_events rq r prev) net w)
        else loop fuel (Some (status_of r)) (extend (poll_events rq r prev ++ [Sleep 5]) net w)
      else (Ret "FAILURE", extend (Http rq (Answered r) :: report (Answered r)) net w)
  | Refused msg :: net =>
      (Ret "FAILURE", extend (Http rq (Refused msg) :: report (Refused msg)) net w)
  end.

Lemma loop_fuel fuel prev w :
  (length (network w) < fuel)%nat ->
  loop fuel prev w = loop (S (length (network w))) prev w.
Proof.
  revert prev w. induction fuel as [| fuel IH]; intros prev w Hlt; [lia |].
  rewrite !loop_S. destruct (network w) as [| [msg | r] net] eqn:E; try reflexivity.
  destruct (ok r); [| reflexivity]. destruct (terminal (status_of r)); [reflexivity |].
  cbn [length] in Hlt. rewrite IH by (cbn; lia). reflexivity.
Qed.

(** The fuel never runs out first: the loop is left waiting only once the
    script is used up. *)
Lemma loop_starved fuel prev w :
  (length (network w) < fuel)%nat ->
  fst (loop fuel prev w) = Starved -> network (snd (loop fuel prev w)) = [].
Proof.
  revert prev w. induction fuel as [| fuel IH]; intros prev w Hlt; [lia |].
  rewrite loop_S. destruct (network w) as [| [msg | r] net] eqn:E; cbn [fst snd].
  - intros _. exact E.
  - discriminate.
  - destruct (ok r); [| discriminate].
    destruct (terminal (status_of r)); [discriminate |].
    apply IH. cbn [extend network]. cbn [length] in Hlt. lia.
Qed.

Lemma loop_outcome fuel prev w :
  fst (loop fuel prev w) = Ret "SUCCESS" \/ fst (loop fuel prev w) = Ret "FAILURE"
  \/ fst (loop fuel prev w) = Starved.
Proof.
  revert prev w. induction fuel as [| fuel IH]; intros prev w.
  - rewrite loop_O. auto.
  - rewrite loop_S. destruct (network w) as [| [msg | r] net]; cbn [fst]; auto.
    destruct (ok r); cbn [fst]; auto.
    destruct (terminal (status_of r)) eqn:T; [| apply IH].
    cbn [fst]. destruct (terminal_cases _ T) as [-> | ->]; auto.
Qed.

Lemma loop_pending (rs : list Response) :
  Forall (fun r => ok r = true /\ terminal (status_of r) = false) rs ->
  forall prev w net fuel,
    network w = map Answered rs ++ net ->
    exists prev' es,
      loop (length rs + fuel) prev w = loop fuel prev' (extend es net w)
      /\ slept es = repeat 5 (length rs)
      /\ length (requested es) = length rs.
Proof.
  induction 1 as [| r rs [Hok Ht] _ IH]; intros prev w net fuel Hnet.
  - exists prev, []. cbn in Hnet. subst net. unfold extend. rewrite app_nil_r.
    destruct w; cbn. auto.
  - cbn [length Nat.add]. rewrite loop_S, Hnet. cbn [map app]. rewrite Hok, Ht.
    destruct (IH (Some (status_of r)) (extend (poll_events rq r prev ++ [Sleep 5]) (map Answered rs ++ net) w)
                net fuel eq_refl) as (prev' & es & Heq & Hs & Hr).
    exists prev', ((poll_events rq r prev ++ [Sleep 5]) ++ es).
    rewrite Heq, extend_extend. split; [reflexivity |]. split.
    + unfold slept in *. rewrite !flat_map_app, Hs. unfold poll_events.
      destruct (differs (status_of r) prev); reflexivity.
    + unfold requested in *. rewrite !flat_map_app, !length_app, Hr. unfold poll_events.
      destruct (differs (status_of r) prev); reflexivity.
Qed.

Lemma loop_keeps_polling (rs : list Response) prev :
  Forall (fun r => ok r = true /\ terminal (status_of r) = false) rs ->
  keeps_polling (fun w => loop (S (length (network w))) prev w) rs.
Proof.
  intros Hrs w Hnet.
  destruct (loop_pending rs Hrs prev w [] 1%nat) as (prev' & es & Heq & Hs & _).
  { rewrite app_nil_r. exact Hnet. }
  rewrite Hnet, length_map. replace (S (length rs)) with (length rs + 1)%nat by lia.
  rewrite Heq, loop_S. cbn [extend network]. eexists. split; [reflexivity |].
  unfold extend; cbn [network trace]. split; [reflexivity |].
  unfold slept in *. rewrite flat_map_app, Hs. reflexivity.
Qed.

Lemma loop_exits (rs : list Response) (r : Response) prev :
  Forall (fun r => ok r = true /\ terminal (status_of r) = false) rs ->
  ok r = true -> terminal (status_of r) = true ->
  exits_with (fun w => loop (S (length (network w))) prev w) rs r (status_of r).
Proof.
  intros Hrs Hok Ht w rest Hnet.
  destruct (loop_pending rs Hrs prev w (Answered r :: rest) (S (S (length rest))) Hnet)
    as (prev' & es & Heq & _ & _).
  cbn beta.
  replace (S (length (network w))) with (length rs + S (S (length rest)))%nat
    by (rewrite Hnet, length_app, length_map; cbn [length]; lia).
  rewrite Heq, loop_S. cbn [extend network]. rewrite Hok, Ht.
  eexists. split; reflexivity.
Qed.

Lemma loop_transport_failure (rs : list Response) (x : exchange) prev :
  Forall (fun r => ok r = true /\ terminal (status_of r) = false) rs ->
  transport_failure x ->
  forall w rest, network w = map Answered rs ++ x :: rest ->
    exists pre,
      loop (S (length (network w))) prev w
      = (Ret "FAILURE",
         {| network := rest; files := files w; trace := pre ++ Http rq x :: report x |}).
Proof.
  intros Hrs Hx w rest Hnet.
  destruct (loop_pending rs Hrs prev w (x :: rest) (S (S (length rest))) Hnet)
    as (prev' & es & Heq & _ & _).
  cbn beta.
  replace (S (length (network w))) with (length rs + S (S (length rest)))%nat
    by (rewrite Hnet, length_app, length_map; cbn [length]; lia).
  rewrite Heq, loop_S. cbn [extend network].
  exists (trace w ++ es).
  destruct x as [msg | r]; cbn in Hx; [| rewrite Hx]; unfold extend; cbn [files trace]; reflexivity.
Qed.

Hypothesis report_quiet : forall x, status_lines "Status: " (report x) = [].

Lemma starts_with_status s : starts_with "Status: " ("Status: " +:+ s) = true.
Proof. cbn. destruct s; reflexivity. Qed.

Lemma status_lines_poll_events r prev :
  status_lines "Status: " (poll_events rq r prev)
  = map (fun s => "Status: " +:+ s) (if differs (status_of r) prev then [status_of r] else []).
Proof.
  unfold poll_events. destruct (differs (status_of r) prev); [| reflexivity].
  unfold status_lines. cbn [printed flat_map app List.filter]. rewrite starts_with_status. reflexivity.
Qed.

Lemma loop_status_lines fuel prev w :
  (length (network w) < fuel)%nat ->
  exists new,
    trace (snd (loop fuel prev w)) = trace w ++ new
    /\ status_lines "Status: " new
       = map (fun s => "Status: " +:+ s) (changes prev (observed (network w))).
Proof.
  revert prev w. induction fuel as [| fuel IH]; intros prev w Hlt; [lia |].
  rewrite loop_S. destruct (network w) as [| [msg | r] net] eqn:E.
  - exists []. rewrite app_nil_r. auto.
  - eexists. cbn [snd extend trace]. split; [reflexivity |].
    cbn [observed changes map]. change (Http rq (Refused msg) :: report (Refused msg))
      with ([Http rq (Refused msg)] ++ report (Refused msg)).
    rewrite status_lines_app, report_quiet. reflexivity.
  - cbn [observed]. destruct (ok r).
    + destruct (terminal (status_of r)).
      * eexists. cbn [snd extend trace]. split; [reflexivity |].
        rewrite status_lines_poll_events. cbn [changes]. rewrite app_nil_r. reflexivity.
      * destruct (IH (Some (status_of r)) (extend (poll_events rq r prev ++ [Sleep 5]) net w))
          as (new & Htr & Hl); [cbn in *; lia |].
        exists ((poll_events rq r prev ++ [Sleep 5]) ++ new).
        rewrite Htr. cbn [extend trace network] in *. rewrite <- app_assoc. split; [reflexivity |].
        rewrite !status_lines_app, Hl, status_lines_poll_events. cbn [changes].
        change (status_lines "Status: " [Sleep 5]) with (@nil string).
        rewrite app_nil_r, map_app. reflexivity.
    + eexists. cbn [snd extend trace]. split; [reflexivity |].
      cbn [changes map]. change (Http rq (Answered r) :: report (Answered r))
        with ([Http rq (Answered r)] ++ report (Answered r)).
      rewrite status_lines_app, report_quiet. reflexivity.
Qed.

(** The loop leaves the files alone, consumes a prefix of the script and
    only adds to the trace. *)
Lemma loop_frame fuel prev w :
  let w' := snd (loop fuel prev w) in
  files w' = files w
  /\ (exists used, network w = used ++ network w')
  /\ (exists new, trace w' = trace w ++ new).
Proof.
  revert prev w. induction fuel as [| fuel IH]; intros prev w; cbn zeta.
  - rewrite loop_O. cbn. split; [reflexivity |]. split; [exists [] | exists []]; cbn; auto using app_nil_r.
  - rewrite loop_S. destruct (network w) as [| x net] eqn:E.
    + cbn. rewrite E. split; [reflexivity |]. split; [exists [] | exists []]; cbn; auto using app_nil_r.
    + assert (Hdone : forall (o : outcome string) es,
                 let w' := snd (o, extend es net w) in
                 files w' = files w /\ (exists used, x :: net = used ++ network w')
                 /\ (exists new, trace w' = trace w ++ new)).
      { intros o es. cbn. split; [reflexivity |]. split; [exists [x]; reflexivity | eauto]. }
      destruct x as [msg | r]; [apply Hdone |].
      destruct (ok r); [| apply Hdone].
      destruct (terminal (status_of r)); [apply Hdone |].
      destruct (IH (Some (status_of r)) (extend (poll_events rq r prev ++ [Sleep 5]) net w))
        as (Hf & [used Hu] & [new Hn]).
      cbn [extend files network trace] in *. split; [exact Hf |]. split.
      * exists (Answered r :: used). cbn [app]. f_equal. exact Hu.
      * eexists. rewrite Hn, <- app_assoc. reflexivity.
Qed.

End PollLoop.

(** ** [poll_status] of the rock and the transition scripts *)

Lemma rock_report_quiet u x : status_lines "Status: " (rock_report u x) = [].
Proof. reflexivity. Qed.

Lemma transition_report_quiet u x : status_lines "Status: " (transition_report u x) = [].
Proof. destruct x; reflexivity. Qed.

Lemma rock_loop_S h t fuel prev w :
  Rock.poll_loop h (S fuel) t prev w =
  match network w with
  | [] => (Starved, w)
  | Answered r :: net =>
      if ok r then
        if terminal (status_of r)
        then (Ret (status_of r), extend (poll_events (status_request (Rock.API_KEY h) t) r prev) net w)
        else Rock.poll_loop h fuel t (Some (status_of r))
               (extend (poll_events (status_request (Rock.API_KEY h) t) r prev ++ [Sleep 5]) net w)
      else (Ret "FAILURE",
            extend (Http (status_request (Rock.API_KEY h) t) (Answered r)
                    :: rock_report (url (status_request (Rock.API_KEY h) t)) (Answered r)) net w)
  | Refused msg :: net =>
      (Ret "FAILURE",
       extend (Http (status_request (Rock.API_KEY h) t) (Refused msg)
               :: rock_report (url (status_request (Rock.API_KEY h) t)) (Refused msg)) net w)
  end.
Proof. apply rock_poll_loop_eq. Qed.

Lemma transition_loop_S h t fuel prev w :
  Transition.poll_loop h (S fuel) t prev w =
  match network w with
  | [] => (Starved, w)
  | Answered r :: net =>
      if ok r then
        if terminal (status_of r)
        then (Ret (status_of r), extend (poll_events (status_request (transition_key h) t) r prev) net w)
        else Transition.poll_loop h fuel t (Some (status_of r))
               (extend (poll_events (status_request (transition_key h) t) r prev ++ [Sleep 5]) net w)
      else (Ret "FAILURE",
            extend (Http (status_request (transition_key h) t) (Answered r)
                    :: transition_report (url (status_request (transition_key h) t)) (Answered r)) net w)
  | Refused msg :: net =>
      (Ret "FAILURE",
       extend (Http (status_request (transition_key h) t) (Refused msg)
               :: transition_report (url (status_request (transition_key h) t)) (Refused msg)) net w)
  end.
Proof. apply transition_poll_loop_eq. Qed.

(** C9. Whatever the poll responses are, transport failures included,
    [poll_status] (rock and transition scripts) returns ["SUCCESS"] or
    ["FAILURE"] and nothing else; the only other outcome is that it is
    still polling when the scripted responses are used up. *)
Theorem poll_status_returns_terminal (h : host) (task_id : json) (w : world) :
  (fst (Rock.poll_status h task_id w) = Ret "SUCCESS"
   \/ fst (Rock.poll_status h task_id w) = Ret "FAILURE"
   \/ fst (Rock.poll_status h task_id w) = Starved)
  /\ (fst (Transition.poll_status h task_id w) = Ret "SUCCESS"
      \/ fst (Transition.poll_status h task_id w) = Ret "FAILURE"
      \/ fst (Transition.poll_status h task_id w) = Starved).
Proof.
  split.
  - apply (loop_outcome (fun fuel => Rock.poll_loop h fuel task_id) _ _
             (fun _ _ => eq_refl) (rock_loop_S h task_id)).
  - apply (loop_outcome (fun fuel => Transition.poll_loop h fuel task_id) _ _
             (fun _ _ => eq_refl) (transition_loop_S h task_id)).
Qed.

(** C6. When a status query fails at the transport level (the request is
    refused, or the answer is an HTTP error, so that [api_request] returns
    no response), [poll_status] returns ["FAILURE"] at once: the failed
    exchange is the last one it makes, nothing but the error report
    follows it in the trace, and the rest of the script is left unread.
    This holds for the poll after any number of non-terminal statuses. *)
Theorem poll_status_transport_failure (h : host) (task_id : json)
    (rs : list Response) (x : exchange) (rest : list exchange) (w : world) :
  Forall (fun r => ok r = true /\ terminal (status_of r) = false) rs ->
  transport_failure x ->
  network w = map Answered rs ++ x :: rest ->
  (exists pre,
     Rock.poll_status h task_id w
     = (Ret "FAILURE",
        {| network := rest; files := files w;
           trace := pre ++ Http (status_request (Rock.API_KEY h) task_id) x
                        :: rock_report (url (status_request (Rock.API_KEY h) task_id)) x |}))
  /\ (exists pre,
        Transition.poll_status h task_id w
        = (Ret "FAILURE",
           {| network := rest; files := files w;
              trace := pre ++ Http (status_request (transition_key h) task_id) x
                           :: transition_report (url (status_request (transition_key h) task_id)) x |})).
Proof.
  intros Hrs Hx Hnet. split.
  - apply (loop_transport_failure (fun fuel => Rock.poll_loop h fuel task_id) _ _
             (rock_loop_S h task_id) rs x None Hrs Hx w rest Hnet).
  - apply (loop_transport_failure (fun fuel => Transition.poll_loop h fuel task_id) _ _
             (transition_loop_S h task_id) rs x None Hrs Hx w rest Hnet).
Qed.

(** ** The polling loop of [generate_custom_song] *)

Lemma song_loop_S hdrs t fuel prev w :
  Telegram.song_poll_loop (S fuel) hdrs t prev w =
  match network w with
  | [] => (Starved, w)
  | Refused msg :: net =>
      (Raise (Exn RequestException msg),
       extend [Http (song_status_request hdrs t) (Refused msg)] net w)
  | Answered r :: net =>
      if String.eqb (status_of r) "SUCCESS"
      then (Ret true, extend (song_poll_events (song_status_request hdrs t) r prev) net w)
      else if String.eqb (status_of r) "FAILURE"
      then song_failure hdrs t (extend (song_poll_events (song_status_request hdrs t) r prev) net w)
      else Telegram.song_poll_loop fuel hdrs t (Some (status_of r))
             (extend (song_poll_events (song_status_request hdrs t) r prev ++ [Sleep 5]) net w)
  end.
Proof.
  cbn [Telegram.song_poll_loop]. unfold bind at 1, requests_request.
  destruct (network w) as [| [msg | r] net]; [reflexivity | reflexivity |].
  fold (status_of r). unfold song_poll_events, song_status_request.
  destruct (differs (status_of r) prev) eqn:Hd.
  - unfold bind at 1. unfold bind at 1. unfold print at 1. unfold ret at 1.
    destruct (String.eqb (status_of r) "SUCCESS").
    + unfold ret, extend, log, set_network. cbn. rewrite <- !app_assoc. reflexivity.
    + destruct (String.eqb (status_of r) "FAILURE").
      * unfold song_failure, extend, log, set_network. cbn [network files trace].
        rewrite <- !app_assoc. reflexivity.
      * unfold bind, sleep, extend, log, set_network. cbn [network files trace].
        rewrite <- !app_assoc. reflexivity.
  - assert (prev = Some (status_of r)) as ->.
    { pose proof (differs_prev (status_of r) prev) as H. rewrite Hd in H. exact H. }
    unfold bind at 1. unfold ret at 1.
    destruct (String.eqb (status_of r) "SUCCESS").
    + unfold ret, extend, log, set_network. cbn. reflexivity.
    + destruct (String.eqb (status_of r) "FAILURE").
      * unfold song_failure, extend, log, set_network. cbn [network files trace]. reflexivity.
      * unfold bind, sleep, extend, log, set_network. cbn [network files trace].
        rewrite <- ?app_assoc. reflexivity.
Qed.

Lemma song_failure_eq hdrs t w :
  song_failure hdrs t w =
  match network w with
  | [] => (Starved, w)
  | Refused msg :: net =>
      (Raise (Exn RequestException msg), extend [Http (song_error_request hdrs t) (Refused msg)] net w)
  | Answered r :: net =>
      match json_body r with
      | None => (Raise (Exn RequestException "Expecting value: line 1 column 1 (char 0)"),
                 extend [Http (song_error_request hdrs t) (Answered r)] net w)
      | Some d =>
          match dict_get d "error_message" (JStr "Unknown error") with
          | inl e => (Raise e, extend [Http (song_error_request hdrs t) (Answered r)] net w)
          | inr m => (Ret false,
                      extend [Http (song_error_request hdrs t) (Answered r);
                              Print ("❌ Song generation failed: " +:+ py_str m)] net w)
          end
      end
  end.
Proof.
  unfold song_failure, bind, requests_request, response_json.
  destruct (network w) as [| [msg | r] net]; [reflexivity | reflexivity |].
  destruct (json_body r) as [d |]; [| reflexivity].
  unfold ret at 1. destruct (dict_get d "error_message" (JStr "Unknown error")) as [e | m]; cbn [lift].
  - reflexivity.
  - unfold ret, print, extend, log, set_network. cbn [network files trace].
    rewrite <- !app_assoc. reflexivity.
Qed.

Lemma starts_with_song_status s : starts_with "Song status: " ("Song status: " +:+ s) = true.
Proof. cbn. destruct s; reflexivity. Qed.

Lemma status_lines_song_poll_events rq r prev :
  status_lines "Song status: " (song_poll_events rq r prev)
  = map (fun s => "Song status: " +:+ s) (if differs (status_of r) prev then [status_of r] else []).
Proof.
  unfold song_poll_events. destruct (differs (status_of r) prev); [| reflexivity].
  unfold status_lines. cbn [printed flat_map app List.filter]. rewrite starts_with_song_status. reflexivity.
Qed.

(** The failure branch adds no status line and no sleep, and leaves the files alone. *)
Lemma song_failure_frame hdrs t w :
  let w' := snd (song_failure hdrs t w) in
  files w' = files w
  /\ (exists used, network w = used ++ network w')
  /\ (exists new, trace w' = trace w ++ new
                  /\ status_lines "Song status: " new = [] /\ slept new = []).
Proof.
  cbn zeta. rewrite song_failure_eq.
  destruct (network w) as [| [msg | r] net] eqn:E.
  - cbn. rewrite E. split; [reflexivity |]. split; [exists [] | exists []]; cbn; auto using app_nil_r.
  - cbn. split; [reflexivity |]. split; [exists [Refused msg]; reflexivity |].
    eexists. split; [reflexivity |]. split; reflexivity.
  - destruct (json_body r) as [d |].
    + destruct (dict_get d "error_message" (JStr "Unknown error")) as [e | m]; cbn;
        (split; [reflexivity |]); (split; [exists [Answered r]; reflexivity |]);
        eexists; (split; [reflexivity |]); split; reflexivity.
    + cbn. split; [reflexivity |]. split; [exists [Answered r]; reflexivity |].
      eexists. split; [reflexivity |]. split; reflexivity.
Qed.

Lemma terminal_false s :
  String.eqb s "SUCCESS" = false -> String.eqb s "FAILURE" = false -> terminal s = false.
Proof. unfold terminal. intros -> ->. reflexivity. Qed.

Lemma song_loop_status_lines hdrs t fuel prev w :
  (length (network w) < fuel)%nat ->
  exists new,
    trace (snd (Telegram.song_poll_loop fuel hdrs t prev w)) = trace w ++ new
    /\ status_lines "Song status: " new
       = map (fun s => "Song status: " +:+ s) (changes prev (song_observed (network w))).
Proof.
  revert prev w. induction fuel as [| fuel IH]; intros prev w Hlt; [lia |].
  rewrite song_loop_S. destruct (network w) as [| [msg | r] net] eqn:E.
  - exists []. rewrite app_nil_r. auto.
  - eexists. cbn [snd extend trace]. split; reflexivity.
  - cbn [song_observed]. unfold terminal.
    destruct (String.eqb (status_of r) "SUCCESS") eqn:E1; cbn [orb].
    + eexists. cbn [snd extend trace]. split; [reflexivity |].
      rewrite status_lines_song_poll_events. cbn [changes]. rewrite app_nil_r. reflexivity.
    + destruct (String.eqb (status_of r) "FAILURE") eqn:E2.
      * destruct (song_failure_frame hdrs t
                    (extend (song_poll_events (song_status_request hdrs t) r prev) net w))
          as (_ & _ & new & Htr & Hq & _).
        exists (song_poll_events (song_status_request hdrs t) r prev ++ new).
        rewrite Htr. cbn [extend trace]. rewrite <- app_assoc. split; [reflexivity |].
        rewrite status_lines_app, Hq, status_lines_song_poll_events. cbn [changes].
        rewrite !app_nil_r. reflexivity.
      * destruct (IH (Some (status_of r))
                    (extend (song_poll_events (song_status_request hdrs t) r prev ++ [Sleep 5]) net w))
          as (new & Htr & Hl); [cbn in *; lia |].
        exists ((song_poll_events (song_status_request hdrs t) r prev ++ [Sleep 5]) ++ new).
        rewrite Htr. cbn [extend trace network] in *. rewrite <- app_assoc. split; [reflexivity |].
        rewrite !status_lines_app, Hl, status_lines_song_poll_events. cbn [changes].
        change (status_lines "Song status: " [Sleep 5]) with (@nil string).
        rewrite app_nil_r, map_app. reflexivity.
Qed.


(** [runs] is the run-length encoding: it expands back to the list, and
    neighbouring runs carry different values. *)
Lemma runs_expand (l : list string) :
  flat_map (fun sn => repeat (fst sn) (snd sn)) (runs l) = l.
Proof.
  induction l as [| s l IH]; [reflexivity |].
  cbn [runs]. destruct (runs l) as [| [y n] rs]; [cbn in *; congruence |].
  destruct (String.eqb s y) eqn:E.
  - apply String.eqb_eq in E. subst y. cbn in *. congruence.
  - cbn in *. congruence.
Qed.

Lemma runs_maximal (l : list string) (i : nat) (a b : string * nat) :
  runs l !! i = Some a -> runs l !! S i = Some b -> fst a <> fst b /\ (0 < snd a)%nat.
Proof.
  revert i a b. induction l as [| s l IH]; intros i a b; [discriminate |].
  cbn [runs]. destruct (runs l) as [| [y n] rs] eqn:E.
  - destruct i; cbn; discriminate.
  - destruct (String.eqb s y) eqn:Es.
    + apply String.eqb_eq in Es. subst y. destruct i as [| i].
      * cbn. intros [= <-] Hb. cbn. specialize (IH 0%nat (s, n) b eq_refl Hb). cbn in IH.
        split; [tauto | lia].
      * cbn. intros Ha Hb. apply (IH (S i) a b); assumption.
    + destruct i as [| i].
      * cbn. intros [= <-] [= <-]. cbn. split; [| lia].
        intros ->. rewrite String.eqb_refl in Es. discriminate.
      * cbn. intros Ha Hb. apply (IH i a b); assumption.
Qed.

Lemma song_loop_pending hdrs t (rs : list Response) :
  Forall (fun r => terminal (status_of r) = false) rs ->
  forall prev w net fuel,
    network w = map Answered rs ++ net ->
    exists prev' es,
      Telegram.song_poll_loop (length rs + fuel) hdrs t prev w
      = Telegram.song_poll_loop fuel hdrs t prev' (extend es net w)
      /\ slept es = repeat 5 (length rs).
Proof.
  induction 1 as [| r rs Ht _ IH]; intros prev w net fuel Hnet.
  - exists prev, []. cbn in Hnet. subst net. unfold extend. rewrite app_nil_r.
    destruct w; cbn. auto.
  - cbn [length Nat.add]. rewrite song_loop_S, Hnet. cbn [map app].
    unfold terminal in Ht. apply orb_false_iff in Ht. destruct Ht as [-> ->].
    destruct (IH (Some (status_of r))
                (extend (song_poll_events (song_status_request hdrs t) r prev ++ [Sleep 5])
                   (map Answered rs ++ net) w) net fuel eq_refl) as (prev' & es & Heq & Hs).
    exists prev', ((song_poll_events (song_status_request hdrs t) r prev ++ [Sleep 5]) ++ es).
    rewrite Heq, extend_extend. split; [reflexivity |].
    unfold slept in *. rewrite !flat_map_app, Hs. unfold song_poll_events.
    destruct (differs (status_of r) prev); reflexivity.
Qed.

Lemma song_keeps_polling hdrs t (rs : list Response) :
  Forall (fun r => terminal (status_of r) = false) rs ->
  keeps_polling (Telegram.song_poll hdrs t) rs.
Proof.
  intros Hrs w Hnet. unfold Telegram.song_poll.
  destruct (song_loop_pending hdrs t rs Hrs None w [] 1%nat) as (prev' & es & Heq & Hs).
  { rewrite app_nil_r. exact Hnet. }
  rewrite Hnet, length_map. replace (S (length rs)) with (length rs + 1)%nat by lia.
  rewrite Heq, song_loop_S. cbn [extend network]. eexists. split; [reflexivity |].
  unfold extend; cbn [network trace]. split; [reflexivity |].
  unfold slept in *. rewrite flat_map_app, Hs. reflexivity.
Qed.

Lemma song_exits_on_success hdrs t (rs : list Response) (r : Response) :
  Forall (fun r => terminal (status_of r) = false) rs ->
  status_of r = "SUCCESS" ->
  exits_with (Telegram.song_poll hdrs t) rs r true.
Proof.
  intros Hrs Hr w rest Hnet. unfold Telegram.song_poll.
  destruct (song_loop_pending hdrs t rs Hrs None w (Answered r :: rest) (S (S (length rest))) Hnet)
    as (prev' & es & Heq & _).
  replace (S (length (network w))) with (length rs + S (S (length rest)))%nat
    by (rewrite Hnet, length_app, length_map; cbn [length]; lia).
  rewrite Heq, song_loop_S. cbn [extend network]. rewrite Hr. cbn [String.eqb Ascii.eqb Bool.eqb].
  eexists. split; reflexivity.
Qed.

Lemma song_exits_on_failure hdrs t (rs : list Response) (r : Response) :
  Forall (fun r => terminal (status_of r) = false) rs ->
  status_of r = "FAILURE" ->
  exits_after (Telegram.song_poll hdrs t) rs r.
Proof.
  intros Hrs Hr w x rest Hnet. unfold Telegram.song_poll.
  destruct (song_loop_pending hdrs t rs Hrs None w (Answered r :: x :: rest)
              (S (S (S (length rest)))) Hnet) as (prev' & es & Heq & Hs).
  replace (S (length (network w))) with (length rs + S (S (S (length rest))))%nat
    by (rewrite Hnet, length_app, length_map; cbn [length]; lia).
  rewrite Heq, song_loop_S. cbn [extend network]. rewrite Hr.
  cbn [String.eqb Ascii.eqb Bool.eqb]. rewrite song_failure_eq. cbn [extend network].
  assert (Hsl : forall tail, slept tail = [] ->
            slept (((trace w ++ es) ++ song_poll_events (song_status_request hdrs t) r prev') ++ tail)
            = slept (trace w) ++ repeat 5 (length rs)).
  { intros tail Htail. unfold slept in *. rewrite !flat_map_app, Hs, Htail.
    unfold song_poll_events. destruct (differs (status_of r) prev'); cbn; rewrite !app_nil_r; reflexivity. }
  destruct x as [msg | e].
  - eexists _, _. split; [reflexivity |]. split; [discriminate |]. split; [reflexivity |].
    unfold extend; cbn [trace]. apply Hsl. reflexivity.
  - destruct (json_body e) as [d |].
    + destruct (dict_get d "error_message" (JStr "Unknown error")) as [err | m].
      * eexists _, _. split; [reflexivity |]. split; [discriminate |]. split; [reflexivity |].
        unfold extend; cbn [trace]. apply Hsl. reflexivity.
      * eexists _, _. split; [reflexivity |]. split; [discriminate |]. split; [reflexivity |].
        unfold extend; cbn [trace]. apply Hsl. reflexivity.
    + eexists _, _. split; [reflexivity |]. split; [discriminate |]. split; [reflexivity |].
      unfold extend; cbn [trace]. apply Hsl. reflexivity.
Qed.

(** ** The polling loop of [create_singing_video] *)

Lemma video_loop_S h job fuel w :
  Telegram.video_poll_loop h (S fuel) job w =
  match network w with
  | [] => (Starved, w)
  | Refused msg :: net =>
      (Raise (Exn RequestException msg), extend [Http (video_status_request h job) (Refused msg)] net w)
  | Answered r :: net =>
      match json_body r with
      | None => (Raise (Exn RequestException "Expecting value: line 1 column 1 (char 0)"),
                 extend [Http (video_status_request h job) (Answered r)] net w)
      | Some d =>
          match dict_get d "status" JNull with
          | inl e => (Raise e, extend [Http (video_status_request h job) (Answered r)] net w)
          | inr st =>
              if json_is st "pending" then
                Telegram.video_poll_loop h fuel job
                  (extend [Http (video_status_request h job) (Answered r);
                           Print "Waiting for video to complete..."; Sleep 5] net w)
              else (Ret (st, d), extend [Http (video_status_request h job) (Answered r)] net w)
          end
      end
  end.
Proof.
  cbn [Telegram.video_poll_loop]. unfold bind at 1, requests_request.
  destruct (network w) as [| [msg | r] net]; [reflexivity | reflexivity |].
  unfold bind at 1, response_json. destruct (json_body r) as [d |]; [| reflexivity].
  unfold ret at 1. unfold bind at 1.
  destruct (dict_get d "status" JNull) as [e | st]; cbn [lift]; [reflexivity |].
  unfold ret at 1. destruct (json_is st "pending").
  - unfold bind, print, sleep, extend, log, set_network. cbn [network files trace].
    rewrite <- !app_assoc. reflexivity.
  - reflexivity.
Qed.

Lemma video_loop_pending h job (rs : list Response) :
  Forall (fun r => exists st, video_status r = Some st /\ json_is st "pending" = true) rs ->
  forall w net fuel,
    network w = map Answered rs ++ net ->
    exists es,
      Telegram.video_poll_loop h (length rs + fuel) job w
      = Telegram.video_poll_loop h fuel job (extend es net w)
      /\ slept es = repeat 5 (length rs).
Proof.
  induction 1 as [| r rs (st & Hst & Hp) _ IH]; intros w net fuel Hnet.
  - exists []. cbn in Hnet. subst net. unfold extend. rewrite app_nil_r.
    destruct w; cbn. auto.
  - cbn [length Nat.add]. rewrite video_loop_S, Hnet. cbn [map app].
    unfold video_status in Hst. destruct (json_body r) as [d |]; [| discriminate].
    destruct (dict_get d "status" JNull) as [e | st']; [discriminate |].
    injection Hst as ->. rewrite Hp.
    destruct (IH (extend [Http (video_status_request h job) (Answered r);
                          Print "Waiting for video to complete..."; Sleep 5]
                    (map Answered rs ++ net) w) net fuel eq_refl) as (es & Heq & Hs).
    eexists. rewrite Heq, extend_extend. split; [reflexivity |].
    unfold slept in *. rewrite !flat_map_app, Hs. reflexivity.
Qed.

Lemma video_keeps_polling h job (rs : list Response) :
  Forall (fun r => exists st, video_status r = Some st /\ json_is st "pending" = true) rs ->
  keeps_polling (Telegram.video_poll h job) rs.
Proof.
  intros Hrs w Hnet. unfold Telegram.video_poll.
  destruct (video_loop_pending h job rs Hrs w [] 1%nat) as (es & Heq & Hs).
  { rewrite app_nil_r. exact Hnet. }
  rewrite Hnet, length_map. replace (S (length rs)) with (length rs + 1)%nat by lia.
  rewrite Heq, video_loop_S. cbn [extend network]. eexists. split; [reflexivity |].
  unfold extend; cbn [network trace]. split; [reflexivity |].
  unfold slept in *. rewrite flat_map_app, Hs. reflexivity.
Qed.

Lemma video_exits h job (rs : list Response) (r : Response) (d st : json) :
  Forall (fun r => exists st, video_status r = Some st /\ json_is st "pending" = true) rs ->
  json_body r = Some d -> dict_get d "status" JNull = inr st -> json_is st "pending" = false ->
  exits_with (Telegram.video_poll h job) rs r (st, d).
Proof.
  intros Hrs Hd Hst Hp w rest Hnet. unfold Telegram.video_poll.
  destruct (video_loop_pending h job rs Hrs w (Answered r :: rest) (S (S (length rest))) Hnet)
    as (es & Heq & _).
  replace (S (length (network w))) with (length rs + S (S (length rest)))%nat
    by (rewrite Hnet, length_app, length_map; cbn [length]; lia).
  rewrite Heq, video_loop_S. cbn [extend network]. rewrite Hd, Hst, Hp.
  eexists. split; reflexivity.
Qed.

(** C1 (amended). On every sequence of statuses: the Sonauto loops
    ([poll_status] of the rock and transition scripts, the loop of
    [generate_custom_song]) go on polling through every status that is not
    exactly ["SUCCESS"] or ["FAILURE"] (quotes stripped) and leave the loop
    on reading one of these two; the Lemon Slice loop of
    [create_singing_video] goes on only while the status is ["pending"] and
    leaves the loop on any other status value. *)
Theorem polling_exit_conditions (h : host) (hdrs : list (string * string))
    (task_id : json) (rs : list Response) :
  (Forall (fun r => ok r = true /\ terminal (status_of r) = false) rs ->
     keeps_polling (Rock.poll_status h task_id) rs
     /\ keeps_polling (Transition.poll_status h task_id) rs
     /\ forall r, ok r = true -> terminal (status_of r) = true ->
          (status_of r = "SUCCESS" \/ status_of r = "FAILURE")
          /\ exits_with (Rock.poll_status h task_id) rs r (status_of r)
          /\ exits_with (Transition.poll_status h task_id) rs r (status_of r))
  /\ (Forall (fun r => terminal (status_of r) = false) rs ->
        keeps_polling (Telegram.song_poll hdrs task_id) rs
        /\ (forall r, status_of r = "SUCCESS" ->
              exits_with (Telegram.song_poll hdrs task_id) rs r true)
        /\ (forall r, status_of r = "FAILURE" ->
              exits_after (Telegram.song_poll hdrs task_id) rs r))
  /\ (Forall (fun r => exists st, video_status r = Some st /\ json_is st "pending" = true) rs ->
        keeps_polling (Telegram.video_poll h task_id) rs
        /\ forall r d st,
             json_body r = Some d -> dict_get d "status" JNull = inr st ->
             json_is st "pending" = false ->
             exits_with (Telegram.video_poll h task_id) rs r (st, d)).
Proof.
  split; [| split].
  - intros Hrs. split; [| split].
    + apply (loop_keeps_polling (fun fuel => Rock.poll_loop h fuel task_id) _ _
               (rock_loop_S h task_id) rs None Hrs).
    + apply (loop_keeps_polling (fun fuel => Transition.poll_loop h fuel task_id) _ _
               (transition_loop_S h task_id) rs None Hrs).
    + intros r Hok Ht. split; [apply terminal_cases; exact Ht |]. split.
      * apply (loop_exits (fun fuel => Rock.poll_loop h fuel task_id) _ _
                 (rock_loop_S h task_id) rs r None Hrs Hok Ht).
      * apply (loop_exits (fun fuel => Transition.poll_loop h fuel task_id) _ _
                 (transition_loop_S h task_id) rs r None Hrs Hok Ht).
  - intros Hrs. split; [| split].
    + apply song_keeps_polling; exact Hrs.
    + intros r Hr. apply song_exits_on_success; assumption.
    + intros r Hr. apply song_exits_on_failure; assumption.
  - intros Hrs. split.
    + apply video_keeps_polling; exact Hrs.
    + intros r d st Hd Hst Hp. eapply video_exits; eassumption.
Qed.

(** A run for C1: two non-terminal statuses keep each loop polling. *)
Lemma polling_exit_conditions_witness :
  keeps_polling (Rock.poll_status sample_host (JStr "T1"))
    [status_reply "PENDING"; status_reply "RUNNING"]
  /\ keeps_polling (Telegram.song_poll [] (JStr "T1"))
       [status_reply "PENDING"; status_reply "RUNNING"]
  /\ keeps_polling (Telegram.video_poll sample_host (JStr "T1"))
       [video_reply "pending"; video_reply "pending"].
Proof.
  split; [| split].
  - apply (proj1 (polling_exit_conditions sample_host [] (JStr "T1")
                    [status_reply "PENDING"; status_reply "RUNNING"])).
    repeat constructor.
  - apply (proj1 (proj2 (polling_exit_conditions sample_host [] (JStr "T1")
                           [status_reply "PENDING"; status_reply "RUNNING"]))).
    repeat constructor.
  - apply (proj2 (proj2 (polling_exit_conditions sample_host [] (JStr "T1")
                           [video_reply "pending"; video_reply "pending"]))).
    repeat constructor; exists (JStr "pending"); split; reflexivity.
Defined.

(** C1 as stated fails for the Lemon Slice loop: on the status
    ["processing"], which is not its terminal ["completed"], the loop does
    not poll again but returns. *)
Lemma video_loop_leaves_on_unknown_status :
  fst (Telegram.video_poll sample_host (JStr "J1")
         (world_of [Answered (video_reply "processing")] ∅))
  = Ret (JStr "processing", JObj [("status", JStr "processing")])
  /\ ~ video_loop_waits_for ["completed"].
Proof.
  split; [reflexivity |].
  intros H. specialize (H sample_host (JStr "J1") ["processing"]).
  assert (Hs : Forall (fun s => ~ In s ["completed"]) ["processing"]).
  { constructor; [| constructor]. intros [E | []]. discriminate E. }
  specialize (H Hs). discriminate H.
Qed.

(** ** API keys and exit statuses *)

Lemma rock_key_missing h :
  unset_or "your_sonauto_api_key" (environ h !! "SONAUTO_API_KEY") ->
  Rock.API_KEY h = "your_sonauto_api_key".
Proof. unfold Rock.API_KEY. intros [-> | ->]; reflexivity. Qed.




(** C8, the failing runs: the transition script never sets an exit status,
    so a run that stops at the key check, and a run whose submission is
    refused by the service, both end with status 0; the rock and telegram
    scripts end the same failures with status 1. *)
Theorem transition_failures_exit_zero :
  (let run := Transition.main keyless_host (Some sample_songs) (world_of [] ∅) in
   exit_status (fst run) = Some 0 /\ trace (snd run) = [Print sonauto_key_diagnostic])
  /\ exit_status (fst (Transition.main sample_host (Some sample_songs)
                         (world_of [Refused "unreachable"] ∅))) = Some 0
  /\ exit_status (fst (Rock.main keyless_host (world_of [] ∅))) = Some 1
  /\ exit_status (fst (Rock.main sample_host (world_of [Refused "unreachable"] ∅))) = Some 1
  /\ exit_status (fst (Telegram.main sample_host (Some sample_telegram)
                         (world_of [Refused "unreachable"] ∅))) = Some 1.
Proof. repeat split; vm_compute; reflexivity. Qed.

Lemma print_eq line w : print line w = (Ret tt, log (Print line) w).
Proof. reflexivity. Qed.

Lemma write_file_eq path data w :
  write_file path data w = (Ret tt, set_files (<[path := data]> (files w)) w).
Proof. reflexivity. Qed.

Lemma lift_inr {A : Type} (a : A) : lift (inr a) = ret a.
Proof. reflexivity. Qed.

Lemma bind_ret {A B : Type} (a : A) (k : A -> M B) (w : world) : bind (ret a) k w = k a w.
Proof. reflexivity. Qed.

Lemma from_file_ok h path data seg w :
  files w !! path = Some data -> decode_audio h data = Some seg ->
  Transition.from_file h path w = (Ret seg, w).
Proof.
  intros Hf Hd. unfold Transition.from_file, bind, read_file. rewrite Hf, Hd. reflexivity.
Qed.

(** ** Audio segments *)

Lemma len_nonneg seg : 0 <= len seg.
Proof. unfold len. lia. Qed.

Lemma len_silent d : len (silent d) = Z.max 0 d.
Proof. unfold len, silent. cbn [frames]. rewrite repeat_length. lia. Qed.

Lemma slice_range seg (s e : Z) :
  0 <= s <= e -> e <= len seg ->
  slice seg (Some (PInt s)) (Some (PInt e))
  = inr {| channels := channels seg;
           frames := take (Z.to_nat (e - s)) (drop (Z.to_nat s) (frames seg)) |}.
Proof.
  intros Hs He. unfold slice, py_min, py_lt, parse_position, py_lt, py_int.
  assert ((len seg <? s) = false) as -> by (apply Z.ltb_ge; lia).
  assert ((len seg <? e) = false) as -> by (apply Z.ltb_ge; lia).
  assert (Hs0 : (s <? 0) = false) by (apply Z.ltb_ge; lia).
  assert (He0 : (e <? 0) = false) by (apply Z.ltb_ge; lia).
  rewrite Hs0, He0.
  unfold py_slice, clamp_index. rewrite Hs0, He0.
  fold (len seg).
  rewrite (Z.min_l s) by lia. rewrite (Z.min_l e) by lia.
  assert (Hlen : Z.of_nat (length (take (Z.to_nat (e - s)) (drop (Z.to_nat s) (frames seg)))) = e - s).
  { rewrite length_take, length_drop. unfold len in He. lia. }
  rewrite Hlen. rewrite Z.sub_diag. reflexivity.
Qed.

Lemma slice_prefix seg (e : Z) :
  0 <= e <= len seg ->
  slice seg None (Some (PInt e))
  = inr {| channels := channels seg; frames := take (Z.to_nat e) (frames seg) |}.
Proof.
  intros He. change (slice seg None (Some (PInt e))) with (slice seg (Some (PInt 0)) (Some (PInt e))).
  rewrite slice_range by lia. rewrite Z.sub_0_r. reflexivity.
Qed.

Lemma len_take seg n c :
  0 <= n <= len seg -> len {| channels := c; frames := take (Z.to_nat n) (frames seg) |} = n.
Proof. unfold len. cbn [frames]. rewrite length_take. lia. Qed.

(** C4. For songs of 60 s and 50 s and the default parameters
    ([song_duration=45], [silence_duration=5], no trimming),
    [create_concatenated_audio] returns the boundaries
    [(45 - 0.1, 50 + 0.1)], computed in binary64 as Python does. *)
Theorem concatenation_bounds_60s_50s (h : host) (w : world)
    (song1_path song2_path output_path combined_output_path : string)
    (bytes1 bytes2 : list byte) (song1 song2 : AudioSegment) :
  files w !! song1_path = Some bytes1 -> decode_audio h bytes1 = Some song1 -> len song1 = 60000 ->
  files w !! song2_path = Some bytes2 -> decode_audio h bytes2 = Some song2 -> len song2 = 50000 ->
  fst (Transition.create_concatenated_audio h song1_path song2_path output_path
         combined_output_path 45 5 (PInt 0) (PInt 0) w)
  = Ret (output_path, PFloat (45 - 0.1), PFloat (50 + 0.1)).
Proof.
  intros Hf1 Hd1 Hl1 Hf2 Hd2 Hl2.
  unfold Transition.create_concatenated_audio.
  rewrite (bind_Ret _ _ _ _ _ (print_eq _ _)). cbn beta.
  rewrite (bind_Ret _ _ _ _ _ (from_file_ok h _ _ _ (log _ w) Hf1 Hd1)). cbn beta.
  rewrite (bind_Ret _ _ _ _ _ (from_file_ok h _ _ _ (log _ w) Hf2 Hd2)). cbn beta.
  rewrite Hl1, Hl2.
  change (Z.min (45 * 1000) 60000) with 45000.
  change (Z.min (45 * 1000) 50000) with 45000.
  change (py_mul (PInt 0) (PInt 1000)) with (@inr exn pynum (PInt 0)).
  rewrite !lift_inr, !bind_ret. cbn beta.
  change (py_sub (PInt 45000) (PInt 0)) with (@inr exn pynum (PInt 45000)).
  rewrite lift_inr, bind_ret. cbn beta.
  rewrite slice_prefix by lia. rewrite lift_inr, bind_ret. cbn beta.
  rewrite slice_range by lia. rewrite lift_inr, bind_ret. cbn beta.
  unfold Transition.export.
  rewrite (bind_Ret _ _ _ _ _ (write_file_eq _ _ _)). cbn beta.
  rewrite (bind_Ret _ _ _ _ _ (write_file_eq _ _ _)). cbn beta.
  rewrite (bind_Ret _ _ _ _ _ (print_eq _ _)). cbn beta.
  rewrite len_take by lia. rewrite len_silent.
  reflexivity.
Qed.

(** A run for C4. *)
Lemma concatenation_bounds_witness :
  fst (Transition.create_concatenated_audio sample_host "song1.mp3" "song2.mp3"
         "concatenated.mp3" "pre_inpaint.mp3" 45 5 (PInt 0) (PInt 0) two_songs)
  = Ret ("concatenated.mp3", PFloat (45 - 0.1), PFloat (50 + 0.1)).
Proof.
  apply (concatenation_bounds_60s_50s sample_host two_songs
           "song1.mp3" "song2.mp3" "concatenated.mp3" "pre_inpaint.mp3"
           (repeat "001"%byte 60) (repeat "002"%byte 50)
           {| channels := 2;
              frames := flat_map (fun b => repeat (Z.of_N (Byte.to_N b)) 1000) (repeat "001"%byte 60) |}
           {| channels := 2;
              frames := flat_map (fun b => repeat (Z.of_N (Byte.to_N b)) 1000) (repeat "002"%byte 50) |});
    first [reflexivity | vm_compute; reflexivity].
Defined.

Lemma lift_Ret_inv {A : Type} (r : result A) (a : A) (w w' : world) :
  lift r w = (Ret a, w') -> r = inr a /\ w' = w.
Proof. destruct r as [e | x]; cbn; intros [= <- <-]; auto. Qed.

Lemma truediv_1000 (ms : Z) (x : pynum) :
  py_truediv (PInt ms) (PInt 1000) = inr x -> x = PFloat (seconds ms).
Proof.
  unfold py_truediv, int_truediv. change (1000 =? 0) with false. cbn iota.
  fold (seconds ms). destruct (is_inf (seconds ms)); [discriminate |].
  intros [= <-]. reflexivity.
Qed.

Ltac inv_bind H H1 :=
  let a := fresh "a" in
  let w1 := fresh "w" in
  apply bind_Ret_inv in H; destruct H as (a & w1 & H1 & H).

Tactic Notation "inv_bind_as" hyp(H) ident(x) ident(wx) ident(Hx) :=
  apply bind_Ret_inv in H; destruct H as (x & wx & Hx & H).

Tactic Notation "inv_lift_as" hyp(H) ident(x) ident(Hx) :=
  let w1 := fresh "w" in
  apply bind_Ret_inv in H; destruct H as (x & w1 & Hx & H);
  apply lift_Ret_inv in Hx; destruct Hx as [Hx ->].

Ltac inv_lift H H1 :=
  let a := fresh "a" in
  let w1 := fresh "w" in
  apply bind_Ret_inv in H; destruct H as (a & w1 & H1 & H);
  apply lift_Ret_inv in H1; destruct H1 as [H1 ->].

Lemma from_file_inv h path seg w w' :
  Transition.from_file h path w = (Ret seg, w') ->
  w' = w /\ exists data, files w !! path = Some data /\ decode_audio h data = Some seg.
Proof.
  unfold Transition.from_file, bind, read_file.
  destruct (files w !! path) as [data |] eqn:Hf; [| discriminate].
  destruct (decode_audio h data) as [seg' |] eqn:Hd; [| discriminate].
  unfold ret. intros [= <- <-]. split; [reflexivity |]. exists data. auto.
Qed.

(** C10 (amended). Whenever [create_concatenated_audio] returns, its
    boundaries are the binary64 values of [L/1000 - 0.1] and
    [(L + D)/1000 + 0.1], where [L] is the length in milliseconds of the
    first song once trimmed (a slice [song1[:stop]] of the decoded file) and
    [D = 1000 * silence_duration] that of the silence ([0] when
    [silence_duration] is negative): the window is the silence with 0.1 s of
    padding on each side, whatever the second song and its trim are, and its
    two ends are rounded separately. *)
Theorem inpainting_window (h : host) (w w' : world)
    (song1_path song2_path output_path combined_output_path : string)
    (song_duration silence_duration : Z) (trim_from_end trim_to_start : pynum)
    (returned : string * pynum * pynum) :
  Transition.create_concatenated_audio h song1_path song2_path output_path combined_output_path
    song_duration silence_duration trim_from_end trim_to_start w = (Ret returned, w') ->
  exists (bytes1 : list byte) (song1 trimmed : AudioSegment) (stop : pynum),
    files w !! song1_path = Some bytes1
    /\ decode_audio h bytes1 = Some song1
    /\ slice song1 None (Some stop) = inr trimmed
    /\ returned
       = (output_path,
          PFloat (seconds (len trimmed) - 0.1),
          PFloat (seconds (len trimmed + Z.max 0 (silence_duration * 1000)) + 0.1)).
Proof.
  intros H. unfold Transition.create_concatenated_audio in H.
  inv_bind_as H u0 w0 Hprint. unfold print in Hprint. injection Hprint as _ <-.
  inv_bind_as H song1 w1 Hsong1. apply from_file_inv in Hsong1.
  destruct Hsong1 as (-> & bytes1 & Hfile1 & Hdecode1).
  inv_bind H Hsong2.
  inv_lift H Hend_ms. inv_lift H Hstart_ms. inv_lift_as H stop Hstop.
  inv_lift_as H trimmed Hslice1. inv_lift H Hslice2.
  inv_bind H Hexport1. inv_bind H Hexport2. inv_bind H Hsaved.
  inv_lift H Hdiv1. apply truediv_1000 in Hdiv1. subst.
  inv_lift H Hsub. cbn in Hsub. injection Hsub as <-.
  inv_lift H Hdiv2. apply truediv_1000 in Hdiv2. subst.
  inv_lift H Hadd. cbn in Hadd. injection Hadd as <-.
  injection H as <- <-.
  exists bytes1, song1, trimmed, stop.
  split; [exact Hfile1 |]. split; [exact Hdecode1 |]. split; [exact Hslice1 |].
  rewrite len_silent. reflexivity.
Qed.

(** A run for C10 (amended). *)
Lemma inpainting_window_witness :
  exists (bytes1 : list byte) (song1 trimmed : AudioSegment) (stop : pynum),
    files two_songs !! "song1.mp3" = Some bytes1
    /\ decode_audio sample_host bytes1 = Some song1
    /\ slice song1 None (Some stop) = inr trimmed
    /\ ("concatenated.mp3", PFloat (45 - 0.1), PFloat (50 + 0.1))
       = ("concatenated.mp3",
          PFloat (seconds (len trimmed) - 0.1),
          PFloat (seconds (len trimmed + Z.max 0 (5 * 1000)) + 0.1)).
Proof.
  apply (inpainting_window sample_host two_songs
           (snd (Transition.create_concatenated_audio sample_host "song1.mp3" "song2.mp3"
                   "concatenated.mp3" "pre_inpaint.mp3" 45 5 (PInt 0) (PInt 0) two_songs))
           "song1.mp3" "song2.mp3" "concatenated.mp3" "pre_inpaint.mp3" 45 5 (PInt 0) (PInt 0)).
  etransitivity; [apply surjective_pairing |].
  f_equal; vm_compute; reflexivity.
Defined.

(** C10 as stated fails.  With the default parameters and songs of 60 s and
    50 s the boundaries are 44.9 and 50.1, whose binary64 difference is
    5.200000000000003 and not 5 + 0.2.  With [silence_duration = -5] the
    silence is empty and the window is 0.2 s wide, not -4.8 s. *)
Lemma window_width_differs :
  fst (Transition.create_concatenated_audio sample_host "song1.mp3" "song2.mp3"
         "concatenated.mp3" "pre_inpaint.mp3" 45 5 (PInt 0) (PInt 0) two_songs)
  = Ret ("concatenated.mp3", PFloat 44.9, PFloat 50.1)
  /\ py_sub (PFloat 50.1) (PFloat 44.9) = inr (PFloat 5.2000000000000028)
  /\ py_add (PInt 5) (PFloat 0.2) = inr (PFloat 5.2)
  /\ window_matches 5 (PFloat 44.9) (PFloat 50.1) = false
  /\ fst (Transition.create_concatenated_audio sample_host "song1.mp3" "song2.mp3"
            "concatenated.mp3" "pre_inpaint.mp3" 45 (-5) (PInt 0) (PInt 0) two_songs)
     = Ret ("concatenated.mp3", PFloat 44.9, PFloat 45.1)
  /\ window_matches (-5) (PFloat 44.9) (PFloat 45.1) = false.
Proof. repeat split; vm_compute; reflexivity. Qed.

(** A run for C6: the second poll is refused. *)
Lemma poll_status_transport_failure_witness :
  (exists pre,
     Rock.poll_status sample_host (JStr "T1")
       (world_of [Answered (status_reply "PENDING"); Refused "connection reset";
                  Answered (status_reply "SUCCESS")] ∅)
     = (Ret "FAILURE",
        {| network := [Answered (status_reply "SUCCESS")]; files := ∅;
           trace := pre ++ Http (status_request (Rock.API_KEY sample_host) (JStr "T1"))
                             (Refused "connection reset")
                        :: rock_report (url (status_request (Rock.API_KEY sample_host) (JStr "T1")))
                             (Refused "connection reset") |}))
  /\ (exists pre,
        Transition.poll_status sample_host (JStr "T1")
          (world_of [Answered (status_reply "PENDING"); Refused "connection reset";
                     Answered (status_reply "SUCCESS")] ∅)
        = (Ret "FAILURE",
           {| network := [Answered (status_reply "SUCCESS")]; files := ∅;
              trace := pre ++ Http (status_request (transition_key sample_host) (JStr "T1"))
                                (Refused "connection reset")
                           :: transition_report
                                (url (status_request (transition_key sample_host) (JStr "T1")))
                                (Refused "connection reset") |})).
Proof.
  apply (poll_status_transport_failure sample_host (JStr "T1") [status_reply "PENDING"]
           (Refused "connection reset") [Answered (status_reply "SUCCESS")]
           (world_of [Answered (status_reply "PENDING"); Refused "connection reset";
                      Answered (status_reply "SUCCESS")] ∅)).
  - repeat constructor.
  - exact I.
  - reflexivity.
Defined.

(** ** Inversion of the primitives *)

Lemma ret_inv {A : Type} (a b : A) (w w' : world) : ret a w = (Ret b, w') -> a = b /\ w' = w.
Proof. intros [= <- <-]. auto. Qed.

Lemma print_inv line (u : unit) (w w' : world) :
  print line w = (Ret u, w') -> w' = extend [Print line] (network w) w.
Proof. intros [= _ <-]. reflexivity. Qed.

Lemma write_file_inv path data (u : unit) (w w' : world) :
  write_file path data w = (Ret u, w') -> w' = set_files (<[path := data]> (files w)) w.
Proof. intros [= _ <-]. reflexivity. Qed.

Lemma requests_request_inv rq r w w' :
  requests_request rq w = (Ret r, w') ->
  exists net, network w = Answered r :: net /\ w' = extend [Http rq (Answered r)] net w.
Proof.
  unfold requests_request. destruct (network w) as [| [msg | r'] net]; try discriminate.
  intros [= <- <-]. exists net. auto.
Qed.

Lemma requests_get_value_inv v hdrs r w w' :
  requests_get_value v hdrs w = (Ret r, w') ->
  exists u net, v = JStr u /\ network w = Answered r :: net
                /\ w' = extend [Http {| method := "GET"; url := u; headers := hdrs; body := NoBody |}
                                  (Answered r)] net w.
Proof.
  destruct v; try discriminate. cbn [requests_get_value]. intros H.
  apply requests_request_inv in H. destruct H as (net & Hn & ->). eauto.
Qed.

Lemma response_json_inv r v w w' :
  response_json r w = (Ret v, w') -> json_body r = Some v /\ w' = w.
Proof.
  unfold response_json. destruct (json_body r); [| discriminate]. intros [= <- <-]. auto.
Qed.

Lemma raise_for_status_inv u r (x : unit) w w' :
  raise_for_status u r w = (Ret x, w') -> w' = w.
Proof.
  unfold raise_for_status. destruct (http_error_msg u r); [discriminate |]. intros [= _ <-]. auto.
Qed.

Lemma try_except_Ret_inv {A : Type} (m : M A) c (hd : exn -> M A) (w w' : world) (a : A) :
  try_except m c hd w = (Ret a, w') ->
  m w = (Ret a, w') \/ exists e w1, m w = (Raise e, w1) /\ c e = true /\ hd e w1 = (Ret a, w').
Proof.
  unfold try_except. destruct (m w) as [[x | e |] w1]; intros H.
  - left. exact H.
  - right. destruct (c e) eqn:E; [| discriminate]. eauto.
  - discriminate.
Qed.

Lemma rock_api_request_inv h m e b w w' o r :
  Rock.api_request h m e b w = (Ret o, w') -> truthy o = Some r ->
  exists net, network w = Answered r :: net
              /\ w' = extend [Http (sonauto_request (Rock.API_KEY h) m e b) (Answered r)] net w.
Proof.
  rewrite rock_api_request_eq. intros H Ht. apply truthy_Some in Ht. destruct Ht as [-> Hok].
  destruct (network w) as [| [msg | r'] net]; try discriminate.
  cbn zeta in H. destruct (ok r'); [| discriminate]. injection H as <- <-. eauto.
Qed.

Lemma transition_api_request_inv h m e b w w' o r :
  Transition.api_request h m e b w = (Ret o, w') -> truthy o = Some r ->
  exists net, network w = Answered r :: net
              /\ w' = extend [Http (sonauto_request (transition_key h) m e b) (Answered r)] net w.
Proof.
  rewrite transition_api_request_eq. intros H Ht. apply truthy_Some in Ht. destruct Ht as [-> Hok].
  destruct (network w) as [| [msg | r'] net]; try discriminate.
  cbn zeta in H. destruct (ok r'); [| discriminate]. injection H as <- <-. eauto.
Qed.

(** [display_results] only prints. *)
Lemma display_results_inv result (u : unit) w w' :
  Rock.display_results result w = (Ret u, w') ->
  exists lines, w' = extend (map Print lines) (network w) w.
Proof.
  unfold Rock.display_results. intros H.
  inv_lift H Hlyrics. inv_lift H Hseed. inv_lift H Htags.
  inv_bind H Hp1. apply print_inv in Hp1. subst.
  inv_bind H Hp2. apply print_inv in Hp2. subst.
  inv_lift H Hjoin.
  inv_bind H Hp3. apply print_inv in Hp3. subst.
  inv_bind H Hp4. apply print_inv in Hp4. subst.
  apply print_inv in H. subst.
  eexists [_; _; _; _; _]. unfold extend. cbn [network files trace map].
  rewrite <- !app_assoc. reflexivity.
Qed.

Lemma requested_prints lines : requested (map Print lines) = [].
Proof. induction lines; [reflexivity | exact IHlines]. Qed.

(** ** Saving the artifact *)

Lemma rock_saved h w f w' :
  Rock.generate_rock_song h w = (Ret (Some f), w') -> saved_from_first_url w' f.
Proof.
  unfold Rock.generate_rock_song. intros H.
  destruct (String.eqb (Rock.API_KEY h) "your_sonauto_api_key").
  { inv_bind H Hp. discriminate H. }
  inv_bind_as H response w1 Hsubmit.
  destruct (truthy response) as [r |] eqn:Hr; [| discriminate H].
  inv_bind_as H data w2 Hdata. inv_lift_as H task_id Htask.
  inv_bind_as H u3 w3 Hstarted. inv_bind_as H status w4 Hpoll.
  destruct (String.eqb status "FAILURE").
  { inv_bind H Herr. inv_bind H Hreport. discriminate H. }
  inv_bind_as H result w5 Hresult.
  destruct (truthy result) as [res |] eqn:Hres; [| discriminate H].
  destruct (rock_api_request_inv _ _ _ _ _ _ _ _ Hresult Hres) as (net & Hnet & ->).
  inv_bind_as H result_data w6 Hjson.
  apply response_json_inv in Hjson. destruct Hjson as [Hjson ->].
  inv_lift_as H song_paths Hpaths. inv_lift_as H song_url Hurl.
  inv_bind_as H u7 w7 Hdisplay.
  apply display_results_inv in Hdisplay. destruct Hdisplay as (lines & ->).
  apply try_except_Ret_inv in H. destruct H as [H | (e & w9 & _ & _ & H)].
  2: { inv_bind H Hp. discriminate H. }
  inv_bind_as H d w8 Hget. apply requests_get_value_inv in Hget.
  destruct Hget as (u & rest & -> & Hrest & ->).
  inv_bind_as H u9 w9 Hstatus. apply raise_for_status_inv in Hstatus. subst w9.
  inv_bind_as H u10 w10 Hwrite. apply write_file_inv in Hwrite. subst w10.
  inv_bind_as H u11 w11 Hsaved. apply print_inv in Hsaved. subst w11.
  injection H as <- <-.
  exists res, d, result_data, song_paths, u,
    (sonauto_request (Rock.API_KEY h) "GET" ("generations/" +:+ py_str task_id) NoBody).
  exists (trace w4), (map Print lines),
    [Print (nl +:+ "✅ Song saved to " +:+ abspath h ("rock_song_" +:+ py_str task_id +:+ ".ogg"))].
  split.
  { unfold extend, set_files, download_request. cbn [trace network files].
    rewrite <- !app_assoc. reflexivity. }
  split; [apply requested_prints |]. split; [reflexivity |].
  split; [exact Hjson |]. split; [exact Hpaths |]. split; [exact Hurl |].
  unfold extend, set_files. cbn [files]. apply lookup_insert_eq.
Qed.

Lemma telegram_saved h recipient occasion message style w song w' :
  Telegram.generate_custom_song h recipient occasion message style w = (Ret (Some song), w') ->
  saved_from_first_url w' (Telegram.song_local_path song).
Proof.
  unfold Telegram.generate_custom_song. intros H.
  inv_bind_as H u0 w0 Hp0.
  apply try_except_Ret_inv in H. destruct H as [H | (e & w9 & _ & _ & H)].
  2: { inv_bind H Hp. discriminate H. }
  cbn zeta in H.
  inv_bind_as H response w1 Hsubmit.
  inv_bind_as H u2 w2 Hstatus.
  inv_bind_as H data w3 Hdata. inv_lift_as H task_id Htask.
  inv_bind_as H u4 w4 Hstarted. inv_bind_as H succeeded w5 Hpoll.
  destruct succeeded; [| discriminate H].
  inv_bind_as H res w6 Hresult. apply requests_request_inv in Hresult.
  destruct Hresult as (net & Hnet & ->).
  inv_bind_as H result_data w7 Hjson.
  apply response_json_inv in Hjson. destruct Hjson as [Hjson ->].
  inv_lift_as H song_paths Hpaths. inv_lift_as H song_url Hurl. inv_lift_as H lyrics Hlyrics.
  inv_bind_as H u8 w8 Hp1. apply print_inv in Hp1. subst w8.
  inv_bind_as H u9 w9 Hp2. apply print_inv in Hp2. subst w9.
  inv_bind_as H u10 w10 Hp3. apply print_inv in Hp3. subst w10.
  inv_bind_as H u11 w11 Hopen. apply write_file_inv in Hopen. subst w11.
  inv_bind_as H d w12 Hget. apply requests_get_value_inv in Hget.
  destruct Hget as (u & rest & -> & Hrest & ->).
  inv_bind_as H u13 w13 Hwrite. apply write_file_inv in Hwrite. subst w13.
  inv_bind_as H u14 w14 Hsaved. apply print_inv in Hsaved. subst w14.
  injection H as <- <-. cbn [Telegram.song_local_path].
  exists res, d, result_data, song_paths, u. eexists. exists (trace w5). eexists [_; _; _], [_].
  split.
  { unfold extend, set_files, download_request. cbn [trace network files].
    rewrite <- !app_assoc. reflexivity. }
  split; [reflexivity |]. split; [reflexivity |].
  split; [exact Hjson |]. split; [exact Hpaths |]. split; [exact Hurl |].
  unfold extend, set_files. cbn [files]. apply lookup_insert_eq.
Qed.

Lemma transition_saved h audio_path section_start section_end w f w' :
  Transition.create_transition h audio_path section_start section_end w = (Ret (Some f), w') ->
  saved_from_first_url w' f.
Proof.
  unfold Transition.create_transition. intros H.
  inv_lift_as H shown_start Hs. inv_lift_as H shown_end He.
  inv_bind_as H u0 w0 Hp0. inv_bind_as H upload w1 Hupload.
  destruct upload as [path |]; [| discriminate H].
  inv_bind_as H audio_base64 w2 Hb64.
  inv_bind_as H response w3 Hsubmit.
  destruct (truthy response) as [r |] eqn:Hr; [| discriminate H].
  inv_bind_as H data w4 Hdata. inv_lift_as H task_id Htask.
  inv_bind_as H u5 w5 Hstarted. inv_bind_as H status w6 Hpoll.
  destruct (String.eqb status "FAILURE").
  { inv_bind H Herr. inv_bind H Hreport. discriminate H. }
  inv_bind_as H result w7 Hresult.
  destruct (truthy result) as [res |] eqn:Hres; [| discriminate H].
  destruct (transition_api_request_inv _ _ _ _ _ _ _ _ Hresult Hres) as (net & Hnet & ->).
  inv_bind_as H result_data w8 Hjson.
  apply response_json_inv in Hjson. destruct Hjson as [Hjson ->].
  inv_lift_as H song_paths Hpaths. inv_lift_as H song_url Hurl.
  apply try_except_Ret_inv in H. destruct H as [H | (e & w9 & _ & _ & H)].
  2: { inv_bind H Hp. discriminate H. }
  inv_bind_as H d w9 Hget. apply requests_get_value_inv in Hget.
  destruct Hget as (u & rest & -> & Hrest & ->).
  inv_bind_as H u10 w10 Hstatus. apply raise_for_status_inv in Hstatus. subst w10.
  inv_bind_as H u11 w11 Hwrite. apply write_file_inv in Hwrite. subst w11.
  inv_bind_as H u12 w12 Hsaved. apply print_inv in Hsaved. subst w12.
  injection H as <- <-.
  exists res, d, result_data, song_paths, u. eexists. exists (trace w6), []. eexists [_].
  split.
  { unfold extend, set_files, download_request. cbn [trace network files app].
    rewrite <- !app_assoc. reflexivity. }
  split; [reflexivity |]. split; [reflexivity |].
  split; [exact Hjson |]. split; [exact Hpaths |]. split; [exact Hurl |].
  unfold extend, set_files. cbn [files]. apply lookup_insert_eq.
Qed.



(** ** The failure diagnostic *)

Lemma log_extend e es net w : log e (extend es net w) = extend (es ++ [e]) net w.
Proof. unfold log, extend. cbn [network files trace]. rewrite <- app_assoc. reflexivity. Qed.

Lemma rock_failure_diagnostic (h : host) (w w2 : world) (submit er : Response)
    (net rest : list exchange) (data task_id : json) (members : list (string * json)) :
  String.eqb (Rock.API_KEY h) "your_sonauto_api_key" = false ->
  network w = Answered submit :: net -> ok submit = true ->
  json_body submit = Some data -> dict_get data "task_id" JNull = inr task_id ->
  Rock.poll_status h task_id (rock_submitted h submit task_id net w) = (Ret "FAILURE", w2) ->
  network w2 = Answered er :: rest -> ok er = true ->
  json_body er = Some (JObj members) -> assoc "error_message" members = None ->
  Rock.generate_rock_song h w
  = (Ret None,
     extend [Http (sonauto_request (Rock.API_KEY h) "GET" ("generations/" +:+ py_str task_id) NoBody)
               (Answered er);
             Print ("❌ Generation failed: " +:+ rock_placeholder)] rest w2).
Proof.
  intros Hkey Hnet Hok Hdata Htask Hpoll Hnet2 Hok2 Hjson Hmiss.
  unfold Rock.generate_rock_song. rewrite Hkey.
  erewrite bind_Ret; [| rewrite rock_api_request_eq, Hnet; cbn zeta; rewrite Hok; reflexivity].
  rewrite (truthy_ok _ Hok).
  erewrite bind_Ret; [| unfold response_json; rewrite Hdata; reflexivity].
  rewrite Htask, lift_inr, bind_ret.
  erewrite bind_Ret; [| rewrite print_eq, log_extend; reflexivity].
  erewrite bind_Ret; [| exact Hpoll].
  cbn [String.eqb Ascii.eqb Bool.eqb].
  erewrite bind_Ret; [| rewrite rock_api_request_eq, Hnet2; cbn zeta; rewrite Hok2; reflexivity].
  rewrite (truthy_ok _ Hok2).
  erewrite bind_Ret.
  2: { erewrite bind_Ret; [| unfold response_json; rewrite Hjson; reflexivity].
       cbn [dict_get]. rewrite Hmiss, lift_inr, bind_ret. apply print_eq. }
  unfold ret, extend, log. cbn [network files trace]. rewrite <- !app_assoc. reflexivity.
Qed.

Lemma song_poll_failure hdrs t (rs : list Response) (fail er : Response)
    (members : list (string * json)) (rest : list exchange) (w : world) :
  network w = map Answered rs ++ Answered fail :: Answered er :: rest ->
  Forall (fun r => terminal (status_of r) = false) rs ->
  status_of fail = "FAILURE" ->
  json_body er = Some (JObj members) -> assoc "error_message" members = None ->
  exists pre,
    Telegram.song_poll hdrs t w
    = (Ret false,
       {| network := rest; files := files w;
          trace := pre ++ [Http (song_error_request hdrs t) (Answered er);
                           Print ("❌ Song generation failed: " +:+ telegram_placeholder)] |}).
Proof.
  intros Hnet Hrs Hfail Hjson Hmiss. unfold Telegram.song_poll.
  destruct (song_loop_pending hdrs t rs Hrs None w (Answered fail :: Answered er :: rest)
              (S (S (S (length rest)))) Hnet) as (prev' & es & Heq & _).
  replace (S (length (network w))) with (length rs + S (S (S (length rest))))%nat
    by (rewrite Hnet, length_app, length_map; cbn [length]; lia).
  rewrite Heq, song_loop_S. cbn [extend network]. rewrite Hfail.
  cbn [String.eqb Ascii.eqb Bool.eqb]. rewrite song_failure_eq. cbn [extend network].
  rewrite Hjson. cbn [dict_get]. rewrite Hmiss.
  eexists. unfold extend. cbn [files trace py_str]. reflexivity.
Qed.

Lemma telegram_failure_diagnostic (h : host) (recipient occasion message style : string)
    (w : world) (submit fail er : Response) (rs : list Response) (rest : list exchange)
    (data task_id : json) (members : list (string * json)) :
  network w = Answered submit :: map Answered rs ++ Answered fail :: Answered er :: rest ->
  ok submit = true ->
  json_body submit = Some data -> dict_get data "task_id" JNull = inr task_id ->
  Forall (fun r => terminal (status_of r) = false) rs ->
  status_of fail = "FAILURE" ->
  json_body er = Some (JObj members) -> assoc "error_message" members = None ->
  exists pre,
    Telegram.generate_custom_song h recipient occasion message style w
    = (Ret None,
       {| network := rest; files := files w;
          trace := pre ++ [Http (song_error_request (bearer (Telegram.SONAUTO_API_KEY h)) task_id)
                             (Answered er);
                           Print ("❌ Song generation failed: " +:+ telegram_placeholder)] |}).
Proof.
  intros Hnet Hok Hdata Htask Hrs Hfail Hjson Hmiss.
  unfold Telegram.generate_custom_song.
  erewrite bind_Ret; [| apply print_eq].
  set (w1 := log (Print "🎵 Generating custom song...") w).
  set (rq := {| method := "POST"; url := Telegram.SONAUTO_BASE_URL +:+ "/generations";
                headers := bearer (Telegram.SONAUTO_API_KEY h);
                body := GenerationBody
                          ("A " +:+ style +:+ " song for " +:+ recipient +:+ "'s " +:+ occasion
                           +:+ ". The song should mention that " +:+ message) 1 |}).
  set (w2 := extend [Http rq (Answered submit);
                     Print ("Song generation started with task ID: " +:+ py_str task_id)]
               (map Answered rs ++ Answered fail :: Answered er :: rest) w1).
  destruct (song_poll_failure (bearer (Telegram.SONAUTO_API_KEY h)) task_id rs fail er members rest w2
              eq_refl Hrs Hfail Hjson Hmiss) as (pre & Hpoll).
  exists pre.
  erewrite try_except_Ret; [reflexivity |].
  cbn zeta.
  erewrite bind_Ret;
    [| unfold requests_request; change (network w1) with (network w); rewrite Hnet; reflexivity].
  erewrite bind_Ret; [| apply ok_raise_for_status; exact Hok].
  erewrite bind_Ret; [| unfold response_json; rewrite Hdata; reflexivity].
  rewrite Htask, lift_inr, bind_ret.
  erewrite bind_Ret.
  2: { rewrite print_eq. fold rq.
       change (log (Http rq (Answered submit))
                 (set_network (map Answered rs ++ Answered fail :: Answered er :: rest) w1))
         with (extend [Http rq (Answered submit)]
                 (map Answered rs ++ Answered fail :: Answered er :: rest) w1).
       rewrite log_extend. reflexivity. }
  erewrite bind_Ret; [| exact Hpoll].
  reflexivity.
Qed.

(** C5. In a run that reaches the terminal status ["FAILURE"] and whose
    fetched result is a JSON object without an [error_message] key, the
    script returns normally (no exception escapes or is caught) and the
    line it prints last is its failure diagnostic followed by its
    placeholder, a text that is not [None]: for the rock script, with any
    way for [poll_status] to return ["FAILURE"]; for
    [generate_custom_song], when the poll after any number of non-terminal
    statuses reads ["FAILURE"]. *)
Theorem failure_without_message (h : host) (w : world) (submit er : Response)
    (rest : list exchange) (data task_id : json) (members : list (string * json)) :
  ok submit = true ->
  json_body submit = Some data -> dict_get data "task_id" JNull = inr task_id ->
  json_body er = Some (JObj members) -> assoc "error_message" members = None ->
  rock_placeholder <> "None" /\ telegram_placeholder <> "None"
  /\ (forall net w2,
        String.eqb (Rock.API_KEY h) "your_sonauto_api_key" = false ->
        network w = Answered submit :: net ->
        Rock.poll_status h task_id (rock_submitted h submit task_id net w) = (Ret "FAILURE", w2) ->
        network w2 = Answered er :: rest -> ok er = true ->
        Rock.generate_rock_song h w
        = (Ret None,
           extend [Http (sonauto_request (Rock.API_KEY h) "GET"
                           ("generations/" +:+ py_str task_id) NoBody) (Answered er);
                   Print ("❌ Generation failed: " +:+ rock_placeholder)] rest w2))
  /\ (forall recipient occasion message style rs fail,
        network w = Answered submit :: map Answered rs ++ Answered fail :: Answered er :: rest ->
        Forall (fun r => terminal (status_of r) = false) rs ->
        status_of fail = "FAILURE" ->
        exists pre,
          Telegram.generate_custom_song h recipient occasion message style w
          = (Ret None,
             {| network := rest; files := files w;
                trace := pre ++ [Http (song_error_request (bearer (Telegram.SONAUTO_API_KEY h)) task_id)
                                   (Answered er);
                                 Print ("❌ Song generation failed: " +:+ telegram_placeholder)] |})).
Proof.
  intros Hok Hdata Htask Hjson Hmiss.
  split; [discriminate |]. split; [discriminate |]. split.
  - intros net w2 Hkey Hnet Hpoll Hnet2 Hok2.
    eapply rock_failure_diagnostic; eassumption.
  - intros recipient occasion message style rs fail Hnet Hrs Hfail.
    eapply telegram_failure_diagnostic; eassumption.
Qed.

(** A run for C5: the rock script on a job that fails, with no
    [error_message] in the result. *)
Lemma failure_without_message_witness :
  Rock.generate_rock_song sample_host failure_run
  = (Ret None,
     extend [Http (sonauto_request (Rock.API_KEY sample_host) "GET"
                     ("generations/" +:+ py_str (JStr "T1")) NoBody)
               (Answered detail_without_message);
             Print ("❌ Generation failed: " +:+ rock_placeholder)] []
       (snd (Rock.poll_status sample_host (JStr "T1")
               (rock_submitted sample_host submitted_T1 (JStr "T1")
                  [Answered (status_reply "PENDING"); Answered (status_reply "FAILURE");
                   Answered detail_without_message] failure_run)))).
Proof.
  apply (proj1 (proj2 (proj2
           (failure_without_message sample_host failure_run submitted_T1 detail_without_message []
              (JObj [("task_id", JStr "T1")]) (JStr "T1") [("id", JStr "T1")]
              eq_refl eq_refl eq_refl eq_refl eq_refl)))
           [Answered (status_reply "PENDING"); Answered (status_reply "FAILURE");
            Answered detail_without_message]).
  - reflexivity.
  - reflexivity.
  - etransitivity; [apply surjective_pairing |]. f_equal; vm_compute; reflexivity.
  - vm_compute; reflexivity.
  - reflexivity.
Defined.

(** ** Adequacy of the fuel

    Each loop is given one unit of fuel more than there are exchanges left,
    and every iteration uses up an exchange: a loop is left waiting only
    when the script is exhausted, never because the fuel ran out. *)

Lemma song_loop_starved hdrs t fuel prev w :
  (length (network w) < fuel)%nat ->
  fst (Telegram.song_poll_loop fuel hdrs t prev w) = Starved ->
  network (snd (Telegram.song_poll_loop fuel hdrs t prev w)) = [].
Proof.
  revert prev w. induction fuel as [| fuel IH]; intros prev w Hlt; [lia |].
  rewrite song_loop_S. destruct (network w) as [| [msg | r] net] eqn:E; cbn [fst snd].
  - intros _. exact E.
  - discriminate.
  - destruct (String.eqb (status_of r) "SUCCESS"); [discriminate |].
    destruct (String.eqb (status_of r) "FAILURE").
    + rewrite song_failure_eq. cbn [extend network].
      destruct net as [| [msg | e] net']; cbn [fst snd]; [reflexivity | discriminate |].
      destruct (json_body e) as [d |]; [| discriminate].
      destruct (dict_get d "error_message" (JStr "Unknown error")); discriminate.
    + apply IH. cbn [extend network]. cbn [length] in Hlt. lia.
Qed.

Lemma video_loop_starved h job fuel w :
  (length (network w) < fuel)%nat ->
  fst (Telegram.video_poll_loop h fuel job w) = Starved ->
  network (snd (Telegram.video_poll_loop h fuel job w)) = [].
Proof.
  revert w. induction fuel as [| fuel IH]; intros w Hlt; [lia |].
  rewrite video_loop_S. destruct (network w) as [| [msg | r] net] eqn:E; cbn [fst snd].
  - intros _. exact E.
  - discriminate.
  - destruct (json_body r) as [d |]; [| discriminate].
    destruct (dict_get d "status" JNull) as [e | st]; [discriminate |].
    destruct (json_is st "pending"); [| discriminate].
    apply IH. cbn [extend network]. cbn [length] in Hlt. lia.
Qed.

Lemma polling_waits_only_for_the_network (h : host) (hdrs : list (string * string))
    (task_id : json) (w : world) :
  (fst (Rock.poll_status h task_id w) = Starved ->
     network (snd (Rock.poll_status h task_id w)) = [])
  /\ (fst (Transition.poll_status h task_id w) = Starved ->
        network (snd (Transition.poll_status h task_id w)) = [])
  /\ (fst (Telegram.song_poll hdrs task_id w) = Starved ->
        network (snd (Telegram.song_poll hdrs task_id w)) = [])
  /\ (fst (Telegram.video_poll h task_id w) = Starved ->
        network (snd (Telegram.video_poll h task_id w)) = []).
Proof.
  split; [| split; [| split]].
  - apply (loop_starved (fun fuel => Rock.poll_loop h fuel task_id) _ _ (rock_loop_S h task_id)). lia.
  - apply (loop_starved (fun fuel => Transition.poll_loop h fuel task_id) _ _
             (transition_loop_S h task_id)). lia.
  - apply song_loop_starved. lia.
  - apply video_loop_starved. lia.
Qed.

(** * Further properties of the scripts *)

(** ** What a computation adds to the trace *)

Section Emits.

Variable E : event -> Prop.

Lemma emits_ret {A : Type} (a : A) : emits E (ret a).
Proof. intros w. exists []. cbn. rewrite app_nil_r. auto. Qed.

Lemma emits_raise {A : Type} (e : exn) : emits E (@raise A e).
Proof. intros w. exists []. cbn. rewrite app_nil_r. auto. Qed.

Lemma emits_starve {A : Type} : emits E (@starve A).
Proof. intros w. exists []. cbn. rewrite app_nil_r. auto. Qed.

Lemma emits_lift {A : Type} (r : result A) : emits E (lift r).
Proof. destruct r; [apply emits_raise | apply emits_ret]. Qed.

Lemma emits_bind {A B : Type} (m : M A) (k : A -> M B) :
  emits E m -> (forall a, emits E (k a)) -> emits E (bind m k).
Proof.
  intros Hm Hk w. unfold bind. destruct (Hm w) as (n1 & H1 & F1).
  destruct (m w) as [[a | e |] w1]; cbn [snd] in H1.
  - destruct (Hk a w1) as (n2 & H2 & F2). exists (n1 ++ n2).
    rewrite H2, H1, app_assoc. split; [reflexivity | apply Forall_app; auto].
  - exists n1. auto.
  - exists n1. auto.
Qed.

Lemma emits_try_except {A : Type} (m : M A) c (hd : exn -> M A) :
  emits E m -> (forall e, emits E (hd e)) -> emits E (try_except m c hd).
Proof.
  intros Hm Hh w. unfold try_except. destruct (Hm w) as (n1 & H1 & F1).
  destruct (m w) as [[a | e |] w1]; cbn [snd] in H1; try (exists n1; auto; fail).
  destruct (c e); [| exists n1; auto].
  destruct (Hh e w1) as (n2 & H2 & F2). exists (n1 ++ n2).
  rewrite H2, H1, app_assoc. split; [reflexivity | apply Forall_app; auto].
Qed.

Lemma emits_print line : E (Print line) -> emits E (print line).
Proof. intros He w. exists [Print line]. cbn. auto. Qed.

Lemma emits_sleep n : E (Sleep n) -> emits E (sleep n).
Proof. intros He w. exists [Sleep n]. cbn. auto. Qed.

Lemma emits_requests_request rq :
  (forall x, E (Http rq x)) -> emits E (requests_request rq).
Proof.
  intros He w. unfold requests_request.
  destruct (network w) as [| [msg | r] net].
  - exists []. cbn. rewrite app_nil_r. auto.
  - exists [Http rq (Refused msg)]. cbn. auto.
  - exists [Http rq (Answered r)]. cbn. auto.
Qed.

Lemma emits_requests_get_value v hdrs :
  (forall u x, E (Http {| method := "GET"; url := u; headers := hdrs; body := NoBody |} x)) ->
  emits E (requests_get_value v hdrs).
Proof.
  intros He. destruct v; try apply emits_raise.
  apply emits_requests_request. apply He.
Qed.

Lemma emits_raise_for_status u r : emits E (raise_for_status u r).
Proof.
  unfold raise_for_status. destruct (http_error_msg u r); [apply emits_raise | apply emits_ret].
Qed.

Lemma emits_response_json r : emits E (response_json r).
Proof. unfold response_json. destruct (json_body r); [apply emits_ret | apply emits_raise]. Qed.

Lemma emits_write_file path data : emits E (write_file path data).
Proof. intros w. exists []. cbn. rewrite app_nil_r. auto. Qed.

Lemma emits_read_file path : emits E (read_file path).
Proof.
  intros w. exists []. unfold read_file. destruct (files w !! path); cbn; rewrite app_nil_r; auto.
Qed.

End Emits.

Ltac emits_step :=
  match goal with
  | |- emits _ (bind _ _) => apply emits_bind; [| intros ?]
  | |- emits _ (try_except _ _ _) => apply emits_try_except; [| intros ?]
  | |- emits _ (ret _) => apply emits_ret
  | |- emits _ (raise _) => apply emits_raise
  | |- emits _ starve => apply emits_starve
  | |- emits _ (lift _) => apply emits_lift
  | |- emits _ (print _) => apply emits_print; exact I
  | |- emits _ (sleep _) => apply emits_sleep; exact I
  | |- emits _ (write_file _ _) => apply emits_write_file
  | |- emits _ (read_file _) => apply emits_read_file
  | |- emits _ (response_json _) => apply emits_response_json
  | |- emits _ (raise_for_status _ _) => apply emits_raise_for_status
  | |- emits _ (match ?x with _ => _ end) => destruct x
  end.

Lemma starts_with_app (p s : string) : starts_with p (p +:+ s) = true.
Proof.
  unfold starts_with. induction p as [| a p IH]; [destruct s; reflexivity |].
  change (String a p +:+ s) with (String a (p +:+ s)). cbn [String.prefix].
  destruct (ascii_dec a a); [exact IH | congruence].
Qed.

Lemma sonauto_request_home key m e b : to_sonauto key (sonauto_request key m e b).
Proof. split; [reflexivity |]. exact (starts_with_app "https://api.sonauto.ai/v1/" e). Qed.

Create HintDb emits.

Ltac emits_auto :=
  repeat first
    [ solve [auto with emits]
    | progress cbv zeta
    | match goal with
      | |- emits _ (requests_request _) =>
          apply emits_requests_request; intros ?; cbn [keys_confined]; auto with emits
      | |- emits _ (requests_get_value _ _) =>
          apply emits_requests_get_value; intros ? ?; left; reflexivity
      end
    | emits_step ].

(** *** [rock_song_generator.py] *)

Lemma rock_home h rq :
  to_sonauto (Rock.API_KEY h) rq ->
  anonymous rq \/ Exists (fun service => service rq) [to_sonauto (Rock.API_KEY h)].
Proof. intros H. right. constructor. exact H. Qed.

Lemma emits_rock_api_request h m e b :
  emits (keys_confined [to_sonauto (Rock.API_KEY h)]) (Rock.api_request h m e b).
Proof.
  unfold Rock.api_request. emits_auto.
  apply rock_home. exact (sonauto_request_home (Rock.API_KEY h) m e b).
Qed.
#[local] Hint Resolve emits_rock_api_request : emits.

Lemma emits_rock_poll_loop h fuel t prev :
  emits (keys_confined [to_sonauto (Rock.API_KEY h)]) (Rock.poll_loop h fuel t prev).
Proof.
  revert prev. induction fuel as [| fuel IH]; intros prev; cbn [Rock.poll_loop]; emits_auto.
Qed.

Lemma emits_rock_poll_status h t :
  emits (keys_confined [to_sonauto (Rock.API_KEY h)]) (Rock.poll_status h t).
Proof. intros w. apply emits_rock_poll_loop. Qed.
#[local] Hint Resolve emits_rock_poll_status : emits.

Lemma emits_display_results E r :
  (forall e, offline e -> E e) -> emits E (Rock.display_results r).
Proof.
  intros HE. unfold Rock.display_results.
  repeat first [ apply emits_print; apply HE; exact I | emits_step ].
Qed.

Lemma emits_rock_main h :
  emits (keys_confined [to_sonauto (Rock.API_KEY h)]) (Rock.main h).
Proof.
  unfold Rock.main, Rock.generate_rock_song. emits_auto.
  all: apply emits_display_results; intros [] He; first [exact I | destruct He].
Qed.

(** *** [transition_generator.py] *)

Lemma transition_home h rq :
  to_sonauto (transition_key h) rq ->
  anonymous rq \/ Exists (fun service => service rq) [to_sonauto (transition_key h)].
Proof. intros H. right. constructor. exact H. Qed.

Lemma emits_transition_api_request h m e b :
  emits (keys_confined [to_sonauto (transition_key h)]) (Transition.api_request h m e b).
Proof.
  unfold Transition.api_request. emits_auto.
  apply transition_home. exact (sonauto_request_home (transition_key h) m e b).
Qed.
#[local] Hint Resolve emits_transition_api_request : emits.

Lemma emits_transition_poll_loop h fuel t prev :
  emits (keys_confined [to_sonauto (transition_key h)]) (Transition.poll_loop h fuel t prev).
Proof.
  revert prev. induction fuel as [| fuel IH]; intros prev; cbn [Transition.poll_loop]; emits_auto.
Qed.

Lemma emits_transition_poll_status h t :
  emits (keys_confined [to_sonauto (transition_key h)]) (Transition.poll_status h t).
Proof. intros w. apply emits_transition_poll_loop. Qed.
#[local] Hint Resolve emits_transition_poll_status : emits.

Lemma emits_extract_info E h video outtmpl :
  E (Download video) -> emits E (Transition.extract_info h video outtmpl).
Proof.
  intros He w. exists [Download video]. unfold Transition.extract_info.
  destruct (youtube h video) as [[info mp3] |]; cbn; auto.
Qed.

Lemma emits_rename E src dst : emits E (Transition.rename src dst).
Proof.
  intros w. exists []. unfold Transition.rename.
  destruct (files w !! src); cbn; rewrite app_nil_r; auto.
Qed.

Lemma emits_with_TemporaryDirectory E h {A : Type} (block : string -> M A) :
  emits E (block (tmpdir h)) -> emits E (Transition.with_TemporaryDirectory h block).
Proof.
  intros Hb w. destruct (Hb w) as (new & Ht & HF). exists new.
  unfold Transition.with_TemporaryDirectory.
  destruct (block (tmpdir h) w) as [[a | e |] w1]; cbn in *; auto.
Qed.

Ltac emits_files :=
  repeat first
    [ apply emits_extract_info; exact I
    | apply emits_rename
    | apply emits_with_TemporaryDirectory
    | progress unfold Transition.from_file, Transition.export, Transition.getsize,
        Transition.megabytes, Transition.encode_audio_base64
    | emits_auto ].

Lemma emits_transition_main h cmdline :
  emits (keys_confined [to_sonauto (transition_key h)]) (Transition.main h cmdline).
Proof.
  unfold Transition.main, Transition.download_youtube_audio, Transition.create_concatenated_audio,
    Transition.create_transition, Transition.reduce_if_large.
  emits_files.
Qed.

(** *** [singing_telegram.py] *)

Lemma telegram_sonauto h rq :
  to_sonauto (Telegram.SONAUTO_API_KEY h) rq ->
  anonymous rq \/ Exists (fun service => service rq) (telegram_services h).
Proof. intros H. right. constructor. exact H. Qed.

Lemma telegram_lemon_slice h rq :
  to_lemon_slice (Telegram.LEMON_SLICE_API_KEY h) rq ->
  anonymous rq \/ Exists (fun service => service rq) (telegram_services h).
Proof. intros H. right. constructor 2. constructor. exact H. Qed.

Lemma emits_song_poll_loop h fuel t prev :
  emits (keys_confined (telegram_services h))
    (Telegram.song_poll_loop fuel (bearer (Telegram.SONAUTO_API_KEY h)) t prev).
Proof.
  revert prev. induction fuel as [| fuel IH]; intros prev; cbn [Telegram.song_poll_loop]; emits_auto.
  all: apply telegram_sonauto; split; [reflexivity |].
  - exact (starts_with_app "https://api.sonauto.ai/v1/" ("generations/status/" +:+ py_str t)).
  - exact (starts_with_app "https://api.sonauto.ai/v1/" ("generations/" +:+ py_str t)).
Qed.

Lemma emits_song_poll h t :
  emits (keys_confined (telegram_services h))
    (Telegram.song_poll (bearer (Telegram.SONAUTO_API_KEY h)) t).
Proof. intros w. apply emits_song_poll_loop. Qed.
#[local] Hint Resolve emits_song_poll : emits.

Lemma emits_video_poll_loop h fuel job :
  emits (keys_confined (telegram_services h)) (Telegram.video_poll_loop h fuel job).
Proof.
  induction fuel as [| fuel IH]; cbn [Telegram.video_poll_loop]; emits_auto.
  apply telegram_lemon_slice. split.
  - exact (starts_with_app "https://lemonslice.com/api/v2/" ("generations/" +:+ py_str job)).
  - repeat constructor.
Qed.

Lemma emits_video_poll h job :
  emits (keys_confined (telegram_services h)) (Telegram.video_poll h job).
Proof. intros w. apply emits_video_poll_loop. Qed.
#[local] Hint Resolve emits_video_poll : emits.

Lemma emits_telegram_main h cmdline :
  emits (keys_confined (telegram_services h)) (Telegram.main h cmdline).
Proof.
  unfold Telegram.main, Telegram.create_singing_telegram, Telegram.check_api_keys,
    Telegram.generate_custom_song, Telegram.create_singing_video.
  emits_auto.
  - apply telegram_sonauto. split; [reflexivity |].
    exact (starts_with_app "https://api.sonauto.ai/v1/" "generations").
  - apply telegram_sonauto. split; [reflexivity |].
    exact (starts_with_app "https://api.sonauto.ai/v1/" ("generations/" +:+ py_str _)).
  - apply telegram_lemon_slice. split.
    + exact (starts_with_app "https://lemonslice.com/api/v2/" "generate").
    + repeat (constructor; [cbn; auto |]). constructor.
Qed.

(** X1. No script sends a key anywhere but to the service it belongs to.
    Whatever the answers and however the run ends, every request of the
    rock and the transition script either goes to
    [https://api.sonauto.ai/v1/...] with the Sonauto bearer headers or has
    no header at all (the downloads from the CDN); every request of the
    telegram script is of these two kinds or goes to
    [https://lemonslice.com/api/v2/...] with headers that hold only the
    Lemon Slice key and content types.  The trace of a run only grows. *)
Theorem keys_stay_with_their_service (h : host) (telegram : option Telegram.args)
    (transition : option Transition.args) :
  emits (keys_confined [to_sonauto (Rock.API_KEY h)]) (Rock.main h)
  /\ emits (keys_confined (telegram_services h)) (Telegram.main h telegram)
  /\ emits (keys_confined [to_sonauto (transition_key h)]) (Transition.main h transition).
Proof.
  split; [apply emits_rock_main |]. split; [apply emits_telegram_main |].
  apply emits_transition_main.
Qed.

(** ** Which exceptions escape *)

Section RaisesOnly.

Variable X : exn -> Prop.

Lemma raises_only_ret {A : Type} (a : A) : raises_only X (ret a).
Proof. intros w e. discriminate. Qed.

Lemma raises_only_starve {A : Type} : raises_only X (@starve A).
Proof. intros w e. discriminate. Qed.

Lemma raises_only_raise {A : Type} (e : exn) : X e -> raises_only X (@raise A e).
Proof. intros He w e' [= <-]. exact He. Qed.

Lemma raises_only_lift {A : Type} (r : result A) :
  (forall e, r = inl e -> X e) -> raises_only X (lift r).
Proof. destruct r as [e | a]; intros He; [apply raises_only_raise; auto | apply raises_only_ret]. Qed.

Lemma raises_only_bind {A B : Type} (m : M A) (k : A -> M B) :
  raises_only X m -> (forall a, raises_only X (k a)) -> raises_only X (bind m k).
Proof.
  intros Hm Hk w e. unfold bind. specialize (Hm w).
  destruct (m w) as [[a | e' |] w1]; cbn [fst] in *.
  - apply Hk.
  - intros [= <-]. auto.
  - discriminate.
Qed.

Lemma raises_only_try_except {A : Type} (Y : exn -> Prop) (m : M A) c (hd : exn -> M A) :
  raises_only Y m ->
  (forall e, Y e -> c e = true -> raises_only X (hd e)) ->
  (forall e, Y e -> c e = false -> X e) ->
  raises_only X (try_except m c hd).
Proof.
  intros Hm Hh Hc w e. unfold try_except. specialize (Hm w).
  destruct (m w) as [[a | e' |] w1]; cbn [fst] in *; try discriminate.
  destruct (c e') eqn:Hce.
  - apply Hh; auto.
  - intros [= <-]. auto.
Qed.

Lemma raises_only_print line : raises_only X (print line).
Proof. intros w e. discriminate. Qed.

Lemma raises_only_sleep n : raises_only X (sleep n).
Proof. intros w e. discriminate. Qed.

Lemma raises_only_write_file path data : raises_only X (write_file path data).
Proof. intros w e. discriminate. Qed.

End RaisesOnly.

Lemma ordinary_requests_request rq : raises_only ordinary (requests_request rq).
Proof.
  intros w e. unfold requests_request. destruct (network w) as [| [msg | r] net]; try discriminate.
  intros [= <-]. reflexivity.
Qed.

Lemma ordinary_requests_get_value v hdrs : raises_only ordinary (requests_get_value v hdrs).
Proof.
  destruct v; try (apply raises_only_raise; reflexivity). apply ordinary_requests_request.
Qed.

Lemma ordinary_raise_for_status u r : raises_only ordinary (raise_for_status u r).
Proof.
  unfold raise_for_status. destruct (http_error_msg u r);
    [apply raises_only_raise; reflexivity | apply raises_only_ret].
Qed.

Lemma ordinary_response_json r : raises_only ordinary (response_json r).
Proof.
  unfold response_json. destruct (json_body r);
    [apply raises_only_ret | apply raises_only_raise; reflexivity].
Qed.

Lemma ordinary_dict_get d key v : raises_only ordinary (lift (dict_get d key v)).
Proof. destruct d; first [apply raises_only_ret | apply raises_only_raise; reflexivity]. Qed.

Lemma ordinary_getitem_key d key : raises_only ordinary (lift (getitem_key d key)).
Proof.
  destruct d; cbn [getitem_key]; try (apply raises_only_raise; reflexivity).
  destruct (assoc key members); [apply raises_only_ret | apply raises_only_raise; reflexivity].
Qed.

Lemma ordinary_getitem_index d i : raises_only ordinary (lift (getitem_index d i)).
Proof.
  apply raises_only_lift. intros e. unfold getitem_index.
  repeat match goal with
         | |- context [match ?x with _ => _ end] => destruct x
         end; intros [= <-]; reflexivity.
Qed.

Create HintDb raises.
#[local] Hint Resolve raises_only_ret raises_only_starve raises_only_print raises_only_sleep
  raises_only_write_file ordinary_requests_request ordinary_requests_get_value
  ordinary_raise_for_status ordinary_response_json ordinary_dict_get ordinary_getitem_key
  ordinary_getitem_index : raises.

Ltac raises_auto :=
  repeat first
    [ solve [auto with raises]
    | progress cbv zeta
    | match goal with
      | |- raises_only _ (bind _ _) => apply raises_only_bind; [| intros ?]
      | |- raises_only _ (match ?x with _ => _ end) => destruct x
      end ].

Lemma ordinary_song_poll_loop fuel hdrs t prev :
  raises_only ordinary (Telegram.song_poll_loop fuel hdrs t prev).
Proof.
  revert prev. induction fuel as [| fuel IH]; intros prev; cbn [Telegram.song_poll_loop]; raises_auto.
Qed.

Lemma ordinary_song_poll hdrs t : raises_only ordinary (Telegram.song_poll hdrs t).
Proof. intros w. apply ordinary_song_poll_loop. Qed.

Lemma ordinary_video_poll_loop h fuel job :
  raises_only ordinary (Telegram.video_poll_loop h fuel job).
Proof. induction fuel as [| fuel IH]; cbn [Telegram.video_poll_loop]; raises_auto. Qed.

Lemma ordinary_video_poll h job : raises_only ordinary (Telegram.video_poll h job).
Proof. intros w. apply ordinary_video_poll_loop. Qed.

#[local] Hint Resolve ordinary_song_poll ordinary_video_poll : raises.

(** [except Exception] with a handler that only prints: nothing escapes. *)
Lemma caught_by_except_Exception {A : Type} (m : M A) (hd : exn -> M A) :
  raises_only ordinary m -> (forall e, never_raises (hd e)) ->
  never_raises (try_except m is_Exception hd).
Proof.
  intros Hm Hh. apply raises_only_try_except with (Y := ordinary).
  - exact Hm.
  - intros e _ _. apply Hh.
  - intros e He Hc. unfold ordinary in He. congruence.
Qed.

Lemma never_raises_generate_custom_song h r o m s :
  never_raises (Telegram.generate_custom_song h r o m s).
Proof.
  unfold Telegram.generate_custom_song, never_raises.
  apply raises_only_bind; [apply raises_only_print | intros _].
  apply caught_by_except_Exception; [raises_auto | intros e; unfold never_raises; raises_auto].
Qed.

Lemma never_raises_create_singing_video h song r o :
  never_raises (Telegram.create_singing_video h song r o).
Proof.
  unfold Telegram.create_singing_video, never_raises.
  apply raises_only_bind; [apply raises_only_print | intros _].
  apply caught_by_except_Exception; [raises_auto | intros e; unfold never_raises; raises_auto].
Qed.

Lemma never_raises_create_singing_telegram h r o m s :
  never_raises (Telegram.create_singing_telegram h r o m s).
Proof.
  unfold Telegram.create_singing_telegram, Telegram.check_api_keys, never_raises.
  repeat first
    [ apply never_raises_generate_custom_song
    | apply never_raises_create_singing_video
    | apply raises_only_bind; [| intros ?]
    | match goal with
      | |- raises_only _ (match ?x with _ => _ end) => destruct x
      end
    | solve [auto with raises] ].
Qed.

Lemma never_raises_weaken {A : Type} (X : exn -> Prop) (m : M A) :
  never_raises m -> raises_only X m.
Proof. intros H w e He. destruct (H w e He). Qed.

Lemma telegram_main_exits h cmdline :
  raises_only (fun e => e = SystemExit 1 \/ e = SystemExit 2) (Telegram.main h cmdline).
Proof.
  unfold Telegram.main. destruct cmdline as [a |].
  - apply raises_only_bind.
    + apply never_raises_weaken, never_raises_create_singing_telegram.
    + intros []; cbn [negb]; [apply raises_only_ret | apply raises_only_raise; auto].
  - apply raises_only_raise. auto.
Qed.


(** ** Which files are written *)

Lemma keeps_files_ret {A : Type} (a : A) : keeps_files (ret a).
Proof. intros w. reflexivity. Qed.

Lemma keeps_files_raise {A : Type} (e : exn) : keeps_files (@raise A e).
Proof. intros w. reflexivity. Qed.

Lemma keeps_files_starve {A : Type} : keeps_files (@starve A).
Proof. intros w. reflexivity. Qed.

Lemma keeps_files_lift {A : Type} (r : result A) : keeps_files (lift r).
Proof. destruct r; intros w; reflexivity. Qed.

Lemma keeps_files_print line : keeps_files (print line).
Proof. intros w. reflexivity. Qed.

Lemma keeps_files_sleep n : keeps_files (sleep n).
Proof. intros w. reflexivity. Qed.

Lemma keeps_files_requests_request rq : keeps_files (requests_request rq).
Proof.
  intros w. unfold requests_request. destruct (network w) as [| [msg | r] net]; reflexivity.
Qed.

Lemma keeps_files_requests_get_value v hdrs : keeps_files (requests_get_value v hdrs).
Proof.
  destruct v; try apply keeps_files_raise. apply keeps_files_requests_request.
Qed.

Lemma keeps_files_raise_for_status u r : keeps_files (raise_for_status u r).
Proof.
  unfold raise_for_status. destruct (http_error_msg u r); intros w; reflexivity.
Qed.

Lemma keeps_files_response_json r : keeps_files (response_json r).
Proof. unfold response_json. destruct (json_body r); intros w; reflexivity. Qed.

Lemma keeps_files_bind {A B : Type} (m : M A) (k : A -> M B) :
  keeps_files m -> (forall a, keeps_files (k a)) -> keeps_files (bind m k).
Proof.
  intros Hm Hk w. unfold bind. specialize (Hm w).
  destruct (m w) as [[a | e |] w1]; cbn [snd] in *; [| exact Hm | exact Hm].
  rewrite Hk. exact Hm.
Qed.

Lemma keeps_files_try_except {A : Type} (m : M A) c (hd : exn -> M A) :
  keeps_files m -> (forall e, keeps_files (hd e)) -> keeps_files (try_except m c hd).
Proof.
  intros Hm Hh w. unfold try_except. specialize (Hm w).
  destruct (m w) as [[a | e |] w1]; cbn [snd] in *; try exact Hm.
  destruct (c e); [rewrite Hh |]; exact Hm.
Qed.

Create HintDb files.
#[local] Hint Resolve keeps_files_ret keeps_files_raise keeps_files_starve keeps_files_lift
  keeps_files_print keeps_files_sleep keeps_files_requests_request keeps_files_requests_get_value
  keeps_files_raise_for_status keeps_files_response_json : files.

Ltac files_auto :=
  repeat first
    [ solve [auto with files]
    | progress cbv zeta
    | match goal with
      | |- keeps_files (bind _ _) => apply keeps_files_bind; [| intros ?]
      | |- keeps_files (try_except _ _ _) => apply keeps_files_try_except; [| intros ?]
      | |- keeps_files (match ?x with _ => _ end) => destruct x
      end ].

Lemma keeps_files_rock_api_request h m e b : keeps_files (Rock.api_request h m e b).
Proof. unfold Rock.api_request. files_auto. Qed.
#[local] Hint Resolve keeps_files_rock_api_request : files.

Lemma keeps_files_rock_poll_loop h fuel t prev : keeps_files (Rock.poll_loop h fuel t prev).
Proof.
  revert prev. induction fuel as [| fuel IH]; intros prev; cbn [Rock.poll_loop]; files_auto.
Qed.

Lemma keeps_files_rock_poll_status h t : keeps_files (Rock.poll_status h t).
Proof. intros w. apply keeps_files_rock_poll_loop. Qed.

Lemma keeps_files_display_results r : keeps_files (Rock.display_results r).
Proof. unfold Rock.display_results. files_auto. Qed.

#[local] Hint Resolve keeps_files_rock_poll_status keeps_files_display_results : files.

Lemma keeps_files_song_poll_loop fuel hdrs t prev :
  keeps_files (Telegram.song_poll_loop fuel hdrs t prev).
Proof.
  revert prev. induction fuel as [| fuel IH]; intros prev; cbn [Telegram.song_poll_loop]; files_auto.
Qed.

Lemma keeps_files_song_poll hdrs t : keeps_files (Telegram.song_poll hdrs t).
Proof. intros w. apply keeps_files_song_poll_loop. Qed.

Lemma keeps_files_video_poll_loop h fuel job : keeps_files (Telegram.video_poll_loop h fuel job).
Proof. induction fuel as [| fuel IH]; cbn [Telegram.video_poll_loop]; files_auto. Qed.

Lemma keeps_files_video_poll h job : keeps_files (Telegram.video_poll h job).
Proof. intros w. apply keeps_files_video_poll_loop. Qed.

#[local] Hint Resolve keeps_files_song_poll keeps_files_video_poll : files.

Lemma saves_keeps (m : M (option string)) : keeps_files m -> saves_on_success m.
Proof. intros H w. left. apply H. Qed.

Lemma saves_bind {A : Type} (m : M A) (k : A -> M (option string)) :
  keeps_files m -> (forall a, saves_on_success (k a)) -> saves_on_success (bind m k).
Proof.
  intros Hm Hk w. unfold bind. specialize (Hm w).
  destruct (m w) as [[a | e |] w1]; cbn [snd] in *; [| left; exact Hm | left; exact Hm].
  destruct (Hk a w1) as [H | (f & data & Hf & Hr & H)];
    [left | right; exists f, data; split; [exact Hf |]; split; [exact Hr |]];
    rewrite H, Hm; reflexivity.
Qed.

Lemma saves_try_except (m : M (option string)) c (hd : exn -> M (option string)) :
  saves_on_success m -> (forall e, keeps_files (hd e)) -> saves_on_success (try_except m c hd).
Proof.
  intros Hm Hh w. unfold try_except. specialize (Hm w).
  destruct (m w) as [[a | e |] w1]; cbn [fst snd] in *; try exact Hm.
  destruct Hm as [Hm | (f & data & _ & Hr & _)]; [| discriminate].
  left. destruct (c e); [rewrite Hh |]; exact Hm.
Qed.

Lemma saves_write (f : string) (data : list byte) (line : string) :
  f <> EmptyString ->
  saves_on_success (write_file f data ;;; print line ;;; ret (Some f)).
Proof. intros Hf w. right. exists f, data. split; [exact Hf |]. split; reflexivity. Qed.

Ltac saves_auto :=
  repeat first
    [ apply saves_write; discriminate
    | apply saves_keeps; solve [files_auto]
    | progress cbv zeta
    | match goal with
      | |- saves_on_success (bind _ _) => apply saves_bind; [solve [files_auto] | intros ?]
      | |- saves_on_success (try_except _ _ _) => apply saves_try_except; [| intros ?; solve [files_auto]]
      | |- saves_on_success (match ?x with _ => _ end) => destruct x
      end ].

Lemma saves_generate_rock_song h : saves_on_success (Rock.generate_rock_song h).
Proof. unfold Rock.generate_rock_song. saves_auto. Qed.

(** X3. The rock script writes a file only when it succeeds:
    [generate_rock_song] leaves the files as they were unless it returns a
    file name, and then that one file is all it wrote; so a run of the
    script that does not end with status 0 has written nothing. *)
Theorem rock_song_saved_only_on_success (h : host) :
  saves_on_success (Rock.generate_rock_song h)
  /\ forall w, fst (Rock.main h w) <> Ret tt -> files (snd (Rock.main h w)) = files w.
Proof.
  split; [apply saves_generate_rock_song |].
  intros w. unfold Rock.main, bind.
  destruct (saves_generate_rock_song h w) as [H | (f & data & Hf & Hr & H)].
  - destruct (Rock.generate_rock_song h w) as [[[[| a f] |] | e |] w1]; cbn [fst snd] in *;
      intros _; exact H.
  - destruct (Rock.generate_rock_song h w) as [[o | e |] w1]; cbn [fst snd] in *;
      try discriminate Hr.
    injection Hr as ->. destruct f as [| a f]; [congruence |]. cbn. congruence.
Qed.

(** A run for X3: the submission is refused, the script ends with status 1
    and no file. *)
Lemma rock_song_saved_only_on_success_witness :
  files (snd (Rock.main sample_host (world_of [Refused "unreachable"] ∅))) = ∅.
Proof.
  apply (proj2 (rock_song_saved_only_on_success sample_host)
           (world_of [Refused "unreachable"] ∅)).
  vm_compute. discriminate.
Defined.

(** X4. [generate_custom_song] opens its output file before it downloads
    the song.  When the job has succeeded and the result names a song URL,
    but the download is refused, the function reports the error and returns
    [None], and the file [telegram_song_<task id>.ogg] is left behind,
    empty. *)
Theorem refused_download_leaves_empty_song (h : host)
    (recipient occasion message style : string)
    (w : world) (submit success res : Response) (rs : list Response) (rest : list exchange)
    (data task_id rd song_paths : json) (u msg : string) :
  network w = Answered submit :: map Answered rs ++
              Answered success :: Answered res :: Refused msg :: rest ->
  ok submit = true ->
  json_body submit = Some data -> dict_get data "task_id" JNull = inr task_id ->
  Forall (fun r => terminal (status_of r) = false) rs ->
  status_of success = "SUCCESS" ->
  json_body res = Some rd ->
  getitem_key rd "song_paths" = inr song_paths ->
  getitem_index song_paths 0 = inr (JStr u) ->
  exists w' pre,
    Telegram.generate_custom_song h recipient occasion message style w = (Ret None, w')
    /\ files w' = <["telegram_song_" +:+ py_str task_id +:+ ".ogg" := []]> (files w)
    /\ network w' = rest
    /\ trace w' = pre ++ [Http (download_request u) (Refused msg);
                          Print ("❌ Error during song generation: " +:+ msg)].
Proof.
  intros Hnet Hok Hdata Htask Hrs Hsucc Hres Hpaths Hurl.
  unfold Telegram.generate_custom_song.
  erewrite bind_Ret; [| apply print_eq].
  set (w1 := log (Print "🎵 Generating custom song...") w).
  set (rq := {| method := "POST"; url := Telegram.SONAUTO_BASE_URL +:+ "/generations";
                headers := bearer (Telegram.SONAUTO_API_KEY h);
                body := GenerationBody
                          ("A " +:+ style +:+ " song for " +:+ recipient +:+ "'s " +:+ occasion
                           +:+ ". The song should mention that " +:+ message) 1 |}).
  set (net2 := map Answered rs ++ Answered success :: Answered res :: Refused msg :: rest).
  set (w2 := log (Print ("Song generation started with task ID: " +:+ py_str task_id))
               (log (Http rq (Answered submit)) (set_network net2 w1))).
  destruct (song_exits_on_success (bearer (Telegram.SONAUTO_API_KEY h)) task_id rs success Hrs Hsucc
              w2 (Answered res :: Refused msg :: rest) eq_refl) as (w3 & Hpoll & Hnet3).
  assert (Hf3 : files w3 = files w).
  { change w3 with (snd (Ret true, w3)). rewrite <- Hpoll.
    rewrite (keeps_files_song_poll _ _ w2). reflexivity. }
  destruct rd as [| | | | | members]; try discriminate Hpaths.
  eexists _, _.
  erewrite try_except_caught; cycle 1.
  { cbn zeta.
       erewrite bind_Ret;
         [| unfold requests_request; change (network w1) with (network w); rewrite Hnet; reflexivity].
       erewrite bind_Ret; [| apply ok_raise_for_status; exact Hok].
       erewrite bind_Ret; [| unfold response_json; rewrite Hdata; reflexivity].
       rewrite Htask, lift_inr, bind_ret.
       erewrite bind_Ret; [| apply print_eq].
       fold rq net2 w2.
       rewrite (bind_Ret _ _ _ _ _ Hpoll).
       erewrite bind_Ret; [| unfold requests_request; rewrite Hnet3; reflexivity].
       erewrite bind_Ret; [| unfold response_json; rewrite Hres; reflexivity].
       rewrite Hpaths, lift_inr, bind_ret.
       rewrite Hurl, lift_inr, bind_ret.
       cbn [dict_get]. rewrite lift_inr, bind_ret.
       erewrite bind_Ret; [| apply print_eq].
       erewrite bind_Ret; [| apply print_eq].
       erewrite bind_Ret; [| apply print_eq].
       erewrite bind_Ret; [| apply write_file_eq].
       erewrite bind_Raise; [reflexivity |].
       unfold requests_get_value, requests_request. cbn [network set_files log set_network].
       reflexivity. }
  { reflexivity. }
  cbn [str_exn]. rewrite (bind_Ret _ _ _ _ tt (print_eq _ _)).
  unfold ret. split; [reflexivity |].
  cbn [files log set_files set_network network trace]. rewrite Hf3.
  split; [reflexivity |]. split; [reflexivity |].
  rewrite <- app_assoc. cbn [app]. reflexivity.
Qed.

(** A run for X4. *)
Lemma refused_download_leaves_empty_song_witness :
  exists w' pre,
    Telegram.generate_custom_song sample_host "Sarah" "birthday" "she loves hiking" "pop"
      refused_download_run = (Ret None, w')
    /\ files w' = <["telegram_song_T1.ogg" := []]> ∅
    /\ network w' = []
    /\ trace w' = pre ++ [Http (download_request "http://x/a.ogg") (Refused "Connection aborted.");
                          Print ("❌ Error during song generation: " +:+ "Connection aborted.")].
Proof.
  refine (refused_download_leaves_empty_song sample_host "Sarah" "birthday" "she loves hiking" "pop"
            refused_download_run submitted_T1 (status_reply "SUCCESS") song_document
            [status_reply "PENDING"] [] (JObj [("task_id", JStr "T1")]) (JStr "T1")
            (JObj [("song_paths", JArr [JStr "http://x/a.ogg"]); ("lyrics", JStr "la la")])
            (JArr [JStr "http://x/a.ogg"]) "http://x/a.ogg" "Connection aborted."
            _ _ _ _ _ _ _ _ _).
  - reflexivity.
  - reflexivity.
  - reflexivity.
  - reflexivity.
  - repeat constructor.
  - reflexivity.
  - reflexivity.
  - reflexivity.
  - reflexivity.
Defined.

(** ** [api_request] *)

Lemma api_request_cases (P : outcome (option Response) * world -> Prop) (w : world)
    (rq : request) (report : exchange -> list event) (run : outcome (option Response) * world) :
  run = match network w with
        | [] => (Starved, w)
        | x :: net =>
            match x with
            | Answered r =>
                if ok r then (Ret (Some r), extend [Http rq x] net w)
                else (Ret None, extend (Http rq x :: report x) net w)
            | Refused _ => (Ret None, extend (Http rq x :: report x) net w)
            end
        end ->
  (network w = [] -> P (Starved, w)) ->
  (forall r net, network w = Answered r :: net -> ok r = true ->
     P (Ret (Some r), extend [Http rq (Answered r)] net w)) ->
  (forall x net, network w = x :: net -> transport_failure x ->
     P (Ret None, extend (Http rq x :: report x) net w)) ->
  P run.
Proof.
  intros -> Hs Hr Hn. destruct (network w) as [| [msg | r] net]; auto.
  - apply Hn; [reflexivity | exact I].
  - destruct (ok r) eqn:Hok; [apply Hr | apply Hn]; auto.
Qed.

(** X5. [api_request] (rock and transition scripts) makes exactly one
    exchange and never lets an exception out: an answer whose status is no
    error is returned as it is; a refused exchange or an error status is
    reported on the console, first with the line [API Error: ...], and
    [None] is returned; the files are not touched; with no exchange left the
    call is still waiting. *)
Theorem api_request_answers_or_reports (h : host) (meth endpoint : string) (b : payload)
    (w : world) :
  answers_or_reports (sonauto_request (Rock.API_KEY h) meth endpoint b) w
    (Rock.api_request h meth endpoint b w)
  /\ answers_or_reports (sonauto_request (transition_key h) meth endpoint b) w
       (Transition.api_request h meth endpoint b w).
Proof.
  split.
  - apply (api_request_cases _ w _ (rock_report _) _ (rock_api_request_eq h meth endpoint b w)).
    + intros Hnet. split; [reflexivity |]. cbn. auto.
    + intros r net Hnet Hok. split; [reflexivity |]. cbn. auto.
    + intros x net Hnet Hx. split; [reflexivity |]. cbn [fst snd extend network trace].
      exists x, []. auto.
  - apply (api_request_cases _ w _ (transition_report _) _
             (transition_api_request_eq h meth endpoint b w)).
    + intros Hnet. split; [reflexivity |]. cbn. auto.
    + intros r net Hnet Hok. split; [reflexivity |]. cbn. auto.
    + intros x net Hnet Hx. split; [reflexivity |]. cbn [fst snd extend network trace].
      destruct x as [msg | r].
      * exists (Refused msg), []. auto.
      * eexists (Answered r), [_; _]. split; [exact Hx |]. split; [exact Hnet |]. reflexivity.
Qed.

(** ** The quotes around a status *)

Lemma lstrip_cons c s : lstrip c (String c s) = lstrip c s.
Proof.
  change (lstrip c (String c s)) with (if Ascii.eqb c c then lstrip c s else String c s).
  rewrite Ascii.eqb_refl. reflexivity.
Qed.

Lemma rstrip_snoc c s : rstrip c (s +:+ String c EmptyString) = rstrip c s.
Proof.
  induction s as [| a s IH].
  - change (rstrip c (EmptyString +:+ String c EmptyString))
      with (if Ascii.eqb c c then EmptyString else String c EmptyString).
    rewrite Ascii.eqb_refl. reflexivity.
  - change (String a s +:+ String c EmptyString) with (String a (s +:+ String c EmptyString)).
    cbn [rstrip]. rewrite IH. reflexivity.
Qed.

Lemma strip_snoc c s : strip c (s +:+ String c EmptyString) = strip c s.
Proof.
  unfold strip. induction s as [| a s IH].
  - change (EmptyString +:+ String c EmptyString) with (String c EmptyString).
    rewrite lstrip_cons. reflexivity.
  - change (String a s +:+ String c EmptyString) with (String a (s +:+ String c EmptyString)).
    cbn [lstrip]. destruct (Ascii.eqb a c); [exact IH |].
    exact (rstrip_snoc c (String a s)).
Qed.

Lemma rstrip_clean c s :
  Forall (fun a => a <> c) (list_ascii_of_string s) -> rstrip c s = s.
Proof.
  induction s as [| a s IH]; [reflexivity |]. cbn [list_ascii_of_string rstrip].
  intros H. inversion H as [| ? ? Ha Hs]; subst. rewrite (IH Hs).
  destruct s; [| reflexivity]. apply Ascii.eqb_neq in Ha. rewrite Ha. reflexivity.
Qed.

Lemma strip_clean c s :
  Forall (fun a => a <> c) (list_ascii_of_string s) -> strip c s = s.
Proof.
  intros H. unfold strip.
  assert (lstrip c s = s) as ->; [| apply rstrip_clean; exact H].
  destruct s as [| a s]; [reflexivity |]. cbn [lstrip list_ascii_of_string] in *.
  inversion H as [| ? ? Ha Hs]; subst. apply Ascii.eqb_neq in Ha. rewrite Ha. reflexivity.
Qed.

(** X6. The status endpoint answers with a JSON string, quotes included;
    the status a poll reads from it is the one it reads from the bare text,
    and a text without any double quote is read as it is. *)
Theorem status_quotes_are_dropped (code : Z) (s : string) (doc : option json)
    (bytes : list byte) :
  status_of (reply code (String dquote (s +:+ String dquote EmptyString)) doc bytes)
  = status_of (reply code s doc bytes)
  /\ (Forall (fun a => a <> dquote) (list_ascii_of_string s) ->
      status_of (reply code s doc bytes) = s).
Proof.
  unfold status_of, reply. cbn [text]. split.
  - unfold strip at 1. rewrite lstrip_cons. exact (strip_snoc dquote s).
  - apply strip_clean.
Qed.

(** A run for X6: the answer ["SUCCESS"], quotes included. *)
Lemma status_quotes_are_dropped_witness :
  status_of (status_reply "SUCCESS") = "SUCCESS".
Proof.
  destruct (status_quotes_are_dropped 200 "SUCCESS" None []) as [Hquoted Hbare].
  etransitivity; [exact Hquoted |]. apply Hbare.
  repeat (constructor; [apply Ascii.eqb_neq; reflexivity |]). constructor.
Defined.

(** ** The rhythm of [poll_status] *)

Section PollRhythm.

Variable loop : nat -> option string -> M string.
Variable rq : request.
Variable report : exchange -> list event.

Hypothesis loop_S : forall fuel prev w,
  loop (S fuel) prev w =
  match network w with
  | [] => (Starved, w)
  | Answered r :: net =>
      if ok r then
        if terminal (status_of r) then (Ret (status_of r), extend (poll_events rq r prev) net w)
        else loop fuel (Some (status_of r)) (extend (poll_events rq r prev ++ [Sleep 5]) net w)
      else (Ret "FAILURE", extend (Http rq (Answered r) :: report (Answered r)) net w)
  | Refused msg :: net =>
      (Ret "FAILURE", extend (Http rq (Refused msg) :: report (Refused msg)) net w)
  end.

Lemma requested_poll_events r prev : requested (poll_events rq r prev) = [rq].
Proof. unfold poll_events. destruct (differs (status_of r) prev); reflexivity. Qed.

Lemma slept_poll_events r prev : slept (poll_events rq r prev) = [].
Proof. unfold poll_events. destruct (differs (status_of r) prev); reflexivity. Qed.

Lemma loop_rhythm (rs : list Response) :
  Forall (fun r => ok r = true /\ terminal (status_of r) = false) rs ->
  forall prev w net fuel,
    network w = map Answered rs ++ net ->
    exists prev' es,
      loop (length rs + fuel) prev w = loop fuel prev' (extend es net w)
      /\ slept es = repeat 5 (length rs)
      /\ requested es = repeat rq (length rs).
Proof.
  induction 1 as [| r rs [Hok Ht] _ IH]; intros prev w net fuel Hnet.
  - exists prev, []. cbn in Hnet. subst net. unfold extend. rewrite app_nil_r.
    destruct w; cbn. auto.
  - cbn [length Nat.add]. rewrite loop_S, Hnet. cbn [map app]. rewrite Hok, Ht.
    destruct (IH (Some (status_of r)) (extend (poll_events rq r prev ++ [Sleep 5]) (map Answered rs ++ net) w)
                net fuel eq_refl) as (prev' & es & Heq & Hs & Hr).
    exists prev', ((poll_events rq r prev ++ [Sleep 5]) ++ es).
    rewrite Heq, extend_extend. split; [reflexivity |]. split.
    + unfold slept in *. rewrite !flat_map_app, Hs. fold (slept (poll_events rq r prev)).
      rewrite slept_poll_events. reflexivity.
    + unfold requested in *. rewrite !flat_map_app, Hr. fold (requested (poll_events rq r prev)).
      rewrite requested_poll_events. reflexivity.
Qed.

Lemma loop_rhythm_exit (rs : list Response) (r : Response) (w : world) (rest : list exchange) :
  Forall (fun r => ok r = true /\ terminal (status_of r) = false) rs ->
  ok r = true -> terminal (status_of r) = true ->
  network w = map Answered rs ++ Answered r :: rest ->
  exists w',
    loop (S (length (network w))) None w = (Ret (status_of r), w')
    /\ network w' = rest
    /\ slept (trace w') = slept (trace w) ++ repeat 5 (length rs)
    /\ requested (trace w') = requested (trace w) ++ repeat rq (S (length rs)).
Proof.
  intros Hrs Hok Ht Hnet.
  destruct (loop_rhythm rs Hrs None w (Answered r :: rest) (S (S (length rest))) Hnet)
    as (prev' & es & Heq & Hs & Hr).
  replace (S (length (network w))) with (length rs + S (S (length rest)))%nat
    by (rewrite Hnet, length_app, length_map; cbn [length]; lia).
  rewrite Heq, loop_S. cbn [extend network]. rewrite Hok, Ht.
  eexists. split; [reflexivity |]. unfold extend; cbn [network trace].
  split; [reflexivity |]. split.
  - unfold slept in *. rewrite !flat_map_app, Hs. fold (slept (poll_events rq r prev')).
    rewrite slept_poll_events, app_nil_r. reflexivity.
  - unfold requested in *. rewrite !flat_map_app, Hr. fold (requested (poll_events rq r prev')).
    rewrite requested_poll_events, <- app_assoc. f_equal.
    change (S (length rs)) with (1 + length rs)%nat. rewrite Nat.add_comm, repeat_app. reflexivity.
Qed.

End PollRhythm.

(** X7. [poll_status] (rock and transition scripts) polls at a fixed
    rhythm: while the answers are usable and not terminal it sends the same
    status request again after sleeping 5 seconds, and on the terminal
    answer it returns at once.  After [n] non-terminal answers and the
    terminal one it has sent [n + 1] status requests, slept [n] times 5
    seconds, and left the rest of the exchanges untouched. *)
Theorem poll_status_rhythm (h : host) (task_id : json) (rs : list Response) (r : Response)
    (w : world) (rest : list exchange) :
  Forall (fun r => ok r = true /\ terminal (status_of r) = false) rs ->
  ok r = true -> terminal (status_of r) = true ->
  network w = map Answered rs ++ Answered r :: rest ->
  (exists w',
     Rock.poll_status h task_id w = (Ret (status_of r), w')
     /\ network w' = rest
     /\ slept (trace w') = slept (trace w) ++ repeat 5 (length rs)
     /\ requested (trace w')
        = requested (trace w) ++ repeat (status_request (Rock.API_KEY h) task_id) (S (length rs)))
  /\ (exists w',
        Transition.poll_status h task_id w = (Ret (status_of r), w')
        /\ network w' = rest
        /\ slept (trace w') = slept (trace w) ++ repeat 5 (length rs)
        /\ requested (trace w')
           = requested (trace w)
             ++ repeat (status_request (transition_key h) task_id) (S (length rs))).
Proof.
  intros Hrs Hok Ht Hnet. split.
  - exact (loop_rhythm_exit (fun fuel prev => Rock.poll_loop h fuel task_id prev) _ _
             (rock_loop_S h task_id) rs r w rest Hrs Hok Ht Hnet).
  - exact (loop_rhythm_exit (fun fuel prev => Transition.poll_loop h fuel task_id prev) _ _
             (transition_loop_S h task_id) rs r w rest Hrs Hok Ht Hnet).
Qed.

(** A run for X7: two pending answers, then success. *)
Lemma poll_status_rhythm_witness :
  exists w',
    Rock.poll_status sample_host (JStr "T1")
      (world_of [Answered (status_reply "PENDING"); Answered (status_reply "PENDING");
                 Answered (status_reply "SUCCESS"); Refused "later"] ∅)
    = (Ret "SUCCESS", w')
    /\ network w' = [Refused "later"]
    /\ slept (trace w') = [5; 5]
    /\ requested (trace w')
       = repeat (status_request (Rock.API_KEY sample_host) (JStr "T1")) 3.
Proof.
  refine (proj1 (poll_status_rhythm sample_host (JStr "T1")
                   [status_reply "PENDING"; status_reply "PENDING"] (status_reply "SUCCESS")
                   (world_of [Answered (status_reply "PENDING"); Answered (status_reply "PENDING");
                              Answered (status_reply "SUCCESS"); Refused "later"] ∅)
                   [Refused "later"] _ _ _ _)).
  - repeat constructor.
  - reflexivity.
  - reflexivity.
  - reflexivity.
Defined.

(** X8. The status lines of the transition script's [poll_status]: on
    every script of responses the lines [Status: ...] it prints are, in
    order, one per maximal run of equal consecutive statuses read, as for
    the other two scripts. *)
Theorem transition_status_line_per_run (h : host) (task_id : json) (w : world) :
  exists new,
    trace (snd (Transition.poll_status h task_id w)) = trace w ++ new
    /\ status_lines "Status: " new
       = map (fun s => "Status: " +:+ s) (map fst (runs (observed (network w)))).
Proof.
  rewrite <- changes_runs.
  apply (loop_status_lines (fun fuel => Transition.poll_loop h fuel task_id) _ _
           (transition_loop_S h task_id) (transition_report_quiet _)). lia.
Qed.

(** ** The video of the telegram *)

Lemma video_poll_loop_inv h job fuel w st data w' :
  Telegram.video_poll_loop h fuel job w = (Ret (st, data), w') ->
  exists res pre,
    trace w' = pre ++ [Http (video_status_request h job) (Answered res)]
    /\ json_body res = Some data
    /\ dict_get data "status" JNull = inr st
    /\ json_is st "pending" = false
    /\ files w' = files w.
Proof.
  revert w. induction fuel as [| fuel IH]; intros w; [discriminate |].
  rewrite video_loop_S. destruct (network w) as [| [msg | r] net]; try discriminate.
  destruct (json_body r) as [d |] eqn:Hd; [| discriminate].
  destruct (dict_get d "status" JNull) as [e | st'] eqn:Hst; [discriminate |].
  destruct (json_is st' "pending") eqn:Hp.
  - intros H. apply IH in H. exact H.
  - intros [= <- <- <-]. exists r, (trace w). auto.
Qed.

Lemma json_is_eq v s : json_is v s = true -> v = JStr s.
Proof. destruct v; try discriminate. cbn. intros H. apply String.eqb_eq in H. congruence. Qed.

Lemma video_saved (h : host) (song : Telegram.song_data)
    (recipient occasion : string) (w w' : world) (video : Telegram.video_data) :
  Telegram.create_singing_video h song recipient occasion w = (Ret (Some video), w') ->
  exists (job data : json) (res d : Response) (u : string) (pre : list event),
    trace w' = pre ++ [Http (video_status_request h job) (Answered res);
                       Http (download_request u) (Answered d);
                       Print ("✅ Video saved to " +:+ abspath h (Telegram.video_local_path video))]
    /\ json_body res = Some data
    /\ dict_get data "status" JNull = inr (JStr "completed")
    /\ dict_get data "video_url" JNull = inr (JStr u)
    /\ Telegram.video_url video = JStr u
    /\ Telegram.video_local_path video
       = "telegram_video_" +:+ py_str (Telegram.task_id song) +:+ ".mp4"
    /\ files w' = <[Telegram.video_local_path video := content d]> (files w).
Proof.
  unfold Telegram.create_singing_video. intros H.
  inv_bind_as H u0 w0 Hp0. apply print_inv in Hp0. subst w0.
  apply try_except_Ret_inv in H. destruct H as [H | (e & w9 & _ & _ & H)].
  2: { inv_bind H Hp. discriminate H. }
  cbn zeta in H.
  inv_bind_as H response w1 Hsubmit. apply requests_request_inv in Hsubmit.
  destruct Hsubmit as (net1 & Hnet1 & ->).
  inv_bind_as H u2 w2 Hstatus. apply raise_for_status_inv in Hstatus. subst w2.
  inv_bind_as H submitted w3 Hjson. apply response_json_inv in Hjson. destruct Hjson as [Hjson ->].
  inv_lift_as H job Hjob.
  inv_bind_as H u4 w4 Hstarted. apply print_inv in Hstarted. subst w4.
  inv_bind_as H polled w5 Hpoll. destruct polled as [st data].
  apply video_poll_loop_inv in Hpoll.
  destruct Hpoll as (res & pre & Htrace & Hdata & Hst & _ & Hfiles).
  cbn [fst snd] in H.
  destruct (json_is st "completed") eqn:Hdone.
  2: { inv_bind H Hp. discriminate H. }
  apply json_is_eq in Hdone. subst st.
  inv_lift_as H video_url Hurl.
  inv_bind_as H u6 w6 Hopen. apply write_file_inv in Hopen. subst w6.
  inv_bind_as H d w7 Hget. apply requests_get_value_inv in Hget.
  destruct Hget as (u & rest & -> & Hrest & ->).
  inv_bind_as H u8 w8 Hwrite. apply write_file_inv in Hwrite. subst w8.
  inv_bind_as H u9 w9 Hsaved. apply print_inv in Hsaved. subst w9.
  injection H as <- <-. cbn [Telegram.video_local_path Telegram.video_url].
  exists job, data, res, d, u, pre.
  split.
  { unfold extend, set_files, download_request. cbn [trace network files].
    rewrite Htrace, <- !app_assoc. reflexivity. }
  split; [exact Hdata |]. split; [exact Hst |]. split; [exact Hurl |].
  split; [reflexivity |]. split; [reflexivity |].
  unfold extend, set_files. cbn [files]. rewrite Hfiles. cbn [files].
  apply insert_insert_eq.
Qed.

(** X9. When [create_singing_video] returns a video, the job's last status
    was ["completed"], the bytes in [telegram_video_<task id>.mp4] are those
    fetched from the [video_url] of that last status document, and this
    file is the only one written: the trace ends with the status request,
    the download without headers and the line that reports the file. *)
Theorem video_saved_from_video_url (h : host) (song : Telegram.song_data)
    (recipient occasion : string) (w w' : world) (video : Telegram.video_data) :
  Telegram.create_singing_video h song recipient occasion w = (Ret (Some video), w') ->
  exists (job data : json) (res d : Response) (u : string) (pre : list event),
    trace w' = pre ++ [Http (video_status_request h job) (Answered res);
                       Http (download_request u) (Answered d);
                       Print ("✅ Video saved to " +:+ abspath h (Telegram.video_local_path video))]
    /\ json_body res = Some data
    /\ dict_get data "status" JNull = inr (JStr "completed")
    /\ dict_get data "video_url" JNull = inr (JStr u)
    /\ Telegram.video_url video = JStr u
    /\ Telegram.video_local_path video
       = "telegram_video_" +:+ py_str (Telegram.task_id song) +:+ ".mp4"
    /\ files w' = <[Telegram.video_local_path video := content d]> (files w).
Proof. apply video_saved. Qed.

(** A run for X9: the job completes after one pending answer. *)
Lemma video_saved_from_video_url_witness :
  exists (job data : json) (res d : Response) (u : string) (pre : list event),
    trace (snd (Telegram.create_singing_video sample_host sample_song "Sarah" "birthday" video_run))
    = pre ++ [Http (video_status_request sample_host job) (Answered res);
              Http (download_request u) (Answered d);
              Print ("✅ Video saved to " +:+ abspath sample_host "telegram_video_T1.mp4")]
    /\ json_body res = Some data
    /\ dict_get data "status" JNull = inr (JStr "completed")
    /\ dict_get data "video_url" JNull = inr (JStr u)
    /\ JStr "http://x/v.mp4" = JStr u
    /\ "telegram_video_T1.mp4" = "telegram_video_" +:+ py_str (JStr "T1") +:+ ".mp4"
    /\ files (snd (Telegram.create_singing_video sample_host sample_song "Sarah" "birthday" video_run))
       = <["telegram_video_T1.mp4" := content d]> (files video_run).
Proof.
  apply (video_saved_from_video_url sample_host sample_song "Sarah" "birthday" video_run
           (snd (Telegram.create_singing_video sample_host sample_song "Sarah" "birthday" video_run))
           {| Telegram.video_url := JStr "http://x/v.mp4";
              Telegram.video_local_path := "telegram_video_T1.mp4" |}).
  etransitivity; [apply surjective_pairing |].
  f_equal; vm_compute; reflexivity.
Defined.

(** ** The temporary directory *)

Lemma TemporaryDirectory_removed h {A : Type} (block : string -> M A) (w : world) (path : string) :
  fst (Transition.with_TemporaryDirectory h block w) <> Starved ->
  starts_with (tmpdir h +:+ "/") path = true ->
  files (snd (Transition.with_TemporaryDirectory h block w)) !! path = None.
Proof.
  unfold Transition.with_TemporaryDirectory. intros Hrun Hin.
  destruct (block (tmpdir h) w) as [[a | e |] w1]; cbn [fst snd set_files files] in *.
  - apply map_lookup_filter_None. right. intros data _. unfold Transition.outside_tmpdir.
    cbn [fst]. rewrite Hin. discriminate.
  - apply map_lookup_filter_None. right. intros data _. unfold Transition.outside_tmpdir.
    cbn [fst]. rewrite Hin. discriminate.
  - congruence.
Qed.

Lemma TemporaryDirectory_kept h {A : Type} (block : string -> M A) (w : world) (path : string) :
  starts_with (tmpdir h +:+ "/") path = false ->
  files (snd (Transition.with_TemporaryDirectory h block w)) !! path
  = files (snd (block (tmpdir h) w)) !! path.
Proof.
  unfold Transition.with_TemporaryDirectory. intros Hout.
  destruct (block (tmpdir h) w) as [[a | e |] w1]; cbn [fst snd set_files files] in *;
    try reflexivity.
  - destruct (files w1 !! path) as [data |] eqn:Hf.
    + apply map_lookup_filter_Some. split; [exact Hf | exact Hout].
    + apply map_lookup_filter_None. left. exact Hf.
  - destruct (files w1 !! path) as [data |] eqn:Hf.
    + apply map_lookup_filter_Some. split; [exact Hf | exact Hout].
    + apply map_lookup_filter_None. left. exact Hf.
Qed.

(** X10. The transition script works in a temporary directory that is gone
    when the script has ended, whatever happened in between: with a key
    set, once a run has ended (normally or with an exception, with any exit
    status) no file is left under the temporary directory. *)
Theorem temporary_files_are_removed (h : host) (a : Transition.args) (w : world)
    (key : string) (code : Z) (path : string) :
  nonempty (Transition.API_KEY h) = Some key ->
  exit_status (fst (Transition.main h (Some a) w)) = Some code ->
  starts_with (tmpdir h +:+ "/") path = true ->
  files (snd (Transition.main h (Some a) w)) !! path = None.
Proof.
  intros Hkey Hend Hin. unfold Transition.main in *. rewrite Hkey in *.
  apply TemporaryDirectory_removed; [| exact Hin].
  intros Hs. rewrite Hs in Hend. discriminate Hend.
Qed.

(** A run for X10: the songs are downloaded and concatenated in the
    temporary directory, then the submission is refused. *)
Lemma temporary_files_are_removed_witness :
  files (snd (Transition.main sample_host (Some sample_songs)
                (world_of [Refused "unreachable"] ∅))) !! "/tmp/tmpab12/song1.mp3" = None.
Proof.
  apply (temporary_files_are_removed sample_host sample_songs
           (world_of [Refused "unreachable"] ∅) "sk-test" 0 "/tmp/tmpab12/song1.mp3").
  - reflexivity.
  - vm_compute. reflexivity.
  - vm_compute. reflexivity.
Defined.

(** ** The concatenated audio *)

(** X11. What [create_concatenated_audio] writes, for trims given as whole
    seconds within the clips: the first [min(song_duration * 1000, len)]
    milliseconds of the first song less [trim_from_end] seconds at their
    end, then [silence_duration] seconds of silence, then the second song
    from [trim_to_start] seconds up to [min(song_duration * 1000, len)]
    milliseconds.  The same encoded bytes go to [output_path] and to the
    pre-inpainting copy [combined_output_path], and nothing else is
    written. *)
Theorem concatenated_audio_layout (h : host) (w : world)
    (song1_path song2_path output_path combined_output_path : string)
    (bytes1 bytes2 : list byte) (song1 song2 : AudioSegment)
    (song_duration silence_duration trim_from_end trim_to_start : Z) :
  files w !! song1_path = Some bytes1 -> decode_audio h bytes1 = Some song1 ->
  files w !! song2_path = Some bytes2 -> decode_audio h bytes2 = Some song2 ->
  0 <= trim_from_end * 1000 <= Z.min (song_duration * 1000) (len song1) ->
  0 <= trim_to_start * 1000 <= Z.min (song_duration * 1000) (len song2) ->
  let kept1 := Z.min (song_duration * 1000) (len song1) - trim_from_end * 1000 in
  let kept2 := Z.min (song_duration * 1000) (len song2) - trim_to_start * 1000 in
  let combined :=
    {| channels := Z.max (Z.max (channels song1) 1) (channels song2);
       frames := (take (Z.to_nat kept1) (frames song1)
                  ++ repeat 0 (Z.to_nat (silence_duration * 1000)))
                 ++ take (Z.to_nat kept2) (drop (Z.to_nat (trim_to_start * 1000)) (frames song2)) |} in
  files (snd (Transition.create_concatenated_audio h song1_path song2_path output_path
                combined_output_path song_duration silence_duration
                (PInt trim_from_end) (PInt trim_to_start) w))
  = <[combined_output_path := encode_audio h "mp3" None combined]>
      (<[output_path := encode_audio h "mp3" None combined]> (files w)).
Proof.
  intros Hf1 Hd1 Hf2 Hd2 Ht1 Ht2 kept1 kept2 combined.
  pose proof (len_nonneg song1). pose proof (len_nonneg song2).
  unfold Transition.create_concatenated_audio.
  rewrite (bind_Ret _ _ _ _ _ (print_eq _ _)). cbn beta.
  rewrite (bind_Ret _ _ _ _ _ (from_file_ok h _ _ _ (log _ w) Hf1 Hd1)). cbn beta.
  rewrite (bind_Ret _ _ _ _ _ (from_file_ok h _ _ _ (log _ w) Hf2 Hd2)). cbn beta.
  cbn [py_mul]. rewrite !lift_inr, !bind_ret. cbn beta.
  cbn [py_sub]. rewrite lift_inr, bind_ret. cbn beta.
  fold kept1.
  rewrite slice_prefix by (unfold kept1; lia). rewrite lift_inr, bind_ret. cbn beta.
  rewrite slice_range by lia. rewrite lift_inr, bind_ret. cbn beta.
  fold kept2.
  unfold Transition.export.
  rewrite (bind_Ret _ _ _ _ _ (write_file_eq _ _ _)). cbn beta.
  rewrite (bind_Ret _ _ _ _ _ (write_file_eq _ _ _)). cbn beta.
  rewrite (bind_Ret _ _ _ _ _ (print_eq _ _)). cbn beta.
  match goal with
  | |- files (snd (?m ?w0)) = _ =>
      assert (K : keeps_files m) by files_auto; rewrite (K w0)
  end.
  reflexivity.
Qed.

(** A run for X11: songs of 60 s and 50 s, 45 s of each, 5 s of silence,
    2 s trimmed from the end of the first and 1 s from the start of the
    second. *)
Lemma concatenated_audio_layout_witness :
  let song1 := {| channels := 2;
                  frames := flat_map (fun b => repeat (Z.of_N (Byte.to_N b)) 1000)
                              (repeat "001"%byte 60) |} in
  let song2 := {| channels := 2;
                  frames := flat_map (fun b => repeat (Z.of_N (Byte.to_N b)) 1000)
                              (repeat "002"%byte 50) |} in
  let combined :=
    {| channels := Z.max (Z.max (channels song1) 1) (channels song2);
       frames := (take (Z.to_nat (Z.min (45 * 1000) (len song1) - 2 * 1000)) (frames song1)
                  ++ repeat 0 (Z.to_nat (5 * 1000)))
                 ++ take (Z.to_nat (Z.min (45 * 1000) (len song2) - 1 * 1000))
                      (drop (Z.to_nat (1 * 1000)) (frames song2)) |} in
  files (snd (Transition.create_concatenated_audio sample_host "song1.mp3" "song2.mp3"
                "concatenated.mp3" "pre_inpaint.mp3" 45 5 (PInt 2) (PInt 1) two_songs))
  = <["pre_inpaint.mp3" := encode_audio sample_host "mp3" None combined]>
      (<["concatenated.mp3" := encode_audio sample_host "mp3" None combined]> (files two_songs)).
Proof.
  apply (concatenated_audio_layout sample_host two_songs
           "song1.mp3" "song2.mp3" "concatenated.mp3" "pre_inpaint.mp3"
           (repeat "001"%byte 60) (repeat "002"%byte 50)
           {| channels := 2;
              frames := flat_map (fun b => repeat (Z.of_N (Byte.to_N b)) 1000)
                          (repeat "001"%byte 60) |}
           {| channels := 2;
              frames := flat_map (fun b => repeat (Z.of_N (Byte.to_N b)) 1000)
                          (repeat "002"%byte 50) |}
           45 5 2 1).
  - reflexivity.
  - reflexivity.
  - reflexivity.
  - reflexivity.
  - split; apply Z.leb_le; vm_compute; reflexivity.
  - split; apply Z.leb_le; vm_compute; reflexivity.
Defined.

(** ** Which files a script may touch *)

Section TouchesOnly.

Variable P : string -> Prop.

Lemma touches_keeps {A : Type} (m : M A) : keeps_files m -> touches_only P m.
Proof. intros H w path _. rewrite H. reflexivity. Qed.

Lemma touches_bind {A B : Type} (m : M A) (k : A -> M B) :
  touches_only P m -> (forall a, touches_only P (k a)) -> touches_only P (bind m k).
Proof.
  intros Hm Hk w path Hp. unfold bind. specialize (Hm w path Hp).
  destruct (m w) as [[a | e |] w1]; cbn [snd] in *; try exact Hm.
  rewrite (Hk a w1 path Hp). exact Hm.
Qed.

Lemma touches_bind_ret {A B : Type} (Q : A -> Prop) (m : M A) (k : A -> M B) :
  touches_only P m -> returns_only Q m -> (forall a, Q a -> touches_only P (k a)) ->
  touches_only P (bind m k).
Proof.
  intros Hm Hq Hk w path Hp. unfold bind. specialize (Hm w path Hp). specialize (Hq w).
  destruct (m w) as [[a | e |] w1]; cbn [snd] in *; try exact Hm.
  rewrite (Hk a (Hq a w1 eq_refl) w1 path Hp). exact Hm.
Qed.

Lemma touches_try_except {A : Type} (m : M A) c (hd : exn -> M A) :
  touches_only P m -> (forall e, touches_only P (hd e)) -> touches_only P (try_except m c hd).
Proof.
  intros Hm Hh w path Hp. unfold try_except. specialize (Hm w path Hp).
  destruct (m w) as [[a | e |] w1]; cbn [snd] in *; try exact Hm.
  destruct (c e); [rewrite (Hh e w1 path Hp) |]; exact Hm.
Qed.

Lemma touches_write_file f data : P f -> touches_only P (write_file f data).
Proof.
  intros Hf w path Hp. cbn. apply lookup_insert_ne. intros E. apply Hp. rewrite <- E. exact Hf.
Qed.

End TouchesOnly.

Lemma returns_bind {A B : Type} (Q : B -> Prop) (m : M A) (k : A -> M B) :
  (forall a, returns_only Q (k a)) -> returns_only Q (bind m k).
Proof.
  intros Hk w b w' H. apply bind_Ret_inv in H. destruct H as (a & w1 & _ & H).
  exact (Hk a w1 b w' H).
Qed.

Lemma returns_try_except {A : Type} (Q : A -> Prop) (m : M A) c (hd : exn -> M A) :
  returns_only Q m -> (forall e, returns_only Q (hd e)) -> returns_only Q (try_except m c hd).
Proof.
  intros Hm Hh w a w' H. apply try_except_Ret_inv in H.
  destruct H as [H | (e & w1 & _ & _ & H)]; [exact (Hm w a w' H) | exact (Hh e w1 a w' H)].
Qed.

Lemma returns_ret {A : Type} (Q : A -> Prop) (a : A) : Q a -> returns_only Q (ret a).
Proof. intros Ha w b w' [= <- _]. exact Ha. Qed.

Ltac returns_auto :=
  repeat first
    [ progress cbv zeta
    | match goal with
      | |- returns_only _ (bind _ _) => apply returns_bind; intros ?
      | |- returns_only _ (try_except _ _ _) => apply returns_try_except; [| intros ?]
      | |- returns_only _ (ret _) => apply returns_ret
      | |- returns_only _ (match ?x with _ => _ end) => destruct x
      end ].

Ltac touches_auto :=
  repeat first
    [ apply touches_keeps; solve [files_auto]
    | progress cbv zeta
    | match goal with
      | |- touches_only _ (bind _ _) => apply touches_bind; [| intros ?]
      | |- touches_only _ (try_except _ _ _) => apply touches_try_except; [| intros ?]
      | |- touches_only _ (write_file _ _) => apply touches_write_file
      | |- touches_only _ (match ?x with _ => _ end) => destruct x
      end ].

Lemma touches_rock_main h : touches_only rock_file (Rock.main h).
Proof.
  unfold Rock.main, Rock.generate_rock_song. touches_auto.
  all: eexists; reflexivity.
Qed.

Lemma touches_telegram_main h cmdline : touches_only telegram_file (Telegram.main h cmdline).
Proof.
  unfold Telegram.main, Telegram.create_singing_telegram, Telegram.check_api_keys,
    Telegram.generate_custom_song, Telegram.create_singing_video.
  touches_auto.
  all: eexists; first [left; reflexivity | right; reflexivity].
Qed.

Lemma string_app_assoc (a b c : string) : (a +:+ b) +:+ c = a +:+ (b +:+ c).
Proof.
  induction a as [| x a IH]; [reflexivity |].
  change ((String x a +:+ b) +:+ c) with (String x ((a +:+ b) +:+ c)).
  rewrite IH. reflexivity.
Qed.

Lemma starts_with_dir (d x : string) : starts_with (d +:+ "/") (d +:+ "/" +:+ x) = true.
Proof. rewrite <- string_app_assoc. apply starts_with_app. Qed.

Lemma starts_with_dir_ext (d x y : string) :
  starts_with (d +:+ "/") ((d +:+ "/" +:+ x) +:+ y) = true.
Proof. rewrite string_app_assoc, string_app_assoc, <- string_app_assoc. apply starts_with_app. Qed.

Lemma keeps_files_read_file path : keeps_files (read_file path).
Proof. intros w. unfold read_file. destruct (files w !! path); reflexivity. Qed.
#[local] Hint Resolve keeps_files_read_file : files.

Lemma keeps_files_transition_api_request h m e b : keeps_files (Transition.api_request h m e b).
Proof. unfold Transition.api_request. files_auto. Qed.
#[local] Hint Resolve keeps_files_transition_api_request : files.

Lemma keeps_files_transition_poll_loop h fuel t prev :
  keeps_files (Transition.poll_loop h fuel t prev).
Proof.
  revert prev. induction fuel as [| fuel IH]; intros prev; cbn [Transition.poll_loop]; files_auto.
Qed.

Lemma keeps_files_transition_poll_status h t : keeps_files (Transition.poll_status h t).
Proof. intros w. apply keeps_files_transition_poll_loop. Qed.

Lemma keeps_files_from_file h path : keeps_files (Transition.from_file h path).
Proof. unfold Transition.from_file. files_auto. Qed.

Lemma keeps_files_megabytes path : keeps_files (Transition.megabytes path).
Proof. unfold Transition.megabytes, Transition.getsize. files_auto. Qed.

Lemma keeps_files_encode_audio_base64 path : keeps_files (Transition.encode_audio_base64 path).
Proof. unfold Transition.encode_audio_base64. files_auto. Qed.

#[local] Hint Resolve keeps_files_transition_poll_status keeps_files_from_file
  keeps_files_megabytes keeps_files_encode_audio_base64 : files.

Lemma touches_extract_info P h video outtmpl :
  P (outtmpl +:+ ".mp3") -> touches_only P (Transition.extract_info h video outtmpl).
Proof.
  intros Hf w path Hp. unfold Transition.extract_info.
  destruct (youtube h video) as [[info mp3] |]; cbn; [| reflexivity].
  apply lookup_insert_ne. intros E. apply Hp. rewrite <- E. exact Hf.
Qed.

Lemma touches_rename P src dst : P src -> P dst -> touches_only P (Transition.rename src dst).
Proof.
  intros Hs Hd w path Hp. unfold Transition.rename.
  destruct (files w !! src); cbn; [| reflexivity].
  rewrite lookup_insert_ne by (intros E; apply Hp; rewrite <- E; exact Hd).
  apply lookup_delete_ne. intros E. apply Hp. rewrite <- E. exact Hs.
Qed.

Lemma touches_with_TemporaryDirectory P h {A : Type} (block : string -> M A) :
  (forall path, starts_with (tmpdir h +:+ "/") path = true -> P path) ->
  touches_only P (block (tmpdir h)) ->
  touches_only P (Transition.with_TemporaryDirectory h block).
Proof.
  intros Htmp Hb w path Hp. rewrite TemporaryDirectory_kept; [apply Hb; exact Hp |].
  destruct (starts_with (tmpdir h +:+ "/") path) eqn:E; [| reflexivity].
  destruct (Hp (Htmp path E)).
Qed.

Lemma touches_download_youtube_audio P h video out :
  P (out +:+ ".mp3") -> touches_only P (Transition.download_youtube_audio h video out).
Proof.
  intros Hf. unfold Transition.download_youtube_audio.
  apply touches_bind; [touches_auto | intros _].
  apply touches_bind; [apply touches_extract_info; exact Hf | intros info]. touches_auto.
Qed.

Lemma touches_create_concatenated_audio P h p1 p2 out comb d s te ts :
  P out -> P comb ->
  touches_only P (Transition.create_concatenated_audio h p1 p2 out comb d s te ts).
Proof.
  intros Ho Hc. unfold Transition.create_concatenated_audio, Transition.export. touches_auto; assumption.
Qed.

Lemma returns_create_concatenated_audio h p1 p2 out comb d s te ts :
  returns_only (fun made => fst (fst made) = out)
    (Transition.create_concatenated_audio h p1 p2 out comb d s te ts).
Proof. unfold Transition.create_concatenated_audio. returns_auto. reflexivity. Qed.

Lemma touches_create_transition P h audio_path s e :
  P (audio_path +:+ "_reduced.mp3") -> (forall path, transition_file path -> P path) ->
  touches_only P (Transition.create_transition h audio_path s e).
Proof.
  intros Hr Ht. unfold Transition.create_transition, Transition.reduce_if_large, Transition.export.
  touches_auto; first [exact Hr | apply Ht; eexists; reflexivity].
Qed.

Lemma returns_create_transition h audio_path s e :
  returns_only named_transition (Transition.create_transition h audio_path s e).
Proof.
  unfold Transition.create_transition. returns_auto; try exact I.
  eexists; reflexivity.
Qed.

Lemma touches_transition_main h a :
  touches_only (transition_files h a) (Transition.main h (Some a)).
Proof.
  unfold Transition.main. destruct (nonempty (Transition.API_KEY h)); [| touches_auto].
  apply touches_with_TemporaryDirectory; [intros path Hp; left; exact Hp |].
  apply touches_bind;
    [apply touches_download_youtube_audio; left; apply starts_with_dir_ext | intros first].
  apply touches_bind;
    [apply touches_download_youtube_audio; left; apply starts_with_dir_ext | intros second].
  cbv zeta.
  apply touches_bind; [touches_auto | intros _].
  eapply touches_bind_ret;
    [ apply touches_create_concatenated_audio;
        [left; apply starts_with_dir | right; left; reflexivity]
    | apply returns_create_concatenated_audio
    | intros made Hmade ].
  rewrite Hmade.
  eapply touches_bind_ret;
    [ apply touches_create_transition;
        [left; apply starts_with_dir_ext | intros path Hp; right; right; left; exact Hp]
    | apply returns_create_transition
    | intros transition_path Hnamed ].
  apply touches_bind; [| intros final; touches_auto].
  destruct transition_path as [[| c tp] |]; cbn [nonempty]; try solve [touches_auto].
  destruct (nonempty (Transition.output a)) as [out |] eqn:Hout; [| touches_auto].
  apply touches_try_except; [| intros e; touches_auto].
  apply touches_bind; [| intros _; touches_auto].
  apply touches_rename; [right; right; left; exact Hnamed | right; right; right; exact Hout].
Qed.

(** X12. No script changes a file that is not its own.  Whatever the
    services answer and however the run ends, the rock script changes at
    most files named [rock_song_<id>.ogg], the telegram script files named
    [telegram_song_<id>.ogg] or [telegram_video_<id>.mp4], and the
    transition script files in its temporary directory, the pre-inpainting
    copy, files named [transition_<id>.ogg] and the [--output] file: every
    other path holds after the run what it held before. *)
Theorem scripts_touch_only_their_files (h : host) (telegram : option Telegram.args)
    (transition : Transition.args) :
  touches_only rock_file (Rock.main h)
  /\ touches_only telegram_file (Telegram.main h telegram)
  /\ touches_only (transition_files h transition) (Transition.main h (Some transition)).
Proof.
  split; [apply touches_rock_main |]. split; [apply touches_telegram_main |].
  apply touches_transition_main.
Qed.

(** A run for X12: a successful run of the rock script next to a file of
    the user's. *)
Lemma scripts_touch_only_their_files_witness :
  files (snd (Rock.main sample_host
                (set_files {[ "notes.txt" := ["104"%byte; "105"%byte] ]} success_run)))
  !! "notes.txt"
  = Some ["104"%byte; "105"%byte].
Proof.
  rewrite (proj1 (scripts_touch_only_their_files sample_host None sample_songs)
             (set_files {[ "notes.txt" := ["104"%byte; "105"%byte] ]} success_run) "notes.txt").
  - reflexivity.
  - intros [task E]. discriminate E.
Defined.

Lemma returns_song_path h r o m s :
  returns_only
    (fun found => match found with
                  | Some song => Telegram.song_local_path song
                                 = "telegram_song_" +:+ py_str (Telegram.task_id song) +:+ ".ogg"
                  | None => True
                  end)
    (Telegram.generate_custom_song h r o m s).
Proof.
  unfold Telegram.generate_custom_song. returns_auto; first [exact I | reflexivity].
Qed.

Lemma song_and_video_differ (a b : string) :
  "telegram_video_" +:+ a +:+ ".mp4" <> "telegram_song_" +:+ b +:+ ".ogg".
Proof. intros E. discriminate E. Qed.



(** ** Transport failures are handled *)

Lemma transport_requests_request rq : raises_only transport (requests_request rq).
Proof.
  intros w e. unfold requests_request. destruct (network w) as [| [msg | r] net]; try discriminate.
  intros [= <-]. reflexivity.
Qed.

Lemma transport_requests_get_value v hdrs : raises_only transport (requests_get_value v hdrs).
Proof.
  destruct v; try (apply raises_only_raise; reflexivity). apply transport_requests_request.
Qed.

Lemma transport_raise_for_status u r : raises_only transport (raise_for_status u r).
Proof.
  unfold raise_for_status. destruct (http_error_msg u r);
    [apply raises_only_raise; reflexivity | apply raises_only_ret].
Qed.

(** [except RequestException] with a handler that does not raise: nothing
    escapes from a block that raises transport failures only. *)
Lemma caught_by_except_RequestException {A : Type} (m : M A) (hd : exn -> M A) :
  raises_only transport m -> (forall e, never_raises (hd e)) ->
  never_raises (try_except m is_RequestException hd).
Proof.
  intros Hm Hh. apply raises_only_try_except with (Y := transport).
  - exact Hm.
  - intros e _ _. apply Hh.
  - intros e He Hc. unfold transport in He. congruence.
Qed.

Ltac quiet := unfold never_raises; raises_auto.

Lemma never_raises_rock_api_request h m e b : never_raises (Rock.api_request h m e b).
Proof.
  unfold Rock.api_request. apply caught_by_except_RequestException; [| intros x; quiet].
  apply raises_only_bind; [apply transport_requests_request | intros r].
  apply raises_only_bind; [apply transport_raise_for_status | intros _]. apply raises_only_ret.
Qed.

Lemma never_raises_transition_api_request h m e b : never_raises (Transition.api_request h m e b).
Proof.
  unfold Transition.api_request. apply caught_by_except_RequestException; [| intros x; quiet].
  apply raises_only_bind; [apply transport_requests_request | intros r].
  apply raises_only_bind; [apply transport_raise_for_status | intros _]. apply raises_only_ret.
Qed.

Lemma never_raises_rock_poll_loop h fuel t prev : never_raises (Rock.poll_loop h fuel t prev).
Proof.
  revert prev. induction fuel as [| fuel IH]; intros prev; cbn [Rock.poll_loop]; unfold never_raises.
  - apply raises_only_starve.
  - apply raises_only_bind; [apply never_raises_rock_api_request | intros r].
    destruct (truthy r); [| apply raises_only_ret].
    cbv zeta. apply raises_only_bind; [raises_auto | intros p].
    destruct (terminal _); [apply raises_only_ret |].
    apply raises_only_bind; [apply raises_only_sleep | intros _]. apply IH.
Qed.

Lemma never_raises_transition_poll_loop h fuel t prev :
  never_raises (Transition.poll_loop h fuel t prev).
Proof.
  revert prev. induction fuel as [| fuel IH]; intros prev; cbn [Transition.poll_loop];
    unfold never_raises.
  - apply raises_only_starve.
  - apply raises_only_bind; [apply never_raises_transition_api_request | intros r].
    destruct (truthy r); [| apply raises_only_ret].
    cbv zeta. apply raises_only_bind; [raises_auto | intros p].
    destruct (terminal _); [apply raises_only_ret |].
    apply raises_only_bind; [apply raises_only_sleep | intros _]. apply IH.
Qed.

(** The errors of the pure operations (JSON access, arithmetic, slicing)
    are no transport failures. *)
Ltac pure_cases :=
  repeat match goal with
         | |- context [match ?x with _ => _ end] => destruct x
         end.

Lemma local_dict_get d key v : raises_only no_transport_error (lift (dict_get d key v)).
Proof. destruct d; first [apply raises_only_ret | apply raises_only_raise; exact I]. Qed.

Lemma local_getitem_key d key : raises_only no_transport_error (lift (getitem_key d key)).
Proof.
  apply raises_only_lift. intros e. unfold getitem_key. pure_cases; intros [= <-]; exact I.
Qed.

Lemma local_getitem_index d i : raises_only no_transport_error (lift (getitem_index d i)).
Proof.
  apply raises_only_lift. intros e. unfold getitem_index. pure_cases; intros [= <-]; exact I.
Qed.

Lemma local_join_value sep v : raises_only no_transport_error (lift (join_value sep v)).
Proof.
  apply raises_only_lift. intros e. unfold join_value. pure_cases; intros [= <-]; exact I.
Qed.

Lemma local_to_float x e : to_float x = inl e -> no_transport_error e.
Proof.
  unfold to_float, float_of_Z. pure_cases; intros [= <-]; exact I.
Qed.

Lemma local_float_op op x y e : float_op op x y = inl e -> no_transport_error e.
Proof.
  unfold float_op. destruct (to_float x) as [e1 | a] eqn:Hx.
  - intros [= <-]. exact (local_to_float x e1 Hx).
  - destruct (to_float y) as [e2 | b] eqn:Hy; [| discriminate].
    intros [= <-]. exact (local_to_float y e2 Hy).
Qed.

Lemma local_py_add x y e : py_add x y = inl e -> no_transport_error e.
Proof. unfold py_add. destruct x, y; try apply local_float_op. discriminate. Qed.

Lemma local_py_sub x y e : py_sub x y = inl e -> no_transport_error e.
Proof. unfold py_sub. destruct x, y; try apply local_float_op. discriminate. Qed.

Lemma local_py_mul x y e : py_mul x y = inl e -> no_transport_error e.
Proof. unfold py_mul. destruct x, y; try apply local_float_op. discriminate. Qed.

Lemma local_py_truediv x y e : py_truediv x y = inl e -> no_transport_error e.
Proof.
  assert (Hf : forall x y, match to_float y with
                           | inl e => inl e
                           | inr b => if is_zero b
                                      then inl (Exn ZeroDivisionError "float division by zero")
                                      else float_op PrimFloat.div x (PFloat b)
                           end = inl e -> no_transport_error e).
  { intros x0 y0. destruct (to_float y0) as [e1 | b] eqn:Hy.
    - intros [= <-]. exact (local_to_float y0 e1 Hy).
    - destruct (is_zero b); [intros [= <-]; exact I | apply local_float_op]. }
  unfold py_truediv. destruct x, y; try apply Hf.
  unfold int_truediv. pure_cases; intros [= <-]; exact I.
Qed.

Lemma local_py_int x e : py_int x = inl e -> no_transport_error e.
Proof. unfold py_int. pure_cases; intros [= <-]; exact I. Qed.

Lemma local_parse_position seg v e : parse_position seg v = inl e -> no_transport_error e.
Proof.
  unfold parse_position. destruct (py_lt v (PInt 0)).
  - destruct (py_sub (PInt (len seg)) (py_abs v)) as [e1 | x] eqn:Hs.
    + intros [= <-]. exact (local_py_sub _ _ _ Hs).
    + apply local_py_int.
  - apply local_py_int.
Qed.

Lemma local_slice seg a b e : slice seg a b = inl e -> no_transport_error e.
Proof.
  unfold slice. cbv zeta.
  destruct (parse_position seg _) as [e1 | s] eqn:H1.
  - intros [= <-]. exact (local_parse_position _ _ _ H1).
  - clear H1. destruct (parse_position seg _) as [e2 | t] eqn:H2.
    + intros [= <-]. exact (local_parse_position _ _ _ H2).
    + destruct (_ =? 0); [discriminate |].
      destruct (2 <? _); [intros [= <-]; exact I | discriminate].
Qed.

Lemma local_format_2f x e : format_2f x = inl e -> no_transport_error e.
Proof.
  unfold format_2f. destruct (to_float x) as [e1 | f] eqn:Hx; [| discriminate].
  intros [= <-]. exact (local_to_float x e1 Hx).
Qed.

Lemma local_response_json r : raises_only no_transport_error (response_json r).
Proof.
  unfold response_json. destruct (json_body r);
    [apply raises_only_ret | apply raises_only_raise; reflexivity].
Qed.

Lemma local_read_file path : raises_only no_transport_error (read_file path).
Proof.
  intros w e. unfold read_file. destruct (files w !! path); [discriminate |].
  intros [= <-]. exact I.
Qed.

Create HintDb local.
#[local] Hint Resolve raises_only_ret raises_only_starve raises_only_print raises_only_sleep
  raises_only_write_file local_dict_get local_getitem_key local_getitem_index local_join_value
  local_response_json local_read_file : local.

Ltac local_auto :=
  repeat first
    [ solve [auto with local]
    | progress cbv zeta
    | match goal with
      | |- raises_only _ (Rock.api_request _ _ _ _) =>
          apply never_raises_weaken, never_raises_rock_api_request
      | |- raises_only _ (Transition.api_request _ _ _ _) =>
          apply never_raises_weaken, never_raises_transition_api_request
      | |- raises_only _ (Rock.poll_status _ _) =>
          apply never_raises_weaken; intros ?; apply never_raises_rock_poll_loop
      | |- raises_only _ (Transition.poll_status _ _) =>
          apply never_raises_weaken; intros ?; apply never_raises_transition_poll_loop
      | |- raises_only _ (try_except _ is_RequestException _) =>
          apply never_raises_weaken, caught_by_except_RequestException;
          [| intros ?; quiet]
      | |- raises_only _ (raise_for_status _ _) => apply transport_raise_for_status
      | |- raises_only _ (requests_get_value _ _) => apply transport_requests_get_value
      | |- raises_only _ (lift (format_2f _)) =>
          apply raises_only_lift; intros ?; apply local_format_2f
      | |- raises_only _ (lift (py_truediv _ _)) =>
          apply raises_only_lift; intros ?; apply local_py_truediv
      | |- raises_only _ (lift (py_add _ _)) =>
          apply raises_only_lift; intros ?; apply local_py_add
      | |- raises_only _ (lift (py_sub _ _)) =>
          apply raises_only_lift; intros ?; apply local_py_sub
      | |- raises_only _ (lift (py_mul _ _)) =>
          apply raises_only_lift; intros ?; apply local_py_mul
      | |- raises_only _ (lift (slice _ _ _)) =>
          apply raises_only_lift; intros ?; apply local_slice
      | |- raises_only _ (raise _) => apply raises_only_raise; exact I
      | |- raises_only _ (bind _ _) => apply raises_only_bind; [| intros ?]
      | |- raises_only _ (match ?x with _ => _ end) => destruct x
      end ].

Lemma local_rock_main h : raises_only no_transport_error (Rock.main h).
Proof.
  unfold Rock.main, Rock.generate_rock_song, Rock.display_results. local_auto.
Qed.

Lemma local_from_file h path : raises_only no_transport_error (Transition.from_file h path).
Proof. unfold Transition.from_file. local_auto. Qed.

Lemma local_extract_info h video outtmpl :
  raises_only no_transport_error (Transition.extract_info h video outtmpl).
Proof.
  intros w e. unfold Transition.extract_info.
  destruct (youtube h video) as [[info mp3] |]; [discriminate |]. intros [= <-]. exact I.
Qed.

Lemma ordinary_rename src dst : raises_only ordinary (Transition.rename src dst).
Proof.
  intros w e. unfold Transition.rename. destruct (files w !! src); [discriminate |].
  intros [= <-]. reflexivity.
Qed.

Lemma raises_only_with_TemporaryDirectory X h {A : Type} (block : string -> M A) :
  raises_only X (block (tmpdir h)) -> raises_only X (Transition.with_TemporaryDirectory h block).
Proof.
  intros Hb w e. unfold Transition.with_TemporaryDirectory. specialize (Hb w e).
  destruct (block (tmpdir h) w) as [[a | e' |] w1]; cbn [fst] in *; try discriminate.
  exact Hb.
Qed.

#[local] Hint Resolve local_from_file local_extract_info : local.

Lemma local_transition_main h cmdline :
  raises_only no_transport_error (Transition.main h cmdline).
Proof.
  unfold Transition.main. destruct cmdline as [a |]; [| local_auto].
  destruct (nonempty (Transition.API_KEY h)); [| local_auto].
  apply raises_only_with_TemporaryDirectory.
  unfold Transition.download_youtube_audio, Transition.create_concatenated_audio,
    Transition.create_transition, Transition.reduce_if_large, Transition.megabytes,
    Transition.getsize, Transition.encode_audio_base64, Transition.export.
  repeat first
    [ match goal with
      | |- raises_only _ (try_except _ is_Exception _) =>
          apply never_raises_weaken, caught_by_except_Exception; [| intros ?; quiet];
          apply raises_only_bind; [apply ordinary_rename | intros ?]; raises_auto
      end
    | local_auto ].
Qed.

(** X14. A transport failure never ends the rock or the transition script
    with a traceback.  [api_request] and [poll_status] let no exception out
    at all, and the download is inside [try ... except RequestException]:
    no [HTTPError] leaves a run of either script, and of the other
    exceptions of [requests] only the one raised by [response.json()] on a
    body that is no JSON. *)
Theorem transport_failures_never_escape (h : host) (cmdline : option Transition.args) :
  (forall meth endpoint b, never_raises (Rock.api_request h meth endpoint b))
  /\ (forall meth endpoint b, never_raises (Transition.api_request h meth endpoint b))
  /\ (forall task_id, never_raises (Rock.poll_status h task_id))
  /\ (forall task_id, never_raises (Transition.poll_status h task_id))
  /\ raises_only no_transport_error (Rock.main h)
  /\ raises_only no_transport_error (Transition.main h cmdline).
Proof.
  split; [intros; apply never_raises_rock_api_request |].
  split; [intros; apply never_raises_transition_api_request |].
  split; [intros t w; apply never_raises_rock_poll_loop |].
  split; [intros t w; apply never_raises_transition_poll_loop |].
  split; [apply local_rock_main | apply local_transition_main].
Qed.

(** ** The upload limit *)

Lemma emits_bind_inv {A B : Type} E (m : M A) (k : A -> M B) :
  emits E m ->
  (forall w a w1, m w = (Ret a, w1) ->
     exists new, trace (snd (k a w1)) = trace w1 ++ new /\ Forall E new) ->
  emits E (bind m k).
Proof.
  intros Hm Hk w. unfold bind. destruct (Hm w) as (n1 & H1 & F1). specialize (Hk w).
  destruct (m w) as [[a | e |] w1]; cbn [snd] in H1.
  - destruct (Hk a w1 eq_refl) as (n2 & H2 & F2). exists (n1 ++ n2).
    rewrite H2, H1, app_assoc. split; [reflexivity | apply Forall_app; auto].
  - exists n1. auto.
  - exists n1. auto.
Qed.

Lemma megabytes_inv path w mb w' :
  Transition.megabytes path w = (Ret mb, w') ->
  w' = w /\ exists data, files w !! path = Some data
                         /\ py_truediv (PInt (Z.of_nat (length data))) (PInt (1024 * 1024)) = inr mb.
Proof.
  unfold Transition.megabytes, Transition.getsize, read_file, bind.
  destruct (files w !! path) as [data |]; [| discriminate]. unfold ret.
  destruct (py_truediv _ _) as [e | x] eqn:Hdiv; cbn [lift]; [discriminate |].
  intros [= <- <-]. split; [reflexivity |]. exists data. auto.
Qed.

Lemma reduce_if_large_inv h path w upload w' :
  Transition.reduce_if_large h path w = (Ret (Some upload), w') ->
  exists data, files w' !! upload = Some data /\ within_upload_limit data.
Proof.
  unfold Transition.reduce_if_large. intros H.
  inv_bind_as H mb w1 Hsize. apply megabytes_inv in Hsize.
  destruct Hsize as (-> & data & Hfile & Hdiv).
  destruct (py_gt mb (PInt 35)) eqn:Hbig.
  - inv_lift_as H shown Hshown. inv_bind_as H u2 w2 Hp2.
    inv_bind_as H audio w3 Hdecode. inv_bind_as H u4 w4 Hexport.
    inv_bind_as H reduced w5 Hsize2. apply megabytes_inv in Hsize2.
    destruct Hsize2 as (-> & data2 & Hfile2 & Hdiv2).
    inv_lift_as H shown2 Hshown2. inv_bind_as H u6 w6 Hp6. apply print_inv in Hp6. subst w6.
    destruct (py_gt reduced (PInt 35)) eqn:Hbig2.
    + inv_bind H Hp. discriminate H.
    + injection H as <- <-. exists data2. split; [exact Hfile2 |]. exists reduced. auto.
  - injection H as <- <-. exists data. split; [exact Hfile |]. exists mb. auto.
Qed.

Section Orders.

Variable E : event -> Prop.
Hypothesis E_offline : forall e, offline e -> E e.

Lemma emits_offline_print line : emits E (print line).
Proof. apply emits_print, E_offline. exact I. Qed.

Lemma emits_offline_sleep n : emits E (sleep n).
Proof. apply emits_sleep, E_offline. exact I. Qed.

Lemma emits_transition_api_request_for h m e b :
  (forall x, E (Http (sonauto_request (transition_key h) m e b) x)) ->
  emits E (Transition.api_request h m e b).
Proof.
  intros Hrq. unfold Transition.api_request.
  repeat first
    [ apply emits_offline_print
    | match goal with
      | |- emits _ (requests_request _) => apply emits_requests_request; exact Hrq
      end
    | emits_step ].
Qed.

Lemma emits_transition_poll_loop_for h fuel t prev :
  (forall x, E (Http (status_request (transition_key h) t) x)) ->
  emits E (Transition.poll_loop h fuel t prev).
Proof.
  intros Hrq. revert prev. induction fuel as [| fuel IH]; intros prev; cbn [Transition.poll_loop].
  - apply emits_starve.
  - apply emits_bind; [apply emits_transition_api_request_for; exact Hrq | intros r].
    destruct (truthy r); [| apply emits_ret].
    cbv zeta. apply emits_bind.
    + destruct (differs _ _); [| apply emits_ret].
      apply emits_bind; [apply emits_offline_print | intros _; apply emits_ret].
    + intros p. destruct (terminal _); [apply emits_ret |].
      apply emits_bind; [apply emits_offline_sleep | intros _; apply IH].
Qed.

Lemma emits_reduce_if_large h path : emits E (Transition.reduce_if_large h path).
Proof.
  unfold Transition.reduce_if_large, Transition.megabytes, Transition.getsize,
    Transition.from_file, Transition.export.
  repeat first [apply emits_offline_print | emits_step].
Qed.

End Orders.

Lemma emits_create_transition h audio_path s e :
  emits (orders_within_limit (transition_key h) s e)
    (Transition.create_transition h audio_path s e).
Proof.
  set (E := orders_within_limit (transition_key h) s e).
  assert (HE : forall ev, offline ev -> E ev) by (intros [] Hev; first [exact I | destruct Hev]).
  assert (Hget : forall endpoint x,
            E (Http (sonauto_request (transition_key h) "GET" endpoint NoBody) x))
    by (intros; left; reflexivity).
  unfold Transition.create_transition.
  apply emits_bind; [apply emits_lift | intros shown_start].
  apply emits_bind; [apply emits_lift | intros shown_end].
  apply emits_bind; [apply emits_offline_print; exact HE | intros _].
  apply emits_bind_inv; [apply emits_reduce_if_large; exact HE |].
  intros w [upload |] w1 Hreduce; [| apply emits_ret].
  apply reduce_if_large_inv in Hreduce. destruct Hreduce as (data & Hfile & Hlimit).
  erewrite bind_Ret;
    [| unfold Transition.encode_audio_base64, bind, read_file; rewrite Hfile; reflexivity].
  cbv zeta.
  match goal with
  | |- exists new, trace (snd (?m w1)) = _ /\ _ => cut (emits E m); [intros Hm; apply Hm |]
  end.
  apply emits_bind.
  { apply emits_transition_api_request_for; [exact HE |].
    intros x. right. exists data. split; [exact Hlimit | reflexivity]. }
  intros response.
  repeat first
    [ apply emits_offline_print; exact HE
    | match goal with
      | |- emits _ (Transition.api_request _ _ _ _) =>
          apply emits_transition_api_request_for; [exact HE | apply Hget]
      | |- emits _ (Transition.poll_status _ _) =>
          intros ?; apply emits_transition_poll_loop_for; [exact HE | apply Hget]
      | |- emits _ (requests_get_value _ _) =>
          apply emits_requests_get_value; intros ? ?; left; reflexivity
      end
    | emits_step ].
Qed.

(** X15. [create_transition] never uploads more than 35 MB.  Whatever the
    answers and however the call ends, the only request with a body that it
    sends is the inpainting order, and the audio in that order is the
    base64 text of bytes whose size, measured as the size check measures
    it, is at most 35 MB; the order names the one section given, with empty
    lyrics, no tags and no crop.  Every other request has no body. *)
Theorem upload_is_within_the_limit (h : host) (audio_path : string)
    (section_start section_end : pynum) :
  emits (orders_within_limit (transition_key h) section_start section_end)
    (Transition.create_transition h audio_path section_start section_end).
Proof. apply emits_create_transition. Qed.

(** ** A video job that does not complete *)

(** X16. A video job that ends with any status other than ["completed"]
    (["failed"], an unknown word, a missing [status]) writes no file: once
    the job is submitted and the status answers stop being ["pending"],
    [create_singing_video] prints the status it read, returns [None], makes
    no further request and leaves the files as they were. *)
Theorem video_failure_writes_nothing (h : host) (song : Telegram.song_data)
    (recipient occasion : string)
    (w : world) (submit r : Response) (rs : list Response) (rest : list exchange)
    (data job d st : json) :
  network w = Answered submit :: map Answered rs ++ Answered r :: rest ->
  ok submit = true ->
  json_body submit = Some data -> dict_get data "job_id" JNull = inr job ->
  Forall (fun r => exists st, video_status r = Some st /\ json_is st "pending" = true) rs ->
  json_body r = Some d -> dict_get d "status" JNull = inr st ->
  json_is st "pending" = false -> json_is st "completed" = false ->
  exists w' pre,
    Telegram.create_singing_video h song recipient occasion w = (Ret None, w')
    /\ files w' = files w
    /\ network w' = rest
    /\ trace w' = pre ++ [Print ("❌ Video generation failed with status: " +:+ py_str st)].
Proof.
  intros Hnet Hok Hdata Hjob Hrs Hd Hst Hp Hc.
  unfold Telegram.create_singing_video.
  erewrite bind_Ret; [| apply print_eq].
  set (w1 := log (Print (nl +:+ "🎬 Creating singing telegram video...")) w).
  cbv zeta.
  match goal with
  | |- context [requests_request ?q] => set (rq := q)
  end.
  set (net2 := map Answered rs ++ Answered r :: rest).
  set (w2 := log (Print ("Video generation started with job ID: " +:+ py_str job))
               (log (Http rq (Answered submit)) (set_network net2 w1))).
  destruct (video_exits h job rs r d st Hrs Hd Hst Hp w2 rest eq_refl) as (w3 & Hpoll & Hnet3).
  assert (Hf3 : files w3 = files w).
  { change w3 with (snd (Ret (st, d), w3)). rewrite <- Hpoll.
    rewrite (keeps_files_video_poll _ _ w2). reflexivity. }
  eexists _, _.
  erewrite try_except_Ret.
  2: { erewrite bind_Ret;
         [| unfold requests_request; change (network w1) with (network w); rewrite Hnet; reflexivity].
       erewrite bind_Ret; [| apply ok_raise_for_status; exact Hok].
       erewrite bind_Ret; [| unfold response_json; rewrite Hdata; reflexivity].
       rewrite Hjob, lift_inr, bind_ret.
       erewrite bind_Ret; [| apply print_eq].
       fold net2 w2.
       rewrite (bind_Ret _ _ _ _ _ Hpoll). cbn [fst snd]. rewrite Hc.
       erewrite bind_Ret; [| apply print_eq].
       reflexivity. }
  split; [reflexivity |]. cbn [files log network trace]. auto.
Qed.

(** A run for X16: the job fails after one pending answer. *)
Lemma video_failure_writes_nothing_witness :
  exists w' pre,
    Telegram.create_singing_video sample_host sample_song "Sarah" "birthday"
      (world_of [Answered (reply 200 EmptyString (Some (JObj [("job_id", JStr "J1")])) []);
                 Answered (video_reply "pending"); Answered (video_reply "failed");
                 Refused "not reached"] ∅)
    = (Ret None, w')
    /\ files w' = ∅
    /\ network w' = [Refused "not reached"]
    /\ trace w' = pre ++ [Print ("❌ Video generation failed with status: " +:+ "failed")].
Proof.
  refine (video_failure_writes_nothing sample_host sample_song "Sarah" "birthday"
            (world_of [Answered (reply 200 EmptyString (Some (JObj [("job_id", JStr "J1")])) []);
                       Answered (video_reply "pending"); Answered (video_reply "failed");
                       Refused "not reached"] ∅)
            (reply 200 EmptyString (Some (JObj [("job_id", JStr "J1")])) [])
            (video_reply "failed") [video_reply "pending"] [Refused "not reached"]
            (JObj [("job_id", JStr "J1")]) (JStr "J1")
            (JObj [("status", JStr "failed")]) (JStr "failed")
            _ _ _ _ _ _ _ _ _).
  - reflexivity.
  - reflexivity.
  - reflexivity.
  - reflexivity.
  - constructor; [| constructor]. exists (JStr "pending"). split; reflexivity.
  - reflexivity.
  - reflexivity.
  - reflexivity.
  - reflexivity.
Defined.

(** ** The order for the video *)

Lemma lookup_image_sophia key :
  match lookup_image key (Telegram.CHARACTER_IMAGES) with
  | Some u => u
  | None => Telegram.sophia
  end = Telegram.sophia.
Proof.
  unfold Telegram.CHARACTER_IMAGES. cbn [lookup_image].
  destruct (String.eqb "birthday" key); [reflexivity |].
  destruct (String.eqb "default" key); reflexivity.
Qed.

Lemma emits_video_poll_loop_for E h fuel job :
  (forall e, offline e -> E e) ->
  (forall x, E (Http (video_status_request h job) x)) ->
  emits E (Telegram.video_poll_loop h fuel job).
Proof.
  intros HE Hrq. induction fuel as [| fuel IH]; cbn [Telegram.video_poll_loop].
  - apply emits_starve.
  - apply emits_bind; [apply emits_requests_request; exact Hrq | intros r].
    apply emits_bind; [apply emits_response_json | intros d].
    apply emits_bind; [apply emits_lift | intros st].
    destruct (json_is st "pending"); [| apply emits_ret].
    apply emits_bind; [apply emits_print, HE; exact I | intros _].
    apply emits_bind; [apply emits_sleep, HE; exact I | intros _]. exact IH.
Qed.

(** X17. The video is ordered from the song's URL, with one fixed
    character.  Whatever the recipient and the occasion, and however the
    call ends, the only request with a body that [create_singing_video]
    sends is [POST https://lemonslice.com/api/v2/generate] with resolution
    ["320"], the Sophia image (both entries of [CHARACTER_IMAGES] name it)
    and, as [audio_url], the [song_url] of the song it was given; the
    status polls and the download have no body. *)
Theorem video_order_uses_song_url (h : host) (song : Telegram.song_data)
    (recipient occasion : string) :
  emits (orders_video_of song) (Telegram.create_singing_video h song recipient occasion).
Proof.
  assert (HE : forall ev, offline ev -> orders_video_of song ev)
    by (intros [] Hev; first [exact I | destruct Hev]).
  unfold Telegram.create_singing_video. rewrite lookup_image_sophia.
  repeat first
    [ apply emits_print, HE; exact I
    | progress cbv zeta
    | match goal with
      | |- emits _ (Telegram.video_poll _ _) =>
          intros ?; apply emits_video_poll_loop_for; [exact HE | intros ?; left; reflexivity]
      | |- emits _ (requests_request _) =>
          apply emits_requests_request; intros ?; right; repeat split; reflexivity
      | |- emits _ (requests_get_value _ _) =>
          apply emits_requests_get_value; intros ? ?; left; reflexivity
      end
    | emits_step ].
Qed.

(** ** The window the transition script orders *)

Lemma emits_weaken {A : Type} (E1 E2 : event -> Prop) (m : M A) :
  (forall e, E1 e -> E2 e) -> emits E1 m -> emits E2 m.
Proof.
  intros H Hm w. destruct (Hm w) as (new & Ht & HF). exists new. split; [exact Ht |].
  eapply Forall_impl; [exact HF | exact H].
Qed.

Lemma concatenated_window h p1 p2 out comb d s te ts w returned w' :
  Transition.create_concatenated_audio h p1 p2 out comb d s te ts w = (Ret returned, w') ->
  exists L, 0 <= L
            /\ returned = (out, PFloat (seconds L - 0.1),
                           PFloat (seconds (L + Z.max 0 (s * 1000)) + 0.1)).
Proof.
  intros H. unfold Transition.create_concatenated_audio in H.
  inv_bind_as H u0 w0 Hprint.
  inv_bind_as H song1 w1 Hsong1.
  inv_bind H Hsong2.
  inv_lift H Hend_ms. inv_lift H Hstart_ms. inv_lift_as H stop Hstop.
  inv_lift_as H trimmed Hslice1. inv_lift H Hslice2.
  inv_bind H Hexport1. inv_bind H Hexport2. inv_bind H Hsaved.
  inv_lift H Hdiv1. apply truediv_1000 in Hdiv1. subst.
  inv_lift H Hsub. cbn in Hsub. injection Hsub as <-.
  inv_lift H Hdiv2. apply truediv_1000 in Hdiv2. subst.
  inv_lift H Hadd. cbn in Hadd. injection Hadd as <-.
  injection H as <- <-.
  exists (len trimmed). split; [apply len_nonneg |].
  rewrite len_silent. reflexivity.
Qed.

